(** * MCS: dense matrix drivers around BLAS/LAPACK

    A shallow embedding of the four C++ driver programs of the repository:

    - [matmul_dgemm_general.cpp]: reads [m n l], A (m x n) and B (n x l) from
      a text file, converts both to column-major, calls Fortran [dgemm_],
      converts the product back to row-major and writes it to a text file;
    - the SVD demo (LAPACKE_dgesvd on a hard-coded 2 x 2 matrix);
    - [main-ecnormal-modelo-lineal.cpp] (normal equations, LAPACKE_dgesv);
    - [main-ecnormal-modelo-cuadratico.cpp] (least squares, LAPACKE_dgels).

    [int] values are integers of [Z] in the 32-bit range, with an overflow
    of their arithmetic undefined; [size_t] arithmetic is arithmetic modulo
    2^64 and is written out; a [std::vector<double>] is a list, and an
    out-of-range [operator[]] is undefined behaviour.  The type [double],
    its arithmetic, its text conversions and the BLAS/LAPACK routines are
    external to the repository: they are the fields of two interfaces, and
    every theorem holds for all their instances.  Whether the machine
    creates a vector is the field of a third interface, the heap, with the
    heap that creates every vector as the instance of the statements that
    name no other. *)

From Stdlib Require Import ZArith Lia Ascii String DecimalString.
From stdpp Require Import base numbers list strings.

Open Scope Z_scope.

(** ** C++ integer types *)

Module Cxx.

Definition INT_MAX : Z := 2147483647.
Definition INT_MIN : Z := -2147483648.
Definition SIZE_MOD : Z := 2 ^ 64.

Definition in_int (x : Z) : bool := (INT_MIN <=? x) && (x <=? INT_MAX).

(** [static_cast<size_t>(x)], also the implicit conversion of an [int]
    operand of a [size_t] operation. *)
Definition size_of_int (x : Z) : Z := x mod SIZE_MOD.

Definition size_mul (a b : Z) : Z := (a * b) mod SIZE_MOD.
Definition size_add (a b : Z) : Z := (a + b) mod SIZE_MOD.

(** [int] arithmetic: a result that does not fit is undefined behaviour. *)
Definition int_add (a b : Z) : option Z :=
  if in_int (a + b) then Some (a + b) else None.

Definition int_mul (a b : Z) : option Z :=
  if in_int (a * b) then Some (a * b) else None.

(** [-a] *)
Definition int_neg (a : Z) : option Z :=
  if in_int (- a) then Some (- a) else None.

(** [static_cast<int>(n)] for a [size_t]: the value modulo 2^32 taken in the
    range of [int]. *)
Definition int_of_size (n : Z) : Z :=
  (n - INT_MIN) mod 2 ^ 32 + INT_MIN.

(** [static_cast<size_t>(i) * stride + j] *)
Definition offset (i stride j : Z) : Z :=
  size_add (size_mul (size_of_int i) (size_of_int stride)) (size_of_int j).

(** [static_cast<size_t>(rows) * cols] *)
Definition extent (rows cols : Z) : Z :=
  size_mul (size_of_int rows) (size_of_int cols).

(** [for (int i = 0; i < n; ++i) body], the body threading a state and
    possibly running into undefined behaviour. *)
Fixpoint for_from {St : Type} (i : Z) (count : nat)
  (body : Z -> St -> option St) (s : St) : option St :=
  match count with
  | O => Some s
  | S count' =>
      match body i s with
      | Some s' => for_from (i + 1) count' body s'
      | None => None
      end
  end.

Definition for_int {St : Type} (n : Z) (body : Z -> St -> option St)
  (s : St) : option St :=
  for_from 0 (Z.to_nat n) body s.

(** [std::to_string(int)] and [out << int]: plain decimal. *)
Definition to_string (x : Z) : string := NilZero.string_of_int (Z.to_int x).

(** The newline character as a string. *)
Definition nl : string := String (ascii_of_nat 10) EmptyString.

(** The double quote character as a string. *)
Definition dquote : string := String (ascii_of_nat 34) EmptyString.

End Cxx.

Import Cxx.

(** ** std::vector and fixed-size arrays *)

(** A fixed-size array of [n] elements [x], and the elements of a
    [std::vector<T> v(n, x)] that has been created. *)
Definition vec_new {T : Type} (n : Z) (x : T) : list T :=
  replicate (Z.to_nat n) x.

(** [v[k]] as an rvalue *)
Definition vec_get {T : Type} (v : list T) (k : Z) : option T :=
  if 0 <=? k then v !! Z.to_nat k else None.

(** [v[k] = x] *)
Definition vec_set {T : Type} (v : list T) (k : Z) (x : T) : option (list T) :=
  if (0 <=? k) && (k <? Z.of_nat (length v))
  then Some (<[Z.to_nat k := x]> v)
  else None.

(** ** Results, exceptions and undefined behaviour *)

(** What a call gives: a value, an exception with its [what()], or
    undefined behaviour. *)
Inductive outcome (A : Type) :=
| Ok (a : A)
| Throw (what : string)
| Undefined.

Arguments Ok {A} a.
Arguments Throw {A} what.
Arguments Undefined {A}.

#[global] Instance outcome_bind : MBind outcome :=
  fun A B k r =>
    match r with
    | Ok a => k a
    | Throw what => Throw what
    | Undefined => Undefined
    end.

(** A step that is undefined behaviour when it yields [None]. *)
Definition out_ub {A : Type} (o : option A) : outcome A :=
  match o with Some a => Ok a | None => Undefined end.

(** ** The heap *)

(** What the creation of a [std::vector<double>] of [n] elements does on
    the machine: [None] when the vector is created, otherwise the [what()] of
    the exception thrown, a [std::length_error] beyond [max_size()] or a
    [std::bad_alloc] when the memory is not there.  The answer is taken to
    depend on the size only. *)
Class Heap := {
  vector_refused : Z -> option string;
}.

(** The heap of a machine with all the memory a run asks for: it creates
    every vector.  A statement that names no heap is about runs on it. *)
#[global] Instance ideal_heap : Heap := {|
  vector_refused := fun _ => None;
|}.

(** [max_size()] of a [std::vector<double>] with 64-bit pointers:
    [PTRDIFF_MAX / sizeof(double)]. *)
Definition max_size : Z := 2 ^ 60 - 1.

(** The heap of libstdc++ on a machine that has room for [capacity]
    values. *)
Definition libstdcxx_heap (capacity : Z) : Heap := {|
  vector_refused := fun n =>
    if max_size <? n
    then Some "cannot create std::vector larger than max_size()"
    else if capacity <? n then Some "std::bad_alloc"
    else None;
|}.

(** [std::vector<T> v(n, x)] *)
Definition vec_create `{Heap} {T : Type} (n : Z) (x : T) : outcome (list T) :=
  match vector_refused n with
  | Some what => Throw what
  | None => Ok (vec_new n x)
  end.

(** ** The double type *)

Inductive floatfield := FloatDefault | FloatFixed.

(** What the C++ implementation provides for [double]. *)
Class DoubleOps := {
  double : Type;
  (** the value of the decimal literal [m * 10^e] *)
  d_dec : Z -> Z -> double;
  dadd : double -> double -> double;
  dsub : double -> double -> double;
  dmul : double -> double -> double;
  ddiv : double -> double -> double;
  (** [std::fabs] *)
  dabs : double -> double;
  (** [x > y] *)
  dgt : double -> double -> bool;
  (** [in >> x] for a [double]: the value and the rest of the stream, or
      [None] when the extraction sets failbit *)
  istream_get_double : string -> option (double * string);
  (** what an extraction that sets failbit leaves in the stream: the white
      space and the characters it has taken are gone *)
  istream_fail_double : string -> string;
  (** [out << x] under the stream's floatfield and precision *)
  ostream_fmt_double : floatfield -> Z -> double -> string;
}.

(** [0.0], [1.0] and the conversion of an [int] *)
Definition d_zero `{DoubleOps} : double := d_dec 0 0.
Definition d_one `{DoubleOps} : double := d_dec 1 0.
Definition d_of_int `{DoubleOps} (i : Z) : double := d_dec i 0.

(** ** std::ostream: the items written and the formatting state *)

Record ostream := {
  os_items : list string;
  os_precision : Z;
  os_floatfield : floatfield;
  os_width : Z;
}.

Definition os_open : ostream :=
  {| os_items := []; os_precision := 6; os_floatfield := FloatDefault;
     os_width := 0 |}.

Definition spaces (n : nat) : string :=
  fold_right String.append EmptyString (replicate n " "%string).

(** Right-justified in the pending field width, which is then reset. *)
Definition os_put (os : ostream) (s : string) : ostream :=
  {| os_items :=
       os_items os
       ++ [spaces (Z.to_nat (os_width os) - String.length s) +:+ s];
     os_precision := os_precision os;
     os_floatfield := os_floatfield os;
     os_width := 0 |}.

Inductive manipulator :=
| setprecision (n : Z)
| setw (n : Z)
| fixed.

Definition os_manip (os : ostream) (m : manipulator) : ostream :=
  match m with
  | setprecision n =>
      {| os_items := os_items os; os_precision := n;
         os_floatfield := os_floatfield os; os_width := os_width os |}
  | setw n =>
      {| os_items := os_items os; os_precision := os_precision os;
         os_floatfield := os_floatfield os; os_width := n |}
  | fixed =>
      {| os_items := os_items os; os_precision := os_precision os;
         os_floatfield := FloatFixed; os_width := os_width os |}
  end.

(** [out << x], by the type of [x] *)
Class Insertion (T : Type) := insertion : ostream -> T -> ostream.

#[global] Instance insert_string : Insertion string := os_put.
#[global] Instance insert_int : Insertion Z :=
  fun os x => os_put os (to_string x).
#[global] Instance insert_manip : Insertion manipulator := os_manip.
#[global] Instance insert_double `{DoubleOps} : Insertion double :=
  fun os x =>
    os_put os (ostream_fmt_double (os_floatfield os) (os_precision os) x).

Notation "os << x" := (insertion os x) (at level 50, left associativity).

(** The characters the stream holds. *)
Definition os_text (os : ostream) : string :=
  fold_right String.append EmptyString (os_items os).

(** ** std::istream: extraction of an [int] *)

Fixpoint skip_ws (s : string) : string :=
  match s with
  | String c r => if Ascii.is_space c then skip_ws r else s
  | EmptyString => EmptyString
  end.

Definition get_sign (s : string) : bool * string :=
  match s with
  | String "-" r => (true, r)
  | String "+" r => (false, r)
  | _ => (false, s)
  end.

Fixpoint get_digits (s : string) (acc : Z) : Z * string :=
  match s with
  | String c r =>
      match Ascii.is_nat c with
      | Some d => get_digits r (10 * acc + Z.of_nat d)
      | None => (acc, s)
      end
  | EmptyString => (acc, EmptyString)
  end.

(** A decimal integer literal after optional white space: sign, then at
    least one digit; the longest run of digits is taken. *)
Definition get_integer (s : string) : option (Z * string) :=
  let '(neg, s1) := get_sign (skip_ws s) in
  match s1 with
  | String c _ =>
      match Ascii.is_nat c with
      | Some _ =>
          let '(v, s2) := get_digits s1 0 in
          Some (if neg then - v else v, s2)
      | None => None
      end
  | EmptyString => None
  end.

(** [in >> x] for an [int]: a value that does not fit sets failbit. *)
Definition istream_get_int (s : string) : option (Z * string) :=
  match get_integer s with
  | Some (x, r) => if in_int x then Some (x, r) else None
  | None => None
  end.

(** What an extraction of an integer that sets failbit leaves in the
    stream: the white space, the sign and the digits it has taken are
    gone. *)
Definition istream_fail_integer (s : string) : string :=
  match get_integer s with
  | Some (_, r) => r
  | None => (get_sign (skip_ws s)).2
  end.

(** ** The external numerical library (BLAS, CBLAS, LAPACKE) *)

Inductive CBLAS_LAYOUT := CblasRowMajor | CblasColMajor.
Inductive CBLAS_TRANSPOSE := CblasNoTrans | CblasTrans.
Inductive lapack_layout := LAPACK_ROW_MAJOR | LAPACK_COL_MAJOR.

(** The thirteen arguments of one call of Fortran [dgemm_]. *)
Record dgemm_call `{DoubleOps} := {
  gemm_transa : ascii;
  gemm_transb : ascii;
  gemm_m : Z;
  gemm_n : Z;
  gemm_k : Z;
  gemm_alpha : double;
  gemm_a : list double;
  gemm_lda : Z;
  gemm_b : list double;
  gemm_ldb : Z;
  gemm_beta : double;
  gemm_c : list double;
  gemm_ldc : Z;
}.

(** What [LAPACKE_dgesvd] leaves in [S], [U] and [VT], and its status. *)
Record dgesvd_out `{DoubleOps} := {
  svd_info : Z;
  svd_s : Z -> double;
  svd_u : Z -> double;
  svd_vt : Z -> double;
}.

(** A routine that fills a caller's buffer is given by the value it leaves
    at each offset of that buffer; the buffer keeps its size. *)
Class Lapack `{DoubleOps} := {
  dgemm_ : dgemm_call -> Z -> double;
  cblas_dgemm :
    CBLAS_LAYOUT -> CBLAS_TRANSPOSE -> CBLAS_TRANSPOSE -> Z -> Z -> Z ->
    double -> list double -> Z -> list double -> Z -> double ->
    list double -> Z -> Z -> double;
  cblas_dgemv :
    CBLAS_LAYOUT -> CBLAS_TRANSPOSE -> Z -> Z ->
    double -> list double -> Z -> list double -> Z -> double ->
    list double -> Z -> Z -> double;
  (** status, and the right-hand side overwritten with the solution *)
  LAPACKE_dgesv :
    lapack_layout -> Z -> Z -> list double -> Z -> list double -> Z ->
    Z * (Z -> double);
  LAPACKE_dgels :
    lapack_layout -> ascii -> Z -> Z -> Z -> list double -> Z ->
    list double -> Z -> Z * (Z -> double);
  LAPACKE_dgesvd :
    lapack_layout -> ascii -> ascii -> Z -> Z -> list double -> Z ->
    Z -> Z -> dgesvd_out;
}.

(** The buffer after a routine has written it. *)
Definition overwrite {T : Type} (buf : list T) (f : Z -> T) : list T :=
  imap (fun k _ => f (Z.of_nat k)) buf.

(** A fixed-size array the routine fills. *)
Definition filled {T : Type} (n : nat) (f : Z -> T) : list T :=
  map (fun k => f (Z.of_nat k)) (seq 0 n).

(** ** The matrix product program: files, exceptions, effects *)

Record filesystem := {
  (** the text of a file that [std::ifstream] can open *)
  fs_read : string -> option string;
  (** whether [std::ofstream] can create or truncate the file *)
  fs_create : string -> bool;
  (** what the device behind a created file keeps of the text that the
      program sends to it: all of it, or less when the device fails *)
  fs_keeps : string -> string -> string;
}.

Inductive event `{DoubleOps} :=
| EvOpenInput (path : string)
| EvGetInt
| EvGetDouble
| EvDgemm (call : dgemm_call)
| EvOpenOutput (path : string)
(** the insertions made into the stream of a created file, as one text *)
| EvWriteOutput (path : string) (text : string)
| EvCout (text : string)
| EvCerr (text : string).

Record world `{DoubleOps} := {
  (** what is left to read of the input file *)
  w_fin : string;
  (** what the run did so far, oldest first *)
  w_trace : list event;
}.

Definition IO `{DoubleOps} (A : Type) : Type := world -> outcome A * world.

Definition io_ret `{DoubleOps} {A : Type} (a : A) : IO A :=
  fun w => (Ok a, w).

Definition io_bind `{DoubleOps} {A B : Type} (m : IO A) (k : A -> IO B)
  : IO B :=
  fun w =>
    match m w with
    | (Ok a, w') => k a w'
    | (Throw what, w') => (Throw what, w')
    | (Undefined, w') => (Undefined, w')
    end.

Notation "x <- m ;; k" := (io_bind m (fun x => k))
  (at level 100, m at next level, k at level 200, right associativity).
Notation "m ;; k" := (io_bind m (fun _ => k))
  (at level 100, k at level 200, right associativity).

(** [throw std::runtime_error(what)] *)
Definition runtime_error `{DoubleOps} {A : Type} (what : string) : IO A :=
  fun w => (Throw what, w).

(** A step that is undefined behaviour when it yields [None]. *)
Definition io_ub `{DoubleOps} {A : Type} (o : option A) : IO A :=
  fun w => match o with Some a => (Ok a, w) | None => (Undefined, w) end.

(** A call that leaves the world as it is. *)
Definition io_call `{DoubleOps} {A : Type} (r : outcome A) : IO A :=
  fun w => (r, w).

Definition io_log `{DoubleOps} (e : event) : IO unit :=
  fun w => (Ok tt, {| w_fin := w_fin w; w_trace := w_trace w ++ [e] |}).

Fixpoint io_for_from `{DoubleOps} {St : Type} (i : Z) (count : nat)
  (body : Z -> St -> IO St) (s : St) : IO St :=
  match count with
  | O => io_ret s
  | S count' => s' <- body i s ;; io_for_from (i + 1) count' body s'
  end.

Definition io_for `{DoubleOps} {St : Type} (n : Z) (body : Z -> St -> IO St)
  (s : St) : IO St :=
  io_for_from 0 (Z.to_nat n) body s.

(** [std::ifstream fin(path)]; the result is [!!fin]. *)
Definition open_input `{DoubleOps} (fs : filesystem) (path : string)
  : IO bool :=
  fun w =>
    match fs_read fs path with
    | Some text =>
        (Ok true,
         {| w_fin := text; w_trace := w_trace w ++ [EvOpenInput path] |})
    | None =>
        (Ok false,
         {| w_fin := w_fin w; w_trace := w_trace w ++ [EvOpenInput path] |})
    end.

(** [std::ofstream fout(path)]; the result is [!!fout]. *)
Definition open_output `{DoubleOps} (fs : filesystem) (path : string)
  : IO bool :=
  io_log (EvOpenOutput path) ;; io_ret (fs_create fs path).

(** [fin >> x] for an [int]; [None] when the stream has failed. *)
Definition fin_get_int `{DoubleOps} : IO (option Z) :=
  fun w =>
    match istream_get_int (w_fin w) with
    | Some (x, rest) =>
        (Ok (Some x),
         {| w_fin := rest; w_trace := w_trace w ++ [EvGetInt] |})
    | None =>
        (Ok None,
         {| w_fin := istream_fail_integer (w_fin w);
            w_trace := w_trace w ++ [EvGetInt] |})
    end.

(** [in >> x] for a [double]; [None] when the stream has failed. *)
Definition fin_get_double `{DoubleOps} : IO (option double) :=
  fun w =>
    match istream_get_double (w_fin w) with
    | Some (x, rest) =>
        (Ok (Some x),
         {| w_fin := rest; w_trace := w_trace w ++ [EvGetDouble] |})
    | None =>
        (Ok None,
         {| w_fin := istream_fail_double (w_fin w);
            w_trace := w_trace w ++ [EvGetDouble] |})
    end.

(** The message of the exception [read_matrix_row_major] throws. *)
Definition read_error (name : string) (i j : Z) : string :=
  "Error leyendo matriz " +:+ name +:+ " en (" +:+ to_string i +:+ ","
  +:+ to_string j +:+ ").".

Definition read_matrix_row_major `{DoubleOps} `{Heap} (rows cols : Z)
  (name : string) : IO (list double) :=
  M <- io_call (vec_create (extent rows cols) d_zero) ;;
  io_for rows (fun i M =>
    io_for cols (fun j M =>
      got <- fin_get_double ;;
      match got with
      | Some x => io_ub (vec_set M (offset i cols j) x)
      | None => runtime_error (read_error name i j)
      end) M) M.

(** Row-major (rows x cols) -> column-major (rows x cols) *)
Definition to_col_major `{DoubleOps} `{Heap} (rm : list double)
  (rows cols : Z) : outcome (list double) :=
  cm ← vec_create (extent rows cols) d_zero;
  out_ub
    (for_int rows (fun i cm =>
       for_int cols (fun j cm =>
         x ← vec_get rm (offset i cols j);
         vec_set cm (offset j rows i) x) cm) cm).

(** Column-major (rows x cols) -> row-major (rows x cols) *)
Definition to_row_major `{DoubleOps} `{Heap} (cm : list double)
  (rows cols : Z) : outcome (list double) :=
  rm ← vec_create (extent rows cols) d_zero;
  out_ub
    (for_int rows (fun i rm =>
       for_int cols (fun j rm =>
         x ← vec_get cm (offset j rows i);
         vec_set rm (offset i cols j) x) rm) rm).

Definition write_matrix_row_major `{DoubleOps} (out : ostream)
  (rm : list double) (rows cols : Z) : option ostream :=
  let out := out << rows << " " << cols << nl in
  let out := out << setprecision 17 in
  for_int rows (fun i out =>
    out ← for_int cols (fun j out =>
      x ← vec_get rm (offset i cols j);
      let out := out << x in
      Some (if j + 1 <? cols then out << " " else out)) out;
    Some (out << nl)) out.

(** [dgemm_(...)]: the call is recorded and [C] is overwritten. *)
Definition call_dgemm `{Lapack} (call : dgemm_call) : IO (list double) :=
  io_log (EvDgemm call) ;;
  io_ret (overwrite (gemm_c call) (dgemm_ call)).

Definition dimensions_error : string :=
  "Dimensiones inválidas. Se espera: m n l (enteros positivos).".

(** [fin >> m >> n >> l]: after a failure the later extractions do nothing. *)
Definition read_dimensions `{DoubleOps} : IO (option (Z * Z * Z)) :=
  a <- fin_get_int ;;
  match a with
  | None => io_ret None
  | Some m =>
      b <- fin_get_int ;;
      match b with
      | None => io_ret None
      | Some n =>
          c <- fin_get_int ;;
          match c with
          | None => io_ret None
          | Some l => io_ret (Some (m, n, l))
          end
      end
  end.

(** The body of the [try] block of [main]. *)
Definition main_try `{Lapack} `{Heap} (argv : list string) (fs : filesystem)
  : IO Z :=
  if negb (length argv =? 3)%nat then
    io_log (EvCerr (os_text (os_open << "Uso: " << nth 0 argv ""
                             << (" <input.txt> <output.txt>" +:+ nl)))) ;;
    io_ret 1
  else
    let in_path := nth 1 argv "" in
    let out_path := nth 2 argv "" in
    opened <- open_input fs in_path ;;
    if negb opened then
      runtime_error ("No se pudo abrir el archivo de entrada: " +:+ in_path)
    else
      dims <- read_dimensions ;;
      match dims with
      | None => runtime_error dimensions_error
      | Some (m, n, l) =>
          if (m <=? 0) || (n <=? 0) || (l <=? 0) then
            runtime_error dimensions_error
          else
            A_rm <- read_matrix_row_major m n "A" ;;
            B_rm <- read_matrix_row_major n l "B" ;;
            A <- io_call (to_col_major A_rm m n) ;;
            B <- io_call (to_col_major B_rm n l) ;;
            C <- io_call (vec_create (extent m l) d_zero) ;;
            let trans := "N"%char in
            C <- call_dgemm
                   {| gemm_transa := trans; gemm_transb := trans;
                      gemm_m := m; gemm_n := l; gemm_k := n;
                      gemm_alpha := d_one;
                      gemm_a := A; gemm_lda := m;
                      gemm_b := B; gemm_ldb := n;
                      gemm_beta := d_zero;
                      gemm_c := C; gemm_ldc := m |} ;;
            C_rm <- io_call (to_row_major C m l) ;;
            opened <- open_output fs out_path ;;
            if negb opened then
              runtime_error
                ("No se pudo abrir el archivo de salida: " +:+ out_path)
            else
              fout <- io_ub (write_matrix_row_major os_open C_rm m l) ;;
              io_log (EvWriteOutput out_path (os_text fout)) ;;
              io_log (EvCout
                        (os_text
                           (os_open
                            << "OK: C = A*B con DGEMM. Dimensiones: ("
                            << m << "x" << l << (")" +:+ nl)))) ;;
              io_ret 0
      end.

Definition world_start `{DoubleOps} : world :=
  {| w_fin := ""; w_trace := [] |}.

(** [main]: the exit status and what the run did.  An exception leaves the
    [try] block, is reported on [std::cerr] and makes the status 2. *)
Definition main `{Lapack} `{Heap} (argv : list string) (fs : filesystem)
  : outcome Z * world :=
  match main_try argv fs world_start with
  | (Throw what, w) =>
      (Ok 2,
       {| w_fin := w_fin w;
          w_trace :=
            w_trace w
            ++ [EvCerr (os_text (os_open << "Error: " << what << nl))] |})
  | r => r
  end.

(** ** The three programs with hard-coded data *)

Inductive routine :=
| R_dgesvd
| R_cblas_dgemm
| R_cblas_dgemv
| R_dgesv
| R_dgels.

(** The calls of the library routines: each call is recorded in the list
    of the routines called so far, oldest first. *)
Definition call_dgesvd `{Lapack} (layout : lapack_layout) (jobu jobvt : ascii)
  (m n : Z) (a : list double) (lda ldu ldvt : Z) (calls : list routine)
  : dgesvd_out * list routine :=
  (LAPACKE_dgesvd layout jobu jobvt m n a lda ldu ldvt, calls ++ [R_dgesvd]).

Definition call_cblas_dgemm `{Lapack} (layout : CBLAS_LAYOUT)
  (transa transb : CBLAS_TRANSPOSE) (m n k : Z) (alpha : double)
  (a : list double) (lda : Z) (b : list double) (ldb : Z) (beta : double)
  (c : list double) (ldc : Z) (calls : list routine)
  : (Z -> double) * list routine :=
  (cblas_dgemm layout transa transb m n k alpha a lda b ldb beta c ldc,
   calls ++ [R_cblas_dgemm]).

Definition call_cblas_dgemv `{Lapack} (layout : CBLAS_LAYOUT)
  (trans : CBLAS_TRANSPOSE) (m n : Z) (alpha : double) (a : list double)
  (lda : Z) (x : list double) (incx : Z) (beta : double) (y : list double)
  (incy : Z) (calls : list routine) : (Z -> double) * list routine :=
  (cblas_dgemv layout trans m n alpha a lda x incx beta y incy,
   calls ++ [R_cblas_dgemv]).

Definition call_dgesv `{Lapack} (layout : lapack_layout) (n nrhs : Z)
  (a : list double) (lda : Z) (b : list double) (ldb : Z)
  (calls : list routine) : (Z * (Z -> double)) * list routine :=
  (LAPACKE_dgesv layout n nrhs a lda b ldb, calls ++ [R_dgesv]).

Definition call_dgels `{Lapack} (layout : lapack_layout) (trans : ascii)
  (m n nrhs : Z) (a : list double) (lda : Z) (b : list double) (ldb : Z)
  (calls : list routine) : (Z * (Z -> double)) * list routine :=
  (LAPACKE_dgels layout trans m n nrhs a lda b ldb, calls ++ [R_dgels]).

(** A routine is handed a buffer of which it reads the first [count]
    elements: past the end of the buffer the behaviour is undefined. *)
Definition library_reads {T : Type} (buf : list T) (count : Z) : option unit :=
  if count <=? Z.of_nat (length buf) then Some tt else None.

(** What a run leaves behind. *)
Record report := {
  rep_status : Z;
  rep_cout : ostream;
  rep_cerr : ostream;
  (** the library routines called, oldest first *)
  rep_calls : list routine;
  (** the files created, with what was written to them *)
  rep_files : list (string * ostream);
}.

(** A message made of a fixed text, a number and a closing text, as the
    programs build every message about a status. *)
Record diagnostic := {
  diag_text : string;
  diag_value : Z;
  diag_tail : string;
}.

Definition diag_what (d : diagnostic) : string :=
  diag_text d +:+ to_string (diag_value d) +:+ diag_tail d.

(** [catch (const std::exception& ex)] of the two fitting programs *)
Definition caught (cout : ostream) (calls : list routine)
  (files : list (string * ostream)) (what : string) : report :=
  {| rep_status := 1;
     rep_cout := cout;
     rep_cerr := os_open << "Error: " << what << nl;
     rep_calls := calls;
     rep_files := files |}.

(** *** SVD of a 2 x 2 matrix *)

(** [if (info != 0)] *)
Definition dgesvd_diagnostic (info : Z) : option diagnostic :=
  if negb (info =? 0) then
    Some {| diag_text := "Error en dgesvd, info = "; diag_value := info;
            diag_tail := "" |}
  else None.

(** The triple loop [P = X * Y] on 2 x 2 row-major arrays, which [main]
    runs for [US = U * Sigma] and for [A_rec = US * VT]. *)
Definition product_2x2 `{DoubleOps} (X Y : list double)
  : option (list double) :=
  for_int 2 (fun i P =>
    for_int 2 (fun j P =>
      sum ← for_int 2 (fun k sum =>
               x ← vec_get X (i * 2 + k);
               y ← vec_get Y (k * 2 + j);
               Some (dadd sum (dmul x y))) d_zero;
      vec_set P (i * 2 + j) sum) P) (vec_new 4 d_zero).

(** The loops that print a square array, [count] rows of [count] entries
    read with the given stride. *)
Definition print_square `{DoubleOps} (cout : ostream) (X : list double)
  (count stride : Z) : option ostream :=
  for_int count (fun i cout =>
    cout ← for_int count (fun j cout =>
              x ← vec_get X (i * stride + j);
              Some (cout << setw 14 << x << " ")) cout;
    Some (cout << nl)) cout.

(** [max_err] after the last loop of [main]. *)
Definition max_abs_error `{DoubleOps} (A_rec A_orig : list double)
  : option double :=
  for_int 4 (fun i max_err =>
    r ← vec_get A_rec i;
    o ← vec_get A_orig i;
    let diff := dabs (dsub r o) in
    Some (if dgt diff max_err then diff else max_err)) d_zero.

(** The matrix of the program, row-major: [[1, -0.8], [0, 1]]. *)
Definition svd_A `{DoubleOps} : list double :=
  [d_dec 1 0; d_dec (-8) (-1); d_dec 0 0; d_dec 1 0].

(** Step 1 of [main]: the call of [LAPACKE_dgesvd]; what it leaves and the
    calls made. *)
Definition svd_steps `{Lapack} : dgesvd_out * list routine :=
  let A := svd_A in
  let m := 2 in
  let n := 2 in
  let lda := n in
  call_dgesvd LAPACK_ROW_MAJOR "A" "A" m n A lda m n [].

Definition svd_decompose `{Lapack} : dgesvd_out := svd_steps.1.

(** The rest of [main], from the test of [info]. *)
Definition svd_report `{DoubleOps} (r : dgesvd_out) (calls : list routine)
  : option report :=
  let m := 2 in
  let n := 2 in
  let S := filled 2 (svd_s r) in
  let U := filled 4 (svd_u r) in
  let VT := filled 4 (svd_vt r) in
  let info := svd_info r in
  match dgesvd_diagnostic info with
  | Some d =>
      Some {| rep_status := 1;
              rep_cout := os_open;
              rep_cerr := os_open << diag_text d << diag_value d << nl;
              rep_calls := calls;
              rep_files := [] |}
  | None =>
      let cout := os_open << fixed << setprecision 8 in
      let cout := cout << ("Valores singulares S:" +:+ nl) in
      cout ← for_int 2 (fun i cout =>
                s ← vec_get S i;
                Some (cout << "  S[" << i << "] = " << s << nl)) cout;
      let cout := cout << (nl +:+ "Matriz U (2x2):" +:+ nl) in
      cout ← print_square cout U m n;
      let cout := cout << (nl +:+ "Matriz V^T (2x2):" +:+ nl) in
      cout ← print_square cout VT n n;
      let Sigma := vec_new 4 d_zero in
      s0 ← vec_get S 0;
      Sigma ← vec_set Sigma 0 s0;
      s1 ← vec_get S 1;
      Sigma ← vec_set Sigma 3 s1;
      US ← product_2x2 U Sigma;
      A_rec ← product_2x2 US VT;
      let cout :=
        cout << (nl +:+ "A reconstruida (U * Sigma * V^T):" +:+ nl) in
      cout ← print_square cout A_rec 2 2;
      let A_orig := svd_A in
      max_err ← max_abs_error A_rec A_orig;
      let cout :=
        cout << (nl +:+ "Error máximo |A_rec - A_orig| = ") << max_err
             << nl in
      Some {| rep_status := 0;
              rep_cout := cout;
              rep_cerr := os_open;
              rep_calls := calls;
              rep_files := [] |}
  end.

Definition svd_main `{Lapack} : option report :=
  svd_report svd_steps.1 svd_steps.2.

(** *** Line of best fit by the normal equations

    The vectors of the two fitting programs have the sizes of the samples;
    their creation is taken to succeed. *)

(** The tests of [info]: no failure, or the message of the exception
    thrown.  The message for a negative status holds [-info], which is
    undefined behaviour when it does not fit an [int]. *)
Definition dgesv_diagnostic (info : Z) : option (option diagnostic) :=
  if info <? 0 then
    position ← int_neg info;
    Some (Some {| diag_text := "LAPACKE_dgesv: argumento ilegal en posición ";
                  diag_value := position; diag_tail := "" |})
  else if 0 <? info then
    Some (Some {| diag_text :=
                    "LAPACKE_dgesv: matriz singular; no se pudo resolver (info=";
                  diag_value := info; diag_tail := ")" |})
  else Some None.

(** The loop over the samples: the sum of squared errors and the table. *)
Definition linear_errors `{DoubleOps} (x y : list double) (m : Z)
  (a b : double) (cout : ostream) : option (double * ostream) :=
  for_int m (fun i st =>
    xi ← vec_get x i;
    yi ← vec_get y i;
    let y_hat := dadd (dmul a xi) b in
    let err := dsub y_hat yi in
    let sse := dadd st.1 (dmul err err) in
    Some (sse,
          st.2 << "x=" << xi << "  y=" << yi << "  y_hat=" << y_hat
               << "  err=" << err << nl)) (d_zero, cout).

(** The samples (1,2), (2,2), (3,4), (4,5). *)
Definition linear_x `{DoubleOps} : list double :=
  [d_dec 1 0; d_dec 2 0; d_dec 3 0; d_dec 4 0].

Definition linear_y `{DoubleOps} : list double :=
  [d_dec 2 0; d_dec 2 0; d_dec 4 0; d_dec 5 0].

(** Steps 1 to 3 of [main]: the design matrix, the normal equations and
    their solution; the calls made, the status of [LAPACKE_dgesv] and
    [theta].  The offsets [0 * m + i] and [1 * m + i] are computed in
    [int]. *)
Definition linear_steps `{Lapack} (x y_rm : list double)
  : option (list routine * (Z * list double)) :=
  let calls := [] in
  let m := int_of_size (Z.of_nat (length x)) in
  let n := 2 in
  A ← for_int m (fun i A =>
         xi ← vec_get x (size_of_int i);
         k0 ← (p ← int_mul 0 m; int_add p i);
         A ← vec_set A (size_of_int k0) xi;
         k1 ← (p ← int_mul 1 m; int_add p i);
         vec_set A (size_of_int k1) d_one) (vec_new (extent m n) d_zero);
  let y := y_rm in
  let ATA := vec_new (extent n n) d_zero in
  let ATy := vec_new (size_of_int n) d_zero in
  let '(product, calls) :=
    call_cblas_dgemm CblasColMajor CblasTrans CblasNoTrans n n m
      d_one A m A m d_zero ATA n calls in
  let ATA := overwrite ATA product in
  _ ← library_reads y m;
  let '(product, calls) :=
    call_cblas_dgemv CblasColMajor CblasTrans m n
      d_one A m y 1 d_zero ATy 1 calls in
  let ATy := overwrite ATy product in
  let theta := ATy in
  let '(solved, calls) :=
    call_dgesv LAPACK_COL_MAJOR n 1 ATA n theta n calls in
  let info := solved.1 in
  Some (calls, (info, overwrite theta solved.2)).

(** The status of [LAPACKE_dgesv] and [theta] after steps 1 to 3. *)
Definition linear_solve `{Lapack} (x y_rm : list double)
  : option (Z * list double) :=
  steps ← linear_steps x y_rm; Some steps.2.

(** The rest of [main], from the tests of [info]. *)
Definition linear_report `{DoubleOps} (x y : list double) (info : Z)
  (theta : list double) (calls : list routine) : option report :=
  let m := int_of_size (Z.of_nat (length x)) in
  failure ← dgesv_diagnostic info;
  match failure with
  | Some d => Some (caught os_open calls [] (diag_what d))
  | None =>
      a ← vec_get theta 0;
      b ← vec_get theta 1;
      let cout := os_open << fixed << setprecision 10 in
      let cout :=
        cout << ("Recta de mejor ajuste (ecuacion normal):" +:+ nl) in
      let cout := cout << ("y = a*x + b" +:+ nl) in
      let cout := cout << "a = " << a << nl in
      let cout := cout << "b = " << b << (nl +:+ nl) in
      let cout := cout << ("Puntos y prediccion:" +:+ nl) in
      st ← linear_errors x y m a b cout;
      let sse := st.1 in
      let cout := st.2 << (nl +:+ "SSE = ") << sse << nl in
      let cout := cout << "MSE = " << ddiv sse (d_of_int m) << nl in
      Some {| rep_status := 0;
              rep_cout := cout;
              rep_cerr := os_open;
              rep_calls := calls;
              rep_files := [] |}
  end.

Definition linear_main `{Lapack} : option report :=
  steps ← linear_steps linear_x linear_y;
  linear_report linear_x linear_y steps.2.1 steps.2.2 steps.1.

(** *** Quadratic least squares *)

Definition dgels_diagnostic (info : Z) : option (option diagnostic) :=
  if info <? 0 then
    position ← int_neg info;
    Some (Some {| diag_text := "LAPACKE_dgels: argumento ilegal en posicion ";
                  diag_value := position; diag_tail := "" |})
  else if 0 <? info then
    Some (Some {| diag_text := "LAPACKE_dgels: fallo numérico (info=";
                  diag_value := info; diag_tail := ")" |})
  else Some None.

Definition quadratic_errors `{DoubleOps} (x y : list double)
  (a b c : double) (cout : ostream) : option (double * ostream) :=
  for_int (Z.of_nat (length x)) (fun i st =>
    xi ← vec_get x i;
    let y_hat := dadd (dadd (dmul (dmul a xi) xi) (dmul b xi)) c in
    yi ← vec_get y i;
    let err := dsub y_hat yi in
    let sse := dadd st.1 (dmul err err) in
    Some (sse,
          st.2 << "x=" << xi << "  y=" << yi << "  y_hat=" << y_hat
               << "  err=" << err << nl)) (d_zero, cout).

(** What is written to [fit.csv]; the test [i < static_cast<int>(x.size())]
    compares with the size converted to [int]. *)
Definition write_fit_csv `{DoubleOps} (x y : list double) (a b c : double)
  : option ostream :=
  let out := os_open << ("x_pts,y_pts,x_fit,y_fit" +:+ nl) in
  let steps := 200 in
  xmin ← head x;
  xmax ← last x;
  for_int steps (fun i out =>
    let t := ddiv (d_of_int i) (d_of_int (steps - 1)) in
    let xf := dadd xmin (dmul t (dsub xmax xmin)) in
    let yf := dadd (dadd (dmul (dmul a xf) xf) (dmul b xf)) c in
    out ← (if i <? int_of_size (Z.of_nat (length x)) then
              xi ← vec_get x (size_of_int i);
              yi ← vec_get y (size_of_int i);
              Some (out << xi << "," << yi << ",")
            else Some (out << ",,"));
    Some (out << xf << "," << yf << nl)) out.

Definition octave_hint (cout : ostream) : ostream :=
  cout << ("Octave (ejemplo):" +:+ nl)
       << ("  data = csvread(" +:+ dquote +:+ "fit.csv" +:+ dquote
           +:+ ", 1, 0);" +:+ nl)
       << ("  x_pts = data(:,1);" +:+ nl)
       << ("  y_pts = data(:,2);" +:+ nl)
       << ("  x_fit = data(:,3);" +:+ nl)
       << ("  y_fit = data(:,4);" +:+ nl)
       << ("  plot(x_pts, y_pts, " +:+ dquote +:+ "o" +:+ dquote
           +:+ "); hold on;" +:+ nl)
       << ("  plot(x_fit, y_fit, " +:+ dquote +:+ "-" +:+ dquote
           +:+ ");" +:+ nl)
       << ("  grid on;" +:+ nl)
       << ("  xlabel(" +:+ dquote +:+ "x" +:+ dquote +:+ ");" +:+ nl)
       << ("  ylabel(" +:+ dquote +:+ "y" +:+ dquote +:+ ");" +:+ nl)
       << ("  title(" +:+ dquote +:+ "Ajuste cuadratico" +:+ dquote
           +:+ ");" +:+ nl)
       << ("  legend(" +:+ dquote +:+ "Datos" +:+ dquote +:+ ", " +:+ dquote
           +:+ "Ajuste" +:+ dquote +:+ ");" +:+ nl).

(** The samples (0,1.2), (1,2.0), (2,2.9), (3,4.1), (4,5.8), (5,8.2). *)
Definition quadratic_x `{DoubleOps} : list double :=
  [d_dec 0 0; d_dec 1 0; d_dec 2 0; d_dec 3 0; d_dec 4 0; d_dec 5 0].

Definition quadratic_y `{DoubleOps} : list double :=
  [d_dec 12 (-1); d_dec 2 0; d_dec 29 (-1); d_dec 41 (-1); d_dec 58 (-1);
   d_dec 82 (-1)].

(** Steps 1 to 4 of [main]: the design matrix, the right-hand side and the
    call of [LAPACKE_dgels]; the calls made, its status and [B].  The
    offsets [0 * m + i], [1 * m + i] and [2 * m + i] are computed in
    [lapack_int], which is [int]. *)
Definition quadratic_steps `{Lapack} (x y : list double)
  : option (list routine * (Z * list double)) :=
  let calls := [] in
  let m := int_of_size (Z.of_nat (length x)) in
  let n := 3 in
  let nrhs := 1 in
  A ← for_int m (fun i A =>
         xi ← vec_get x (size_of_int i);
         k0 ← (p ← int_mul 0 m; int_add p i);
         A ← vec_set A (size_of_int k0) (dmul xi xi);
         k1 ← (p ← int_mul 1 m; int_add p i);
         A ← vec_set A (size_of_int k1) xi;
         k2 ← (p ← int_mul 2 m; int_add p i);
         vec_set A (size_of_int k2) d_one) (vec_new (extent m n) d_zero);
  let ldb := Z.max m n in
  B ← for_int m (fun i B =>
         yi ← vec_get y (size_of_int i);
         vec_set B (size_of_int i) yi) (vec_new (extent ldb nrhs) d_zero);
  let trans := "N"%char in
  let '(solved, calls) :=
    call_dgels LAPACK_COL_MAJOR trans m n nrhs A m B ldb calls in
  let info := solved.1 in
  Some (calls, (info, overwrite B solved.2)).

(** The status of [LAPACKE_dgels] and [B] after steps 1 to 4. *)
Definition quadratic_solve `{Lapack} (x y : list double)
  : option (Z * list double) :=
  steps ← quadratic_steps x y; Some steps.2.

(** The rest of [main], from the tests of [info]; [csv_ok] tells whether
    [fit.csv] can be created. *)
Definition quadratic_report `{DoubleOps} (x y : list double) (info : Z)
  (B : list double) (csv_ok : bool) (calls : list routine) : option report :=
  let m := int_of_size (Z.of_nat (length x)) in
  failure ← dgels_diagnostic info;
  match failure with
  | Some d => Some (caught os_open calls [] (diag_what d))
  | None =>
      a ← vec_get B 0;
      b ← vec_get B 1;
      c ← vec_get B 2;
      let cout := os_open << fixed << setprecision 10 in
      let cout :=
        cout << ("Modelo cuadratico (minimos cuadrados con DGELS/QR):"
                 +:+ nl) in
      let cout := cout << ("y = a*x^2 + b*x + c" +:+ nl) in
      let cout := cout << "a = " << a << nl in
      let cout := cout << "b = " << b << nl in
      let cout := cout << "c = " << c << (nl +:+ nl) in
      let cout := cout << ("Puntos y prediccion:" +:+ nl) in
      st ← quadratic_errors x y a b c cout;
      let sse := st.1 in
      let mse := ddiv sse (d_of_int m) in
      let cout := st.2 << (nl +:+ "SSE = ") << sse << nl in
      let cout := cout << "MSE = " << mse << nl in
      if negb csv_ok then
        Some (caught cout calls [] "No se pudo crear fit.csv")
      else
        csv ← write_fit_csv x y a b c;
        let cout :=
          cout << (nl +:+ "Se genero fit.csv para graficar (puntos y curva)."
                   +:+ nl) in
        let cout := octave_hint cout in
        Some {| rep_status := 0;
                rep_cout := cout;
                rep_cerr := os_open;
                rep_calls := calls;
                rep_files := [("fit.csv", csv)] |}
  end.

Definition quadratic_main `{Lapack} (csv_ok : bool) : option report :=
  steps ← quadratic_steps quadratic_x quadratic_y;
  quadratic_report quadratic_x quadratic_y steps.2.1 steps.2.2 csv_ok
    steps.1.

(** ** Notions the statements use *)

(** An [int] that is the number of rows or columns of a matrix. *)
Definition is_count (x : Z) : Prop := 0 <= x <= INT_MAX.

Definition in_grid (rows cols i j : Z) : Prop :=
  0 <= i < rows /\ 0 <= j < cols.

(** The entry at an offset of a buffer ([0.0] outside it). *)
Definition entry `{DoubleOps} (v : list double) (k : Z) : double :=
  default d_zero (vec_get v k).

(** [sum_{k < n} f k * g k], accumulated from [0.0] in increasing [k]. *)
Definition dot `{DoubleOps} (n : Z) (f g : Z -> double) : double :=
  fold_left (fun acc k => dadd acc (dmul (f k) (g k))) (seqZ 0 n) d_zero.

(** The n x n identity matrix, row-major. *)
Definition is_identity `{DoubleOps} (B : list double) (n : Z) : Prop :=
  forall i j, in_grid n n i j ->
              entry B (i * n + j) = if i =? j then d_one else d_zero.

(** [n] successive extractions of a [double]: the values obtained, the rest
    of the stream, and whether all [n] succeeded. *)
Fixpoint get_doubles `{DoubleOps} (n : nat) (s : string)
  : list double * string * bool :=
  match n with
  | O => ([], s, true)
  | S n' =>
      match istream_get_double s with
      | Some (x, r) =>
          let '(xs, r', ok) := get_doubles n' r in (x :: xs, r', ok)
      | None => ([], s, false)
      end
  end.

(** The header [m n l]: the three values when all were extracted, the rest
    of the stream, and the number of extractions attempted. *)
Definition header_scan (s : string) : option (Z * Z * Z) * string * nat :=
  match istream_get_int s with
  | None => (None, istream_fail_integer s, 1%nat)
  | Some (m, s1) =>
      match istream_get_int s1 with
      | None => (None, istream_fail_integer s1, 2%nat)
      | Some (n, s2) =>
          match istream_get_int s2 with
          | None => (None, istream_fail_integer s2, 3%nat)
          | Some (l, s3) => (Some (m, n, l), s3, 3%nat)
          end
      end
  end.

(** A dimension is missing, unparsable or not positive. *)
Definition header_rejected (s : string) : Prop :=
  match (header_scan s).1.1 with
  | None => True
  | Some (m, n, l) => m <= 0 \/ n <= 0 \/ l <= 0
  end.

(** The text is a header [m n l] of positive dimensions, then the entries
    of A and of B, then [rest]. *)
Definition parses_as `{DoubleOps} (text : string) (m n l : Z)
  (A_rm B_rm : list double) (rest : string) : Prop :=
  exists s3 s4,
    header_scan text = (Some (m, n, l), s3, 3%nat)
    /\ 0 < m /\ 0 < n /\ 0 < l
    /\ get_doubles (Z.to_nat (m * n)) s3 = (A_rm, s4, true)
    /\ get_doubles (Z.to_nat (n * l)) s4 = (B_rm, rest, true).

(** What a run did, read off its trace. *)
Definition dgemm_calls `{DoubleOps} (tr : list event) : list dgemm_call :=
  omap (fun e => match e with EvDgemm c => Some c | _ => None end) tr.

Definition entries_read `{DoubleOps} (tr : list event) : nat :=
  length (omap (fun e => match e with EvGetDouble => Some tt | _ => None end)
            tr).

Definition outputs_opened `{DoubleOps} (tr : list event) : list string :=
  omap (fun e => match e with EvOpenOutput p => Some p | _ => None end) tr.

Definition outputs_written `{DoubleOps} (tr : list event)
  : list (string * string) :=
  omap (fun e => match e with EvWriteOutput p t => Some (p, t) | _ => None end)
    tr.

Definition cerr_texts `{DoubleOps} (tr : list event) : list string :=
  omap (fun e => match e with EvCerr t => Some t | _ => None end) tr.

(** What [main] prints on [std::cerr] for an exception. *)
Definition error_line (what : string) : string :=
  "Error: " +:+ what +:+ nl.

(** The text of a matrix: [rows cols], then one line per row with the
    entries of the row separated by single spaces. *)
Definition row_text `{DoubleOps} (fmt : double -> string) (rm : list double)
  (cols i : Z) : string :=
  String.concat " " (map (fun j => fmt (entry rm (i * cols + j))) (seqZ 0 cols))
  +:+ nl.

Definition matrix_text `{DoubleOps} (fmt : double -> string)
  (rm : list double) (rows cols : Z) : string :=
  to_string rows +:+ " " +:+ to_string cols +:+ nl
  +:+ fold_right String.append "" (map (row_text fmt rm cols) (seqZ 0 rows)).

(** The accuracy contract of DGEMM for the call the program makes: no
    transposition, [alpha = 1], [beta = 0], column-major operands with
    leading dimensions at least the row counts.  [close x y] says that the
    computed [x] is within the rounding tolerance of the exact [y]. *)
Definition dgemm_contract `{Lapack} (close : double -> double -> Prop)
  : Prop :=
  forall (c : dgemm_call) (i j : Z),
    gemm_transa c = "N"%char -> gemm_transb c = "N"%char ->
    gemm_alpha c = d_one -> gemm_beta c = d_zero ->
    0 < gemm_m c <= gemm_lda c -> 0 < gemm_k c <= gemm_ldb c ->
    gemm_m c <= gemm_ldc c ->
    gemm_lda c * gemm_k c <= Z.of_nat (length (gemm_a c)) ->
    gemm_ldb c * gemm_n c <= Z.of_nat (length (gemm_b c)) ->
    gemm_ldc c * gemm_n c <= Z.of_nat (length (gemm_c c)) ->
    in_grid (gemm_m c) (gemm_n c) i j ->
    close (dgemm_ c (i + j * gemm_ldc c))
      (dot (gemm_k c)
         (fun p => entry (gemm_a c) (i + p * gemm_lda c))
         (fun p => entry (gemm_b c) (p + j * gemm_ldb c))).

(** Postconditions of a step: on a normal result, on an exception; never
    undefined. *)
Definition io_post `{DoubleOps} {A : Type} (P : A -> world -> Prop)
  (E : string -> world -> Prop) (r : outcome A * world) : Prop :=
  match r with
  | (Ok a, w) => P a w
  | (Throw what, w) => E what w
  | (Undefined, _) => False
  end.

(** The copy loops of the layout adapters, up to cell (i, j). *)
Definition copied_upto {T : Type} (src dst0 : list T) (rows cols : Z)
  (si di : Z -> Z -> Z) (i j : Z) (d : list T) : Prop :=
  length d = length dst0 /\
  forall i' j', in_grid rows cols i' j' -> i' < i \/ (i' = i /\ j' < j) ->
                vec_get d (di i' j') = vec_get src (si i' j').

(** [read_matrix_row_major] before it reads cell (i, j): the cells before
    it hold the values extracted so far. *)
Definition reading_upto `{DoubleOps} (fin0 : string) (tr0 : list event)
  (rows cols i j : Z) (M : list double) (w : world) : Prop :=
  Z.of_nat (length M) = rows * cols
  /\ get_doubles (Z.to_nat (i * cols + j)) fin0
     = (take (Z.to_nat (i * cols + j)) M, w_fin w, true)
  /\ w_trace w
     = tr0 ++ replicate (Z.to_nat (i * cols + j)) EvGetDouble.

(** [read_matrix_row_major] after an extraction failed. *)
Definition reading_failed `{DoubleOps} (fin0 : string) (tr0 : list event)
  (rows cols : Z) (name : string) (what : string) (w : world) : Prop :=
  exists vals rest i j,
    get_doubles (Z.to_nat (rows * cols)) fin0 = (vals, rest, false)
    /\ w_fin w = istream_fail_double rest
    /\ in_grid rows cols i j
    /\ Z.of_nat (length vals) = i * cols + j
    /\ what = read_error name i j
    /\ w_trace w = tr0 ++ replicate (S (length vals)) EvGetDouble.

(** The call of [dgemm_] for A (m x n) and B (n x l), column-major. *)
Definition product_call `{DoubleOps} (m n l : Z) (A B : list double)
  : dgemm_call :=
  {| gemm_transa := "N"%char; gemm_transb := "N"%char;
     gemm_m := m; gemm_n := l; gemm_k := n;
     gemm_alpha := d_one;
     gemm_a := A; gemm_lda := m;
     gemm_b := B; gemm_ldb := n;
     gemm_beta := d_zero;
     gemm_c := vec_new (extent m l) d_zero; gemm_ldc := m |}.

(** The trace of a run up to the end of the reading of [count] entries. *)
Definition reading_trace `{DoubleOps} (in_path : string) (ints count : nat)
  : list event :=
  [EvOpenInput in_path] ++ replicate ints EvGetInt
  ++ replicate count EvGetDouble.

(** What [main] prints on [std::cout] at the end. *)
Definition ok_line (m l : Z) : string :=
  "OK: C = A*B con DGEMM. Dimensiones: (" +:+ to_string m +:+ "x"
  +:+ to_string l +:+ ")" +:+ nl.

(** [write_matrix_row_major] in the middle of its work: the text of the
    first cells of a row, of the first rows, and the state of the stream. *)
Definition cell_text `{DoubleOps} (fmt : double -> string) (rm : list double)
  (cols i j : Z) : string :=
  fmt (entry rm (i * cols + j)) +:+ (if j + 1 <? cols then " " else "").

Definition cells_text `{DoubleOps} (fmt : double -> string)
  (rm : list double) (cols i j : Z) : string :=
  fold_right String.append "" (map (cell_text fmt rm cols i) (seqZ 0 j)).

Definition rows_text `{DoubleOps} (fmt : double -> string)
  (rm : list double) (cols i : Z) : string :=
  fold_right String.append "" (map (row_text fmt rm cols) (seqZ 0 i)).

Definition writing `{DoubleOps} (ff : floatfield) (text : string)
  (out : ostream) : Prop :=
  os_text out = text /\ os_precision out = 17
  /\ os_floatfield out = ff /\ os_width out = 0.

(** The part of [main] that follows the check of the header, as it
    stands in [main_try]; it serves to state facts about that part. *)
Definition main_after_header `{Lapack} `{Heap} (m n l : Z)
  (out_path : string) (fs : filesystem) : IO Z :=
  A_rm <- read_matrix_row_major m n "A" ;;
  B_rm <- read_matrix_row_major n l "B" ;;
  A <- io_call (to_col_major A_rm m n) ;;
  B <- io_call (to_col_major B_rm n l) ;;
  C <- io_call (vec_create (extent m l) d_zero) ;;
  let trans := "N"%char in
  C <- call_dgemm
         {| gemm_transa := trans; gemm_transb := trans;
            gemm_m := m; gemm_n := l; gemm_k := n;
            gemm_alpha := d_one;
            gemm_a := A; gemm_lda := m;
            gemm_b := B; gemm_ldb := n;
            gemm_beta := d_zero;
            gemm_c := C; gemm_ldc := m |} ;;
  C_rm <- io_call (to_row_major C m l) ;;
  opened <- open_output fs out_path ;;
  if negb opened then
    runtime_error ("No se pudo abrir el archivo de salida: " +:+ out_path)
  else
    fout <- io_ub (write_matrix_row_major os_open C_rm m l) ;;
    io_log (EvWriteOutput out_path (os_text fout)) ;;
    io_log (EvCout
              (os_text
                 (os_open << "OK: C = A*B con DGEMM. Dimensiones: ("
                  << m << "x" << l << (")" +:+ nl)))) ;;
    io_ret 0.

(** The text of the output file of the program. *)
Definition output_text `{DoubleOps} (C_rm : list double) (m l : Z) : string :=
  matrix_text (ostream_fmt_double FloatDefault 17) C_rm m l.

(** What [main] prints on [std::cerr] when the arguments are not two. *)
Definition usage_line (prog : string) : string :=
  "Uso: " +:+ prog +:+ " <input.txt> <output.txt>" +:+ nl.

(** The handler of [main]: an exception becomes a line on [std::cerr] and
    the status 2. *)
Definition handled `{DoubleOps} (r : outcome Z * world) : outcome Z * world :=
  match r with
  | (Throw what, w) =>
      (Ok 2,
       {| w_fin := w_fin w;
          w_trace := w_trace w ++ [EvCerr (error_line what)] |})
  | r => r
  end.

(** The header is valid and the reading of matrix [name], which has [cols]
    columns, fails at its entry number [pos] (in row-major order, from 0):
    the entries before it were extracted, this one is missing or is not a
    number. *)
Definition first_bad_entry `{DoubleOps} (text name : string) (cols : Z)
  (pos : nat) : Prop :=
  exists m n l s3 k vals r,
    header_scan text = (Some (m, n, l), s3, k)
    /\ 0 < m /\ 0 < n /\ 0 < l
    /\ length vals = pos
    /\ ((name = "A" /\ cols = n
         /\ get_doubles (Z.to_nat (m * n)) s3 = (vals, r, false))
        \/ (name = "B" /\ cols = l
            /\ exists A_rm s4,
                get_doubles (Z.to_nat (m * n)) s3 = (A_rm, s4, true)
                /\ get_doubles (Z.to_nat (n * l)) s4 = (vals, r, false))).

(** The vector that holds matrix [name] is created, and for B the vector
    of A before it. *)
Definition matrix_created `{Heap} (text name : string) : Prop :=
  forall m n l s3 k,
    header_scan text = (Some (m, n, l), s3, k) ->
    vector_refused (extent m n) = None
    /\ (name = "B" -> vector_refused (extent n l) = None).

(** The vectors of a run on m x n and n x l matrices are created. *)
Definition vectors_created `{Heap} (m n l : Z) : Prop :=
  vector_refused (extent m n) = None
  /\ vector_refused (extent n l) = None
  /\ vector_refused (extent m l) = None.

(** The header is valid and the heap refuses, with the exception [what],
    the first vector it is asked for that it does not create: the vector of
    A, before any entry is read; the vector of B, after the entries of A;
    or the vector of C, after the entries of B.  [count] entries have been
    read by then and [rest] is left in the stream. *)
Definition first_refusal `{DoubleOps} `{Heap} (text what : string)
  (count : nat) (rest : string) : Prop :=
  exists m n l s3,
    header_scan text = (Some (m, n, l), s3, 3%nat)
    /\ 0 < m /\ 0 < n /\ 0 < l
    /\ ((vector_refused (extent m n) = Some what
         /\ count = 0%nat /\ rest = s3)
        \/ (vector_refused (extent m n) = None
            /\ exists A_rm s4,
                get_doubles (Z.to_nat (m * n)) s3 = (A_rm, s4, true)
                /\ ((vector_refused (extent n l) = Some what
                     /\ count = Z.to_nat (m * n) /\ rest = s4)
                    \/ (vector_refused (extent n l) = None
                        /\ vector_refused (extent m l) = Some what
                        /\ count = (Z.to_nat (m * n) + Z.to_nat (n * l))%nat
                        /\ exists B_rm,
                            get_doubles (Z.to_nat (n * l)) s4
                            = (B_rm, rest, true))))).

(** The runs of [main], by the way they end. *)
Inductive run_case `{Lapack} `{Heap} (argv : list string) (fs : filesystem)
  : outcome Z * world -> Prop :=
| RunUsage :
    length argv <> 3%nat ->
    run_case argv fs
      (Ok 1,
       {| w_fin := ""; w_trace := [EvCerr (usage_line (nth 0 argv ""))] |})
| RunNoInput prog in_path out_path :
    argv = [prog; in_path; out_path] ->
    fs_read fs in_path = None ->
    run_case argv fs
      (Ok 2,
       {| w_fin := "";
          w_trace :=
            [EvOpenInput in_path;
             EvCerr (error_line ("No se pudo abrir el archivo de entrada: "
                                 +:+ in_path))] |})
| RunBadHeader prog in_path out_path text :
    argv = [prog; in_path; out_path] ->
    fs_read fs in_path = Some text ->
    header_rejected text ->
    run_case argv fs
      (Ok 2,
       {| w_fin := (header_scan text).1.2;
          w_trace :=
            reading_trace in_path (header_scan text).2 0
            ++ [EvCerr (error_line dimensions_error)] |})
| RunNoVector prog in_path out_path text what count rest :
    argv = [prog; in_path; out_path] ->
    fs_read fs in_path = Some text ->
    first_refusal text what count rest ->
    run_case argv fs
      (Ok 2,
       {| w_fin := rest;
          w_trace :=
            reading_trace in_path 3 count ++ [EvCerr (error_line what)] |})
| RunBadEntry prog in_path out_path text name cols pos rest count :
    argv = [prog; in_path; out_path] ->
    fs_read fs in_path = Some text ->
    first_bad_entry text name cols pos ->
    matrix_created text name ->
    run_case argv fs
      (Ok 2,
       {| w_fin := rest;
          w_trace :=
            reading_trace in_path 3 count
            ++ [EvCerr (error_line (read_error name (Z.of_nat pos / cols)
                                      (Z.of_nat pos mod cols)))] |})
| RunProduct prog in_path out_path text m n l A_rm B_rm rest A B C_rm :
    argv = [prog; in_path; out_path] ->
    fs_read fs in_path = Some text ->
    parses_as text m n l A_rm B_rm rest ->
    vectors_created m n l ->
    to_col_major A_rm m n = Ok A ->
    to_col_major B_rm n l = Ok B ->
    to_row_major (overwrite (gemm_c (product_call m n l A B))
                    (dgemm_ (product_call m n l A B))) m l = Ok C_rm ->
    run_case argv fs
      (if fs_create fs out_path then Ok 0 else Ok 2,
       {| w_fin := rest;
          w_trace :=
            reading_trace in_path 3 (Z.to_nat (m * n) + Z.to_nat (n * l))
            ++ [EvDgemm (product_call m n l A B); EvOpenOutput out_path]
            ++ (if fs_create fs out_path
                then [EvWriteOutput out_path (output_text C_rm m l);
                      EvCout (ok_line m l)]
                else [EvCerr (error_line
                                ("No se pudo abrir el archivo de salida: "
                                 +:+ out_path))]) |}).



(** The files a run leaves on the devices: for each text sent to the
    stream of a created file, what the device keeps of it. *)
Definition files_kept `{DoubleOps} (fs : filesystem) (tr : list event)
  : list (string * string) :=
  map (fun f => (f.1, fs_keeps fs f.1 f.2)) (outputs_written tr).

(** Laws of the arithmetic of [double] that make a product with the
    identity matrix return its operand: [same x y] says that [x] and [y]
    are one number, with the two zeros taken as one number; [finite] and
    [is_zero] tell the finite values and the zeros.  On finite values a
    product with 1.0 is exact and a product with 0.0 is a zero; a sum of
    zeros is a zero, and adding a zero changes no number.  The tolerance
    [close] of a computed value holds as well for another writing of the
    same exact number. *)
Record identity_laws `{DoubleOps} (close same : double -> double -> Prop)
  (finite is_zero : double -> Prop) : Prop := {
  close_same : forall c d x, close c d -> same d x -> close c x;
  zero_is_zero : is_zero d_zero;
  zero_add_zero : forall a b, is_zero a -> is_zero b -> is_zero (dadd a b);
  mul_zero : forall x, finite x -> is_zero (dmul x d_zero);
  mul_one : forall x, finite x -> dmul x d_one = x;
  zero_add : forall z x, is_zero z -> finite x -> same (dadd z x) x;
  add_zero : forall a x z, same a x -> is_zero z -> same (dadd a z) x;
}.

(** The treatment of a status that distinguishes the two kinds of failure,
    for the statuses whose negation is an [int]: 0 is no failure; a
    negative status gives a message whose number is the position of the
    argument, the status negated; the message for a positive status has
    another text. *)
Definition status_policy (diagnose : Z -> option (option diagnostic))
  : Prop :=
  diagnose 0 = Some None
  /\ (forall info, INT_MIN < info < 0 ->
        exists d, diagnose info = Some (Some d) /\ diag_value d = - info)
  /\ (forall neg pos, INT_MIN < neg < 0 -> 0 < pos <= INT_MAX ->
        exists d d', diagnose neg = Some (Some d)
                     /\ diagnose pos = Some (Some d')
                     /\ diag_text d <> diag_text d').

(** The product of an r x n by an n x c matrix, row-major. *)
Definition matmul_rm `{DoubleOps} (r n c : Z) (X Y : list double)
  : list double :=
  map (fun p =>
         dot n (fun k => entry X (p / c * n + k))
           (fun k => entry Y (k * c + p mod c)))
    (seqZ 0 (r * c)).

(** The 2 x 2 diagonal matrix of two singular values. *)
Definition diag2 `{DoubleOps} (S : list double) : list double :=
  [entry S 0; d_zero; d_zero; entry S 1].

Definition abs_diff `{DoubleOps} (X Y : list double) (k : Z) : double :=
  dabs (dsub (entry X k) (entry Y k)).

(** [m] is the greatest of 0.0 and the absolute differences of the first
    [count] entries: none of them exceeds [m], and [m] is one of them
    or 0.0. *)
Definition greatest_abs_diff `{DoubleOps} (m : double) (X Y : list double)
  (count : Z) : Prop :=
  (forall k, 0 <= k < count -> dgt (abs_diff X Y k) m = false)
  /\ (m = d_zero \/ exists k, 0 <= k < count /\ m = abs_diff X Y k).

(** [sum_i (y_hat_i - y_i)^2], accumulated from 0.0 in the order of the
    samples. *)
Definition sum_squared_errors `{DoubleOps} (y_hat y : list double) : double :=
  fold_left (fun acc p => dadd acc (dmul (dsub p.1 p.2) (dsub p.1 p.2)))
    (zip y_hat y) d_zero.

(** The two lines that report SSE and MSE, item by item. *)
Definition error_summary `{DoubleOps} (sse mse : double) : list string :=
  [nl +:+ "SSE = "; ostream_fmt_double FloatFixed 10 sse; nl;
   "MSE = "; ostream_fmt_double FloatFixed 10 mse; nl].

(** The items written contain this run of items. *)
Definition has_run (items run : list string) : Prop :=
  exists before after, items = before ++ run ++ after.

(** ** An instance with exact integer arithmetic

    Files whose entries are integer literals, values in [Z], and the
    reference triple loop for the product.  It serves to run the programs
    on concrete inputs. *)

Module Exact.

Definition z_dec (m e : Z) : Z :=
  if 0 <=? e then m * 10 ^ e else m / 10 ^ (- e).

#[export] Instance ZDouble : DoubleOps := {|
  double := Z;
  d_dec := z_dec;
  dadd := Z.add;
  dsub := Z.sub;
  dmul := Z.mul;
  ddiv := Z.div;
  dabs := Z.abs;
  dgt := Z.gtb;
  istream_get_double := get_integer;
  istream_fail_double := fun s => (get_sign (skip_ws s)).2;
  ostream_fmt_double := fun _ _ x => to_string x;
|}.

(** Reference DGEMM without transposition, column-major:
    [C(i,j) := alpha * sum_p A(i,p) * B(p,j) + beta * C(i,j)]. *)
Definition ref_dgemm (c : dgemm_call) (k : Z) : Z :=
  let i := k mod gemm_ldc c in
  let j := k / gemm_ldc c in
  if (i <? gemm_m c) && (j <? gemm_n c) then
    gemm_alpha c
    * dot (gemm_k c)
        (fun p => entry (gemm_a c) (i + p * gemm_lda c))
        (fun p => entry (gemm_b c) (p + j * gemm_ldb c))
    + gemm_beta c * entry (gemm_c c) k
  else entry (gemm_c c) k.

(** The LAPACK drivers of this instance return a given status and leave
    zeros in their outputs. *)
Definition ZLapack (info : Z) : Lapack := {|
  dgemm_ := ref_dgemm;
  cblas_dgemm := fun _ _ _ _ _ _ _ _ _ _ _ _ _ _ _ => 0;
  cblas_dgemv := fun _ _ _ _ _ _ _ _ _ _ _ _ _ => 0;
  LAPACKE_dgesv := fun _ _ _ _ _ _ _ => (info, fun _ => 0);
  LAPACKE_dgels := fun _ _ _ _ _ _ _ _ _ => (info, fun _ => 0);
  LAPACKE_dgesvd := fun _ _ _ _ _ _ _ _ _ =>
    {| svd_info := info; svd_s := fun _ => 0; svd_u := fun _ => 0;
       svd_vt := fun _ => 0 |};
|}.

(** The input of the 2 x 3 by 3 x 2 example. *)
Definition sample_input : string :=
  "2 3 2" +:+ nl +:+ "1 2 3" +:+ nl +:+ "1 1 1" +:+ nl
  +:+ "2 3" +:+ nl +:+ "3 4" +:+ nl +:+ "5 6" +:+ nl.

(** A header [2 3 2] over a body laid out as a 2 x 2 matrix followed by a
    4 x 2 matrix. *)
Definition ragged_input : string :=
  "2 3 2" +:+ nl +:+ "1 2" +:+ nl +:+ "3 4" +:+ nl
  +:+ "5 6" +:+ nl +:+ "7 8" +:+ nl +:+ "9 10" +:+ nl +:+ "11 12" +:+ nl.

(** A file system with one readable file; every file can be created, on
    a device that keeps what is written. *)
Definition one_file (path text : string) : filesystem :=
  {| fs_read := fun p => if String.eqb p path then Some text else None;
     fs_create := fun _ => true;
     fs_keeps := fun _ written => written |}.

(** The same with output files on a device that is full, as [/dev/full]:
    a file is created and keeps nothing. *)
Definition full_device (path text : string) : filesystem :=
  {| fs_read := fun p => if String.eqb p path then Some text else None;
     fs_create := fun _ => true;
     fs_keeps := fun _ _ => "" |}.

End Exact.

(** ** An instance with signed zeros, infinities and NaN

    Values of integer magnitude with the two zeros, the two infinities and
    NaN, under the rules of IEEE 754 arithmetic for signs and exceptional
    operands: the sum of opposite numbers and of zeros of opposite signs is
    +0, the product of an infinity and a zero is NaN.  Sums, differences
    and products of finite values are exact; a quotient of finite values
    is truncated to an integer.  Literals are integers. *)

Module Signed.

Inductive value :=
| Finite (negative : bool) (magnitude : N)
| Infinity (negative : bool)
| NaN.

Definition signed (negative : bool) (magnitude : N) : Z :=
  if negative then - Z.of_N magnitude else Z.of_N magnitude.

Definition of_Z (z : Z) : value := Finite (z <? 0) (Z.abs_N z).

Definition opp (x : value) : value :=
  match x with
  | Finite a p => Finite (negb a) p
  | Infinity a => Infinity (negb a)
  | NaN => NaN
  end.

Definition add (x y : value) : value :=
  match x, y with
  | NaN, _ | _, NaN => NaN
  | Infinity a, Infinity b => if Bool.eqb a b then Infinity a else NaN
  | Infinity a, Finite _ _ => Infinity a
  | Finite _ _, Infinity b => Infinity b
  | Finite a p, Finite b q =>
      let sum := signed a p + signed b q in
      if sum =? 0 then Finite (a && b) 0 else of_Z sum
  end.

Definition mul (x y : value) : value :=
  match x, y with
  | NaN, _ | _, NaN => NaN
  | Infinity a, Infinity b => Infinity (xorb a b)
  | Infinity a, Finite b q =>
      if (q =? 0)%N then NaN else Infinity (xorb a b)
  | Finite a p, Infinity b =>
      if (p =? 0)%N then NaN else Infinity (xorb a b)
  | Finite a p, Finite b q => Finite (xorb a b) (p * q)
  end.

Definition div (x y : value) : value :=
  match x, y with
  | NaN, _ | _, NaN => NaN
  | Infinity _, Infinity _ => NaN
  | Infinity a, Finite b _ => Infinity (xorb a b)
  | Finite a _, Infinity b => Finite (xorb a b) 0
  | Finite a p, Finite b q =>
      if (q =? 0)%N
      then if (p =? 0)%N then NaN else Infinity (xorb a b)
      else Finite (xorb a b) (p / q)
  end.

Definition abs (x : value) : value :=
  match x with
  | Finite _ p => Finite false p
  | Infinity _ => Infinity false
  | NaN => NaN
  end.

Definition gt (x y : value) : bool :=
  match x, y with
  | NaN, _ | _, NaN => false
  | Infinity a, Infinity b => negb a && b
  | Infinity a, Finite _ _ => negb a
  | Finite _ _, Infinity b => b
  | Finite a p, Finite b q => signed a p >? signed b q
  end.

(** A sign and digits; the sign of [-0] is kept. *)
Definition get_value (s : string) : option (value * string) :=
  let '(neg, s1) := get_sign (skip_ws s) in
  match s1 with
  | String c _ =>
      match Ascii.is_nat c with
      | Some _ =>
          let '(v, s2) := get_digits s1 0 in
          Some (Finite neg (Z.to_N v), s2)
      | None => None
      end
  | EmptyString => None
  end.

Definition fmt_value (x : value) : string :=
  match x with
  | Finite a p => (if a then "-" else "") +:+ to_string (Z.of_N p)
  | Infinity a => if a then "-inf" else "inf"
  | NaN => "nan"
  end.

#[export] Instance SDouble : DoubleOps := {|
  double := value;
  d_dec := fun m e => of_Z (Exact.z_dec m e);
  dadd := add;
  dsub := fun x y => add x (opp y);
  dmul := mul;
  ddiv := div;
  dabs := abs;
  dgt := gt;
  istream_get_double := get_value;
  istream_fail_double := fun s => (get_sign (skip_ws s)).2;
  ostream_fmt_double := fun _ _ x => fmt_value x;
|}.

Definition finite (x : value) : Prop :=
  match x with Finite _ _ => True | _ => False end.

Definition is_zero (x : value) : Prop :=
  match x with Finite _ 0%N => True | _ => False end.

(** One number: equal, or two zeros. *)
Definition same (x y : value) : Prop := x = y \/ (is_zero x /\ is_zero y).

Definition zero_beta (x : value) : bool :=
  match x with Finite _ 0%N => true | _ => false end.

(** Reference DGEMM without transposition, column-major: with [beta] zero
    the old content of C is not read. *)
Definition ref_dgemm (c : dgemm_call) (k : Z) : value :=
  let i := k mod gemm_ldc c in
  let j := k / gemm_ldc c in
  if (i <? gemm_m c) && (j <? gemm_n c) then
    let product :=
      mul (gemm_alpha c)
        (dot (gemm_k c)
           (fun p => entry (gemm_a c) (i + p * gemm_lda c))
           (fun p => entry (gemm_b c) (p + j * gemm_ldb c))) in
    if zero_beta (gemm_beta c) then product
    else add product (mul (gemm_beta c) (entry (gemm_c c) k))
  else entry (gemm_c c) k.

Definition SLapack (info : Z) : Lapack := {|
  dgemm_ := ref_dgemm;
  cblas_dgemm := fun _ _ _ _ _ _ _ _ _ _ _ _ _ _ _ => Finite false 0;
  cblas_dgemv := fun _ _ _ _ _ _ _ _ _ _ _ _ _ => Finite false 0;
  LAPACKE_dgesv := fun _ _ _ _ _ _ _ => (info, fun _ => Finite false 0);
  LAPACKE_dgels := fun _ _ _ _ _ _ _ _ _ => (info, fun _ => Finite false 0);
  LAPACKE_dgesvd := fun _ _ _ _ _ _ _ _ _ =>
    {| svd_info := info; svd_s := fun _ => Finite false 0;
       svd_u := fun _ => Finite false 0;
       svd_vt := fun _ => Finite false 0 |};
|}.

(** A 2 x 3 matrix with a negative zero, and the 3 x 3 identity. *)
Definition identity_input : string :=
  "2 3 3" +:+ nl +:+ "-0 2 3" +:+ nl +:+ "4 -5 6" +:+ nl
  +:+ "1 0 0" +:+ nl +:+ "0 1 0" +:+ nl +:+ "0 0 1" +:+ nl.

End Signed.

(** ** Further notions *)

(** What a run printed on [std::cout]. *)
Definition cout_texts `{DoubleOps} (tr : list event) : list string :=
  omap (fun e => match e with EvCout t => Some t | _ => None end) tr.

(** A string right-justified in a field of the given width. *)
Definition right_justified (width : nat) (s : string) : string :=
  spaces (width - String.length s) +:+ s.

(** The line that a fitting program prints for one sample [(x, y)], item by
    item, [model] being the fitted curve. *)
Definition sample_line `{DoubleOps} (fmt : double -> string)
  (model : double -> double) (p : double * double) : list string :=
  ["x="; fmt p.1; "  y="; fmt p.2; "  y_hat="; fmt (model p.1);
   "  err="; fmt (dsub (model p.1) p.2); nl].

(** The fitted line and the fitted parabola. *)
Definition line_model `{DoubleOps} (a b x : double) : double :=
  dadd (dmul a x) b.

Definition parabola_model `{DoubleOps} (a b c x : double) : double :=
  dadd (dadd (dmul (dmul a x) x) (dmul b x)) c.

(** The point number [i] of the mesh of 200 points from the first to the
    last sample. *)
Definition mesh_point `{DoubleOps} (x : list double) (i : Z) : double :=
  dadd (entry x 0)
    (dmul (ddiv (d_of_int i) (d_of_int 199))
       (dsub (entry x (Z.of_nat (length x) - 1)) (entry x 0))).

(** The row number [i] of [fit.csv], item by item. *)
Definition csv_row `{DoubleOps} (x y : list double) (a b c : double) (i : Z)
  : list string :=
  let fmt := ostream_fmt_double FloatDefault 6 in
  (if i <? Z.of_nat (length x)
   then [fmt (entry x i); ","; fmt (entry y i); ","]
   else [",,"])
  ++ [fmt (mesh_point x i); ",";
      fmt (parabola_model a b c (mesh_point x i)); nl].

(** * Properties *)

(** ** Facts about the integer model *)

Lemma offset_int i stride j :
  0 <= i <= INT_MAX -> 0 <= stride <= INT_MAX -> 0 <= j <= INT_MAX ->
  offset i stride j = i * stride + j.
Proof.
  unfold INT_MAX. intros Hi Hs Hj.
  unfold offset, size_add, size_mul, size_of_int, SIZE_MOD.
  rewrite (Z.mod_small i), (Z.mod_small stride), (Z.mod_small j) by lia.
  rewrite (Z.mod_small (i * stride)) by nia.
  apply Z.mod_small. nia.
Qed.

Lemma extent_int rows cols :
  is_count rows -> is_count cols -> extent rows cols = rows * cols.
Proof.
  unfold is_count, INT_MAX. intros Hr Hc.
  unfold extent, size_mul, size_of_int, SIZE_MOD.
  rewrite (Z.mod_small rows), (Z.mod_small cols) by lia.
  apply Z.mod_small. nia.
Qed.

Lemma int_add_fits (a b : Z) :
  INT_MIN <= a + b <= INT_MAX -> int_add a b = Some (a + b).
Proof.
  intros Hfit. unfold int_add, in_int.
  destruct (Z.leb_spec INT_MIN (a + b)); [| lia].
  destruct (Z.leb_spec (a + b) INT_MAX); [reflexivity | lia].
Qed.

Lemma int_mul_fits (a b : Z) :
  INT_MIN <= a * b <= INT_MAX -> int_mul a b = Some (a * b).
Proof.
  intros Hfit. unfold int_mul, in_int.
  destruct (Z.leb_spec INT_MIN (a * b)); [| lia].
  destruct (Z.leb_spec (a * b) INT_MAX); [reflexivity | lia].
Qed.

Lemma int_neg_fits (a : Z) :
  INT_MIN < a <= INT_MAX -> int_neg a = Some (- a).
Proof.
  intros Hfit. unfold int_neg, in_int.
  destruct (Z.leb_spec INT_MIN (- a)); [| unfold INT_MIN, INT_MAX in *; lia].
  destruct (Z.leb_spec (- a) INT_MAX);
    [reflexivity | unfold INT_MIN, INT_MAX in *; lia].
Qed.

Lemma int_of_size_fits (n : Z) :
  0 <= n <= INT_MAX -> int_of_size n = n.
Proof.
  intros Hfit. unfold int_of_size.
  rewrite Z.mod_small by (unfold INT_MIN, INT_MAX in *; lia). lia.
Qed.

Lemma size_of_int_small (k : Z) :
  0 <= k <= INT_MAX -> size_of_int k = k.
Proof.
  intros Hk. unfold size_of_int, SIZE_MOD. apply Z.mod_small.
  unfold INT_MAX in Hk. lia.
Qed.

(** [c * m + i] in [int] *)
Lemma int_offset_fits (c m i : Z) :
  0 <= c -> 0 <= m -> 0 <= i -> c * m + i <= INT_MAX ->
  (p ← int_mul c m; int_add p i) = Some (c * m + i).
Proof.
  intros Hc Hm Hi Hfit.
  rewrite int_mul_fits by (unfold INT_MIN; nia). cbn [mbind option_bind].
  apply int_add_fits. unfold INT_MIN. nia.
Qed.

Lemma linear_index_inj a b a' b' n :
  0 <= b < n -> 0 <= b' < n -> a * n + b = a' * n + b' -> a = a' /\ b = b'.
Proof.
  intros Hb Hb' E.
  assert (a = a').
  { destruct (Z.lt_trichotomy a a') as [Hlt | [Heq | Hgt]]; [| assumption |].
    - assert (a * n + n <= a' * n) by nia. lia.
    - assert (a' * n + n <= a * n) by nia. lia. }
  subst a'. split; [reflexivity | lia].
Qed.

Lemma grid_row_major rows cols i j :
  is_count rows -> is_count cols -> in_grid rows cols i j ->
  offset i cols j = i * cols + j /\ 0 <= i * cols + j < rows * cols.
Proof.
  intros Hr Hc [Hi Hj]. unfold is_count in *.
  split; [apply offset_int; lia | nia].
Qed.

Lemma grid_col_major rows cols i j :
  is_count rows -> is_count cols -> in_grid rows cols i j ->
  offset j rows i = j * rows + i /\ 0 <= j * rows + i < rows * cols.
Proof.
  intros Hr Hc [Hi Hj]. unfold is_count in *.
  split; [apply offset_int; lia | nia].
Qed.

(** ** Vectors *)

Lemma vec_new_length {T : Type} (n : Z) (x : T) :
  0 <= n -> Z.of_nat (length (vec_new n x)) = n.
Proof. intros Hn. unfold vec_new. rewrite length_replicate. lia. Qed.

Lemma vec_get_in {T : Type} (v : list T) (k : Z) :
  0 <= k < Z.of_nat (length v) -> exists x, vec_get v k = Some x.
Proof.
  intros Hk. unfold vec_get.
  destruct (Z.leb_spec 0 k); [| lia].
  apply lookup_lt_is_Some_2. lia.
Qed.

Lemma vec_set_in {T : Type} (v : list T) (k : Z) (x : T) :
  0 <= k < Z.of_nat (length v) ->
  vec_set v k x = Some (<[Z.to_nat k := x]> v).
Proof.
  intros Hk. unfold vec_set.
  destruct (Z.leb_spec 0 k); [| lia].
  destruct (Z.ltb_spec k (Z.of_nat (length v))); [reflexivity | lia].
Qed.

Lemma vec_get_insert_eq {T : Type} (v : list T) (k : Z) (x : T) :
  0 <= k < Z.of_nat (length v) ->
  vec_get (<[Z.to_nat k := x]> v) k = Some x.
Proof.
  intros Hk. unfold vec_get.
  destruct (Z.leb_spec 0 k); [| lia].
  apply list_lookup_insert_eq. lia.
Qed.

Lemma vec_get_insert_ne {T : Type} (v : list T) (k k' : Z) (x : T) :
  0 <= k -> 0 <= k' -> k <> k' ->
  vec_get (<[Z.to_nat k := x]> v) k' = vec_get v k'.
Proof.
  intros Hk Hk' Hne. unfold vec_get.
  destruct (Z.leb_spec 0 k'); [| lia].
  apply list_lookup_insert_ne. lia.
Qed.

(** ** Loop invariants *)

Lemma for_from_inv {St : Type} (P : Z -> St -> Prop)
  (body : Z -> St -> option St) count :
  forall i s,
    P i s ->
    (forall k t, i <= k < i + Z.of_nat count -> P k t ->
                 exists t', body k t = Some t' /\ P (k + 1) t') ->
    exists s', for_from i count body s = Some s' /\ P (i + Z.of_nat count) s'.
Proof.
  induction count as [|count IH]; intros i s Hs Hstep; simpl.
  - exists s. rewrite Z.add_0_r. auto.
  - destruct (Hstep i s) as (t & Hb & Ht); [lia | assumption |].
    rewrite Hb.
    destruct (IH (i + 1) t Ht) as (s' & Hrun & Hs').
    + intros k u Hk Hu. apply Hstep; [lia | assumption].
    + exists s'. split; [assumption |].
      replace (i + Z.of_nat (S count)) with (i + 1 + Z.of_nat count) by lia.
      assumption.
Qed.

Lemma for_int_inv {St : Type} (P : Z -> St -> Prop)
  (body : Z -> St -> option St) n s :
  0 <= n ->
  P 0 s ->
  (forall k t, 0 <= k < n -> P k t ->
               exists t', body k t = Some t' /\ P (k + 1) t') ->
  exists s', for_int n body s = Some s' /\ P n s'.
Proof.
  intros Hn Hs Hstep. unfold for_int.
  destruct (for_from_inv P body (Z.to_nat n) 0 s Hs) as (s' & Hrun & Hs').
  - intros k t Hk. apply Hstep. lia.
  - exists s'. split; [assumption |].
    rewrite Z2Nat.id in Hs' by assumption. exact Hs'.
Qed.

(** ** The copy loop shared by the two layout adapters *)

Section CopyLoop.
Context {T : Type}.
Variables (src dst0 : list T) (rows cols : Z).
Variables (si di : Z -> Z -> Z).

Hypothesis rows_nonneg : 0 <= rows.
Hypothesis cols_nonneg : 0 <= cols.
Hypothesis src_bound :
  forall i j, in_grid rows cols i j -> 0 <= si i j < Z.of_nat (length src).
Hypothesis dst_bound :
  forall i j, in_grid rows cols i j -> 0 <= di i j < Z.of_nat (length dst0).
Hypothesis dst_inj :
  forall i j i' j', in_grid rows cols i j -> in_grid rows cols i' j' ->
                    di i j = di i' j' -> i = i' /\ j = j'.

Lemma copy_cell i j d :
  in_grid rows cols i j ->
  copied_upto src dst0 rows cols si di i j d ->
  exists d', (x ← vec_get src (si i j); vec_set d (di i j) x) = Some d'
             /\ copied_upto src dst0 rows cols si di i (j + 1) d'.
Proof using src_bound dst_bound dst_inj.
  intros Hij [Hlen Hdone].
  destruct (vec_get_in src (si i j) (src_bound i j Hij)) as [x Hx].
  pose proof (dst_bound i j Hij) as Hd.
  rewrite Hx. simpl. rewrite vec_set_in by lia.
  eexists. split; [reflexivity |]. split.
  - rewrite length_insert. exact Hlen.
  - intros i' j' Hij' Hbefore.
    destruct (decide (i' = i /\ j' = j)) as [[-> ->] | Hne].
    + rewrite vec_get_insert_eq by lia. symmetry. exact Hx.
    + pose proof (dst_bound i' j' Hij').
      rewrite vec_get_insert_ne; [| lia | lia |].
      * apply Hdone; [assumption | lia].
      * intros E. apply Hne. symmetry in E.
        apply (dst_inj i' j' i j Hij' Hij E).
Qed.

Lemma copy_row i d :
  0 <= i < rows ->
  copied_upto src dst0 rows cols si di i 0 d ->
  exists d',
    for_int cols (fun j d => x ← vec_get src (si i j); vec_set d (di i j) x) d
    = Some d'
    /\ copied_upto src dst0 rows cols si di (i + 1) 0 d'.
Proof using src_bound dst_bound dst_inj cols_nonneg.
  intros Hi Hd.
  destruct (for_int_inv (fun j d => copied_upto src dst0 rows cols si di i j d)
              (fun j d => x ← vec_get src (si i j); vec_set d (di i j) x)
              cols d cols_nonneg Hd) as (d' & Hrun & Hlen & Hdone).
  - intros j t Hj Ht. apply copy_cell; [split; assumption | assumption].
  - exists d'. split; [assumption |]. split; [assumption |].
    intros i' j' Hij' Hbefore. apply Hdone; [assumption |].
    destruct Hij'. lia.
Qed.

Lemma copy_loop_spec :
  exists dst,
    for_int rows (fun i d =>
      for_int cols (fun j d =>
        x ← vec_get src (si i j); vec_set d (di i j) x) d) dst0 = Some dst
    /\ length dst = length dst0
    /\ forall i j, in_grid rows cols i j ->
                   vec_get dst (di i j) = vec_get src (si i j).
Proof using All.
  destruct (for_int_inv
              (fun i d => copied_upto src dst0 rows cols si di i 0 d)
              (fun i d =>
                 for_int cols (fun j d =>
                   x ← vec_get src (si i j); vec_set d (di i j) x) d)
              rows dst0 rows_nonneg) as (dst & Hrun & Hlen & Hdone).
  - split; [reflexivity |]. intros i' j' [Hi' Hj'] Hbefore. lia.
  - intros i t Hi Ht. apply copy_row; assumption.
  - exists dst. split; [exact Hrun |]. split; [exact Hlen |].
    intros i j Hij. apply Hdone; [assumption |]. destruct Hij. lia.
Qed.

End CopyLoop.

(** ** The layout adapters, entry by entry *)

Section LayoutFacts.
Context `{DoubleOps} `{Heap}.

(** An adapter whose vector is created runs its loops. *)
Lemma vec_create_ok {T : Type} (n : Z) (x : T) :
  vector_refused n = None -> vec_create n x = Ok (vec_new n x).
Proof. intros Hn. unfold vec_create. rewrite Hn. reflexivity. Qed.

Lemma vec_create_refused {T : Type} (n : Z) (x : T) what :
  vector_refused n = Some what -> vec_create n x = Throw what.
Proof. intros Hn. unfold vec_create. rewrite Hn. reflexivity. Qed.

Lemma to_col_major_spec (rm : list double) rows cols :
  is_count rows -> is_count cols ->
  Z.of_nat (length rm) = rows * cols ->
  vector_refused (extent rows cols) = None ->
  exists cm,
    to_col_major rm rows cols = Ok cm
    /\ Z.of_nat (length cm) = rows * cols
    /\ forall i j, in_grid rows cols i j ->
                   vec_get cm (j * rows + i) = vec_get rm (i * cols + j).
Proof.
  intros Hr Hc Hlen Hheap. unfold to_col_major.
  rewrite (vec_create_ok _ _ Hheap). cbn [mbind outcome_bind].
  assert (Hnew : Z.of_nat (length (vec_new (extent rows cols) d_zero))
                 = rows * cols).
  { rewrite extent_int by assumption. apply vec_new_length.
    unfold is_count in *. nia. }
  destruct (copy_loop_spec rm (vec_new (extent rows cols) d_zero) rows cols
              (fun i j => offset i cols j) (fun i j => offset j rows i))
    as (cm & Hrun & Hcm & Hget).
  - apply Hr.
  - apply Hc.
  - intros i j Hij. destruct (grid_row_major rows cols i j Hr Hc Hij). lia.
  - intros i j Hij. destruct (grid_col_major rows cols i j Hr Hc Hij). lia.
  - intros i j i' j' Hij Hij'.
    destruct (grid_col_major rows cols i j Hr Hc Hij) as [-> _].
    destruct (grid_col_major rows cols i' j' Hr Hc Hij') as [-> _].
    destruct Hij, Hij'. intros E.
    apply and_comm. eapply linear_index_inj; eassumption.
  - exists cm. split; [rewrite Hrun; reflexivity |]. split; [lia |].
    intros i j Hij. specialize (Hget i j Hij). simpl in Hget.
    destruct (grid_row_major rows cols i j Hr Hc Hij) as [E1 _].
    destruct (grid_col_major rows cols i j Hr Hc Hij) as [E2 _].
    rewrite E1, E2 in Hget. exact Hget.
Qed.

Lemma to_row_major_spec (cm : list double) rows cols :
  is_count rows -> is_count cols ->
  Z.of_nat (length cm) = rows * cols ->
  vector_refused (extent rows cols) = None ->
  exists rm,
    to_row_major cm rows cols = Ok rm
    /\ Z.of_nat (length rm) = rows * cols
    /\ forall i j, in_grid rows cols i j ->
                   vec_get rm (i * cols + j) = vec_get cm (j * rows + i).
Proof.
  intros Hr Hc Hlen Hheap. unfold to_row_major.
  rewrite (vec_create_ok _ _ Hheap). cbn [mbind outcome_bind].
  assert (Hnew : Z.of_nat (length (vec_new (extent rows cols) d_zero))
                 = rows * cols).
  { rewrite extent_int by assumption. apply vec_new_length.
    unfold is_count in *. nia. }
  destruct (copy_loop_spec cm (vec_new (extent rows cols) d_zero) rows cols
              (fun i j => offset j rows i) (fun i j => offset i cols j))
    as (rm & Hrun & Hrm & Hget).
  - apply Hr.
  - apply Hc.
  - intros i j Hij. destruct (grid_col_major rows cols i j Hr Hc Hij). lia.
  - intros i j Hij. destruct (grid_row_major rows cols i j Hr Hc Hij). lia.
  - intros i j i' j' Hij Hij'.
    destruct (grid_row_major rows cols i j Hr Hc Hij) as [-> _].
    destruct (grid_row_major rows cols i' j' Hr Hc Hij') as [-> _].
    destruct Hij, Hij'. intros E.
    eapply linear_index_inj; eassumption.
  - exists rm. split; [rewrite Hrun; reflexivity |]. split; [lia |].
    intros i j Hij. specialize (Hget i j Hij). simpl in Hget.
    destruct (grid_row_major rows cols i j Hr Hc Hij) as [E1 _].
    destruct (grid_col_major rows cols i j Hr Hc Hij) as [E2 _].
    rewrite E1, E2 in Hget. exact Hget.
Qed.

(** Two row-major buffers of one shape with the same entries are equal. *)
Lemma row_major_ext (u v : list double) rows cols :
  0 <= rows -> 0 <= cols ->
  Z.of_nat (length u) = rows * cols ->
  Z.of_nat (length v) = rows * cols ->
  (forall i j, in_grid rows cols i j ->
               vec_get u (i * cols + j) = vec_get v (i * cols + j)) ->
  u = v.
Proof.
  intros Hr Hc Hu Hv Hget. apply list_eq. intros k.
  destruct (decide (Z.of_nat k < rows * cols)) as [Hk | Hk].
  - assert (0 < cols) by nia.
    specialize (Hget (Z.of_nat k / cols) (Z.of_nat k mod cols)).
    assert (E : Z.of_nat k / cols * cols + Z.of_nat k mod cols = Z.of_nat k).
    { pose proof (Z.div_mod (Z.of_nat k) cols). lia. }
    rewrite E in Hget. unfold vec_get in Hget.
    destruct (Z.leb_spec 0 (Z.of_nat k)); [| lia].
    rewrite Nat2Z.id in Hget.
    apply Hget. split.
    + split; [apply Z.div_pos; lia |].
      apply Z.div_lt_upper_bound; lia.
    + apply Z.mod_pos_bound. lia.
  - rewrite !lookup_ge_None_2 by lia. reflexivity.
Qed.

End LayoutFacts.

(** C2.  For a row-major matrix M with r > 0 rows and c > 0 columns
    (r and c of type int, M holding r * c entries), converting to
    column-major and back gives M itself: the same list of values, entry
    for entry, with no operation of the double type applied to any of
    them. *)
Theorem layout_round_trip `{DoubleOps} (M : list double) (r c : Z) :
  0 < r <= INT_MAX -> 0 < c <= INT_MAX ->
  Z.of_nat (length M) = r * c ->
  exists cm,
    to_col_major M r c = Ok cm /\ to_row_major cm r c = Ok M.
Proof.
  intros Hr Hc Hlen.
  assert (Hr' : is_count r) by (unfold is_count; lia).
  assert (Hc' : is_count c) by (unfold is_count; lia).
  destruct (to_col_major_spec (H0 := ideal_heap) M r c Hr' Hc' Hlen eq_refl)
    as (cm & Hcm & Hlcm & Hget).
  destruct (to_row_major_spec (H0 := ideal_heap) cm r c Hr' Hc' Hlcm eq_refl)
    as (rm & Hrm & Hlrm & Hget').
  exists cm. split; [exact Hcm |]. rewrite Hrm. f_equal.
  apply (row_major_ext rm M r c); [lia | lia | assumption | assumption |].
  intros i j Hij. rewrite Hget' by assumption. apply Hget. assumption.
Qed.

Lemma layout_round_trip_witness :
  exists cm,
    to_col_major (H := Exact.ZDouble) [1; 2; 3; 4; 5; 6] 2 3 = Ok cm
    /\ to_row_major (H := Exact.ZDouble) cm 2 3 = Ok [1; 2; 3; 4; 5; 6].
Proof.
  apply (layout_round_trip (H := Exact.ZDouble) [1; 2; 3; 4; 5; 6] 2 3).
  - unfold INT_MAX. lia.
  - unfold INT_MAX. lia.
  - reflexivity.
Defined.

(** ** Steps with effects *)

Section IOFacts.
Context `{DoubleOps} `{Heap}.

Lemma io_for_from_rule {St : Type} (P : Z -> St -> world -> Prop)
  (E : string -> world -> Prop) (body : Z -> St -> IO St) count :
  forall i s w,
    P i s w ->
    (forall k t u, i <= k < i + Z.of_nat count -> P k t u ->
                   io_post (P (k + 1)) E (body k t u)) ->
    io_post (P (i + Z.of_nat count)) E (io_for_from i count body s w).
Proof.
  induction count as [|count IH]; intros i s w Hs Hstep; simpl.
  - rewrite Z.add_0_r. exact Hs.
  - unfold io_bind. specialize (Hstep i s w) as Hfirst.
    destruct (body i s w) as [[t | what |] u]; simpl in Hfirst.
    + replace (i + Z.of_nat (S count)) with (i + 1 + Z.of_nat count) by lia.
      apply IH.
      * apply Hfirst; [lia | assumption].
      * intros k t' u' Hk. apply Hstep. lia.
    + apply Hfirst; [lia | assumption].
    + apply Hfirst; [lia | assumption].
Qed.

Lemma io_for_rule {St : Type} (P : Z -> St -> world -> Prop)
  (E : string -> world -> Prop) (body : Z -> St -> IO St) n s w :
  0 <= n ->
  P 0 s w ->
  (forall k t u, 0 <= k < n -> P k t u ->
                 io_post (P (k + 1)) E (body k t u)) ->
  io_post (P n) E (io_for n body s w).
Proof.
  intros Hn Hs Hstep. unfold io_for.
  pose proof (io_for_from_rule P E body (Z.to_nat n) 0 s w Hs) as Hrun.
  rewrite Z.add_0_l, Z2Nat.id in Hrun by assumption.
  apply Hrun. intros k t u Hk. apply Hstep. lia.
Qed.

(** Successive extractions, one more at the end. *)
Lemma get_doubles_snoc n :
  forall s vals r,
    get_doubles n s = (vals, r, true) ->
    get_doubles (S n) s =
      match istream_get_double r with
      | Some (x, r') => (vals ++ [x], r', true)
      | None => (vals, r, false)
      end.
Proof.
  induction n as [|n IH]; intros s vals r Hn.
  - simpl in Hn. injection Hn as <- <-. simpl.
    destruct (istream_get_double s) as [[x r'] |]; reflexivity.
  - change (get_doubles (S (S n)) s) with
      (match istream_get_double s with
       | Some (x, r0) =>
           let '(xs, r', ok) := get_doubles (S n) r0 in (x :: xs, r', ok)
       | None => ([], s, false)
       end).
    simpl in Hn.
    destruct (istream_get_double s) as [[x r0] |]; [| discriminate].
    destruct (get_doubles n r0) as [[xs r1] ok] eqn:Hrec.
    injection Hn as <- <- ->.
    rewrite (IH r0 xs r1 Hrec).
    destruct (istream_get_double r1) as [[y r2] |]; reflexivity.
Qed.

Lemma get_doubles_failed n :
  forall d s vals r,
    get_doubles n s = (vals, r, false) ->
    get_doubles (n + d) s = (vals, r, false).
Proof.
  induction n as [|n IH]; intros d s vals r Hn; [discriminate |].
  simpl in *.
  destruct (istream_get_double s) as [[x r0] |].
  - destruct (get_doubles n r0) as [[xs r1] ok] eqn:Hrec.
    injection Hn as <- <- ->. rewrite (IH d r0 xs r1 Hrec). reflexivity.
  - destruct d; exact Hn.
Qed.

Lemma get_doubles_length n :
  forall s vals r,
    get_doubles n s = (vals, r, true) -> length vals = n.
Proof.
  induction n as [|n IH]; intros s vals r Hn; simpl in Hn.
  - injection Hn as <- _. reflexivity.
  - destruct (istream_get_double s) as [[x r0] |]; [| discriminate].
    destruct (get_doubles n r0) as [[xs r1] ok] eqn:Hrec.
    injection Hn as <- _ ->. simpl. f_equal. eapply IH. exact Hrec.
Qed.

Lemma read_cell fin0 tr0 rows cols name i j M w :
  is_count rows -> is_count cols -> in_grid rows cols i j ->
  reading_upto fin0 tr0 rows cols i j M w ->
  io_post (reading_upto fin0 tr0 rows cols i (j + 1))
    (reading_failed fin0 tr0 rows cols name)
    ((got <- fin_get_double ;;
      match got with
      | Some x => io_ub (vec_set M (offset i cols j) x)
      | None => runtime_error (read_error name i j)
      end) w).
Proof.
  intros Hr Hc Hij (Hlen & Hget & Htr).
  destruct (grid_row_major rows cols i j Hr Hc Hij) as [Hoff Hk].
  set (k := Z.to_nat (i * cols + j)) in *.
  assert (Hk' : Z.to_nat (i * cols + (j + 1)) = S k) by lia.
  assert (Hklen : (k < length M)%nat) by lia.
  pose proof (get_doubles_snoc k fin0 _ _ Hget) as Hnext.
  unfold io_bind, fin_get_double.
  destruct (istream_get_double (w_fin w)) as [[x rest] |]; simpl.
  - rewrite Hoff, vec_set_in by lia. unfold io_ub. simpl.
    fold k. split; [rewrite length_insert; exact Hlen |].
    rewrite Hk'. split.
    + rewrite Hnext. f_equal. f_equal.
      rewrite (take_S_r _ _ x) by (apply list_lookup_insert_eq; lia).
      rewrite take_insert_ge by lia. reflexivity.
    + rewrite Htr, <- app_assoc.
      change [EvGetDouble] with (replicate 1 EvGetDouble).
      rewrite <- replicate_add.
      replace (k + 1)%nat with (S k) by lia. reflexivity.
  - unfold runtime_error. simpl.
    exists (take k M), (w_fin w), i, j.
    split; [| split; [| split; [| split; [| split]]]].
    + replace (Z.to_nat (rows * cols))
        with (S k + (Z.to_nat (rows * cols) - S k))%nat by lia.
      apply get_doubles_failed. exact Hnext.
    + reflexivity.
    + exact Hij.
    + rewrite length_take. lia.
    + reflexivity.
    + rewrite Htr, <- app_assoc.
      change [EvGetDouble] with (replicate 1 EvGetDouble).
      rewrite <- replicate_add, length_take.
      replace (k + 1)%nat with (S (k `min` length M)) by lia. reflexivity.
Qed.

Lemma read_matrix_row_major_refused rows cols name w what :
  vector_refused (extent rows cols) = Some what ->
  read_matrix_row_major rows cols name w = (Throw what, w).
Proof.
  intros Hheap. unfold read_matrix_row_major, io_bind, io_call, vec_create.
  rewrite Hheap. reflexivity.
Qed.

Lemma read_matrix_row_major_spec rows cols name w :
  is_count rows -> is_count cols ->
  vector_refused (extent rows cols) = None ->
  io_post
    (fun M w' =>
       get_doubles (Z.to_nat (rows * cols)) (w_fin w) = (M, w_fin w', true)
       /\ w_trace w'
          = w_trace w ++ replicate (Z.to_nat (rows * cols)) EvGetDouble)
    (reading_failed (w_fin w) (w_trace w) rows cols name)
    (read_matrix_row_major rows cols name w).
Proof.
  intros Hr Hc Hheap. unfold read_matrix_row_major.
  unfold io_bind at 1. unfold io_call, vec_create. rewrite Hheap.
  assert (Hn : 0 <= rows * cols) by (unfold is_count in *; nia).
  assert (Hnew : Z.of_nat (length (vec_new (extent rows cols) d_zero))
                 = rows * cols).
  { rewrite extent_int by assumption. apply vec_new_length. exact Hn. }
  pose proof (io_for_rule
    (fun i M w' => reading_upto (w_fin w) (w_trace w) rows cols i 0 M w')
    (reading_failed (w_fin w) (w_trace w) rows cols name)
    (fun i M =>
       io_for cols (fun j M =>
         got <- fin_get_double ;;
         match got with
         | Some x => io_ub (vec_set M (offset i cols j) x)
         | None => runtime_error (read_error name i j)
         end) M)
    rows (vec_new (extent rows cols) d_zero) w) as Hrun.
  lapply Hrun; [clear Hrun; intros Hrun | apply Hr].
  lapply Hrun; [clear Hrun; intros Hrun |].
  lapply Hrun; [clear Hrun; intros Hrun |].
  - destruct (io_for rows _ _ w) as [[M | what |] w']; simpl in *.
    + destruct Hrun as (Hlen & Hget & Htr).
      rewrite Z.add_0_r in Hget, Htr.
      rewrite firstn_all2 in Hget by lia. auto.
    + exact Hrun.
    + exact Hrun.
  - intros i M u Hi Hinv.
    pose proof (io_for_rule
      (fun j M w' => reading_upto (w_fin w) (w_trace w) rows cols i j M w')
      (reading_failed (w_fin w) (w_trace w) rows cols name)
      (fun j M =>
         got <- fin_get_double ;;
         match got with
         | Some x => io_ub (vec_set M (offset i cols j) x)
         | None => runtime_error (read_error name i j)
         end)
      cols M u) as Hrow.
    lapply Hrow; [clear Hrow; intros Hrow | apply Hc].
    specialize (Hrow Hinv).
    lapply Hrow; [clear Hrow; intros Hrow |].
    + destruct (io_for cols _ M u) as [[M' | what |] u']; simpl in *;
        try exact Hrow.
      unfold reading_upto in *.
      replace ((i + 1) * cols + 0) with (i * cols + cols) by lia.
      exact Hrow.
    + intros j M' u' Hj Hinv'.
      apply read_cell; [assumption | assumption | split; assumption |].
      exact Hinv'.
  - split; [exact Hnew |]. simpl. rewrite app_nil_r. split; reflexivity.
Qed.

End IOFacts.

(** ** The stages of the matrix product program *)

Section Stages.
Context `{Lapack} `{Heap}.

Lemma read_dimensions_eq w :
  read_dimensions w =
    (Ok (header_scan (w_fin w)).1.1,
     {| w_fin := (header_scan (w_fin w)).1.2;
        w_trace := w_trace w ++ replicate (header_scan (w_fin w)).2 EvGetInt |}).
Proof.
  unfold read_dimensions, header_scan, io_bind, fin_get_int, io_ret.
  destruct (istream_get_int (w_fin w)) as [[m s1] |]; simpl; [| reflexivity].
  destruct (istream_get_int s1) as [[n s2] |]; simpl;
    [| rewrite <- app_assoc; reflexivity].
  destruct (istream_get_int s2) as [[l s3] |]; simpl;
    rewrite <- !app_assoc; reflexivity.
Qed.

Lemma istream_get_int_range s x r :
  istream_get_int s = Some (x, r) -> INT_MIN <= x <= INT_MAX.
Proof.
  unfold istream_get_int. destruct (get_integer s) as [[y t] |]; [| discriminate].
  destruct (in_int y) eqn:Hy; [| discriminate].
  intros [= <- _]. unfold in_int in Hy.
  apply andb_true_iff in Hy. lia.
Qed.

Lemma header_scan_range s m n l r k :
  header_scan s = (Some (m, n, l), r, k) ->
  m <= INT_MAX /\ n <= INT_MAX /\ l <= INT_MAX /\ k = 3%nat.
Proof.
  unfold header_scan.
  destruct (istream_get_int s) as [[m' s1] |] eqn:E1; [| discriminate].
  destruct (istream_get_int s1) as [[n' s2] |] eqn:E2; [| discriminate].
  destruct (istream_get_int s2) as [[l' s3] |] eqn:E3; [| discriminate].
  intros [= <- <- <- <- <-].
  apply istream_get_int_range in E1, E2, E3. lia.
Qed.

Lemma read_matrix_row_major_ok rows cols name w M r :
  is_count rows -> is_count cols ->
  vector_refused (extent rows cols) = None ->
  get_doubles (Z.to_nat (rows * cols)) (w_fin w) = (M, r, true) ->
  read_matrix_row_major rows cols name w =
    (Ok M,
     {| w_fin := r;
        w_trace := w_trace w ++ replicate (Z.to_nat (rows * cols)) EvGetDouble |}).
Proof.
  intros Hr Hc Hheap Hget.
  pose proof (read_matrix_row_major_spec rows cols name w Hr Hc Hheap) as Hrun.
  destruct (read_matrix_row_major rows cols name w) as [[M' | what |] [fin' tr']];
    simpl in Hrun.
  - destruct Hrun as [Hget' ->]. rewrite Hget in Hget'.
    injection Hget' as <- <-. reflexivity.
  - destruct Hrun as (vals & rest & i & j & Hget' & _). congruence.
  - contradiction.
Qed.

Lemma read_matrix_row_major_failed rows cols name w vals r :
  is_count rows -> is_count cols ->
  vector_refused (extent rows cols) = None ->
  get_doubles (Z.to_nat (rows * cols)) (w_fin w) = (vals, r, false) ->
  exists i j,
    in_grid rows cols i j
    /\ Z.of_nat (length vals) = i * cols + j
    /\ read_matrix_row_major rows cols name w =
         (Throw (read_error name i j),
          {| w_fin := istream_fail_double r;
             w_trace := w_trace w ++ replicate (S (length vals)) EvGetDouble |}).
Proof.
  intros Hr Hc Hheap Hget.
  pose proof (read_matrix_row_major_spec rows cols name w Hr Hc Hheap) as Hrun.
  destruct (read_matrix_row_major rows cols name w) as [[M' | what |] [fin' tr']];
    simpl in Hrun.
  - destruct Hrun as [Hget' _]. congruence.
  - destruct Hrun as (vals' & rest & i & j & Hget' & Hfin & Hij & Hlen & -> & Htr).
    simpl in Hget', Hfin, Htr. subst tr' fin'.
    rewrite Hget in Hget'. injection Hget' as <- <-.
    exists i, j. auto.
  - contradiction.
Qed.

End Stages.

(** ** Text *)

Lemma string_app_assoc (a b c : string) : (a +:+ b) +:+ c = a +:+ (b +:+ c).
Proof.
  induction a as [| ch a IH]; [reflexivity |].
  change (String ch ((a +:+ b) +:+ c) = String ch (a +:+ (b +:+ c))).
  rewrite IH. reflexivity.
Qed.

Lemma string_app_nil_r (a : string) : a +:+ "" = a.
Proof.
  induction a as [| ch a IH]; [reflexivity |].
  change (String ch (a +:+ "") = String ch a). rewrite IH. reflexivity.
Qed.

Lemma string_app_nil_l (a : string) : "" +:+ a = a.
Proof. reflexivity. Qed.

Lemma concat_strings_app (u v : list string) :
  fold_right String.append "" (u ++ v)
  = fold_right String.append "" u +:+ fold_right String.append "" v.
Proof.
  induction u as [| x u IH]; simpl; [reflexivity |].
  rewrite IH, string_app_assoc. reflexivity.
Qed.

Lemma seqZ_snoc (n : Z) : 0 <= n -> seqZ 0 (n + 1) = seqZ 0 n ++ [n].
Proof.
  intros Hn. pose proof (seqZ_S 0 (Z.to_nat n)) as E.
  rewrite Nat2Z.inj_succ, Z2Nat.id in E by assumption.
  exact E.
Qed.

Lemma os_text_put (os : ostream) (s : string) :
  os_width os = 0 -> os_text (os_put os s) = os_text os +:+ s.
Proof.
  intros Hw. unfold os_text, os_put. simpl. rewrite Hw.
  rewrite concat_strings_app. simpl.
  rewrite string_app_nil_r. reflexivity.
Qed.

Lemma os_text_manip (os : ostream) (m : manipulator) :
  os_text (os_manip os m) = os_text os.
Proof. destruct m; reflexivity. Qed.

(** A list of strings joined by single spaces, written cell by cell with
    the separator after every cell but the last. *)
Lemma join_cells (f : Z -> string) (len : nat) :
  forall start,
    fold_right String.append ""
      (map (fun j => f j +:+ (if j + 1 <? start + Z.of_nat len then " " else ""))
         (seqZ start (Z.of_nat len)))
    = String.concat " " (map f (seqZ start (Z.of_nat len))).
Proof.
  induction len as [| len IH]; intros start; [reflexivity |].
  rewrite seqZ_cons by lia.
  replace (Z.pred (Z.of_nat (S len))) with (Z.of_nat len) by lia.
  simpl map. simpl fold_right.
  specialize (IH (Z.succ start)).
  replace (Z.succ start + Z.of_nat len) with (start + Z.of_nat (S len)) in IH
    by lia.
  rewrite IH. destruct len as [| len].
  - destruct (Z.ltb_spec (start + 1) (start + Z.of_nat 1)); [lia |].
    simpl. rewrite !string_app_nil_r. reflexivity.
  - destruct (Z.ltb_spec (start + 1) (start + Z.of_nat (S (S len)))); [| lia].
    rewrite seqZ_cons by lia. simpl map.
    rewrite string_app_assoc. reflexivity.
Qed.

Section WriteFacts.
Context `{DoubleOps}.

Lemma cells_text_all fmt (rm : list double) cols i :
  0 <= cols ->
  cells_text fmt rm cols i cols +:+ nl = row_text fmt rm cols i.
Proof.
  intros Hc. unfold cells_text, row_text, cell_text. f_equal.
  pose proof (join_cells (fun j => fmt (entry rm (i * cols + j)))
                (Z.to_nat cols) 0) as E.
  rewrite Z2Nat.id, Z.add_0_l in E by assumption. exact E.
Qed.

Lemma write_cell ff (rm : list double) rows cols i j text out :
  is_count rows -> is_count cols ->
  Z.of_nat (length rm) = rows * cols ->
  in_grid rows cols i j ->
  writing ff text out ->
  exists out',
    (x ← vec_get rm (offset i cols j);
     let out := out << x in
     Some (if j + 1 <? cols then out << " " else out)) = Some out'
    /\ writing ff
         (text +:+ cell_text (ostream_fmt_double ff 17) rm cols i j) out'.
Proof.
  intros Hr Hc Hlen Hij (Htext & Hprec & Hff & Hw).
  destruct (grid_row_major rows cols i j Hr Hc Hij) as [Hoff Hk].
  rewrite Hoff.
  destruct (vec_get_in rm (i * cols + j)) as [x Hx]; [lia |].
  rewrite Hx. simpl. eexists. split; [reflexivity |].
  unfold cell_text, entry. rewrite Hx. simpl.
  unfold insertion, insert_double, insert_string.
  rewrite Hprec, Hff.
  destruct (j + 1 <? cols); unfold writing.
  - rewrite !os_text_put by (try reflexivity; assumption).
    rewrite Htext, string_app_assoc. simpl. auto.
  - rewrite os_text_put by assumption.
    rewrite Htext, string_app_nil_r. simpl. auto.
Qed.

Lemma write_row ff (rm : list double) rows cols i text out :
  is_count rows -> is_count cols ->
  Z.of_nat (length rm) = rows * cols ->
  0 <= i < rows ->
  writing ff text out ->
  exists out',
    (out ← for_int cols (fun j out =>
              x ← vec_get rm (offset i cols j);
              let out := out << x in
              Some (if j + 1 <? cols then out << " " else out)) out;
     Some (out << nl)) = Some out'
    /\ writing ff
         (text +:+ row_text (ostream_fmt_double ff 17) rm cols i) out'.
Proof.
  intros Hr Hc Hlen Hi Hout.
  destruct (for_int_inv
    (fun j out =>
       writing ff (text +:+ cells_text (ostream_fmt_double ff 17) rm cols i j)
         out)
    (fun j out =>
       x ← vec_get rm (offset i cols j);
       let out := out << x in
       Some (if j + 1 <? cols then out << " " else out))
    cols out) as (out1 & Hrun & Hout1).
  - apply Hc.
  - unfold cells_text. simpl. rewrite string_app_nil_r. exact Hout.
  - intros j t Hj Ht.
    destruct (write_cell ff rm rows cols i j _ t Hr Hc Hlen (conj Hi Hj) Ht)
      as (t' & Hcell & Ht').
    exists t'. split; [exact Hcell |].
    unfold cells_text. rewrite seqZ_snoc by lia.
    rewrite map_app, concat_strings_app. simpl.
    rewrite string_app_nil_r, <- string_app_assoc. exact Ht'.
  - rewrite Hrun. simpl. eexists. split; [reflexivity |].
    destruct Hout1 as (Htext & Hprec & Hff & Hw).
    unfold writing, insertion, insert_string.
    rewrite os_text_put by assumption. simpl.
    rewrite Htext, string_app_assoc, cells_text_all by apply Hc. auto.
Qed.

Lemma write_matrix_row_major_spec (out : ostream) (rm : list double)
  rows cols :
  is_count rows -> is_count cols ->
  Z.of_nat (length rm) = rows * cols ->
  os_width out = 0 ->
  exists out',
    write_matrix_row_major out rm rows cols = Some out'
    /\ writing (os_floatfield out)
         (os_text out
          +:+ matrix_text (ostream_fmt_double (os_floatfield out) 17)
                rm rows cols) out'.
Proof.
  intros Hr Hc Hlen Hw. unfold write_matrix_row_major.
  set (ff := os_floatfield out).
  set (fmt := ostream_fmt_double ff 17).
  set (head := to_string rows +:+ " " +:+ to_string cols +:+ nl).
  destruct (for_int_inv
    (fun i o => writing ff (os_text out +:+ head +:+ rows_text fmt rm cols i) o)
    (fun i out =>
       out ← for_int cols (fun j out =>
                x ← vec_get rm (offset i cols j);
                let out := out << x in
                Some (if j + 1 <? cols then out << " " else out)) out;
       Some (out << nl))
    rows (out << rows << " " << cols << nl << setprecision 17))
    as (out' & Hrun & Hout').
  - apply Hr.
  - unfold writing, insertion, insert_manip, insert_string, insert_int.
    split; [| split; [reflexivity | split; reflexivity]].
    rewrite os_text_manip, !os_text_put by first [assumption | reflexivity].
    unfold rows_text, head. simpl.
    rewrite string_app_nil_r, !string_app_assoc. reflexivity.
  - intros i t Hi Ht.
    destruct (write_row ff rm rows cols i _ t Hr Hc Hlen Hi Ht)
      as (t' & Hrow & Ht').
    exists t'. split; [exact Hrow |].
    unfold rows_text. rewrite seqZ_snoc by lia.
    rewrite map_app, concat_strings_app. simpl.
    rewrite string_app_nil_r, <- !string_app_assoc.
    rewrite <- !string_app_assoc in Ht'. exact Ht'.
  - exists out'. split; [exact Hrun |].
    unfold matrix_text. fold fmt. fold (rows_text fmt rm cols rows).
    unfold head in Hout'. rewrite !string_app_assoc in Hout'. exact Hout'.
Qed.

End WriteFacts.

(** ** The runs of the matrix product program, case by case *)

Section MainCases.
Context `{Lapack} `{Heap}.

Lemma catch_text (what : string) :
  os_text (os_open << "Error: " << what << nl) = error_line what.
Proof.
  unfold insertion, insert_string, error_line.
  rewrite !os_text_put by reflexivity. simpl.
  rewrite string_app_assoc. reflexivity.
Qed.

Lemma main_caught argv fs what w :
  main_try argv fs world_start = (Throw what, w) ->
  main argv fs =
    (Ok 2, {| w_fin := w_fin w;
              w_trace := w_trace w ++ [EvCerr (error_line what)] |}).
Proof. intros Hrun. unfold main. rewrite Hrun, catch_text. reflexivity. Qed.

Lemma main_no_input prog in_path out_path fs :
  fs_read fs in_path = None ->
  main [prog; in_path; out_path] fs =
    (Ok 2,
     {| w_fin := "";
        w_trace :=
          [EvOpenInput in_path;
           EvCerr (error_line ("No se pudo abrir el archivo de entrada: "
                               +:+ in_path))] |}).
Proof.
  intros Hread.
  rewrite (main_caught _ _
             ("No se pudo abrir el archivo de entrada: " +:+ in_path)
             {| w_fin := ""; w_trace := [EvOpenInput in_path] |});
    [reflexivity |].
  unfold main_try. cbn [length Nat.eqb negb nth].
  unfold io_bind at 1. unfold open_input. rewrite Hread. reflexivity.
Qed.

Lemma main_try_header prog in_path out_path fs text :
  fs_read fs in_path = Some text ->
  main_try [prog; in_path; out_path] fs world_start =
    match (header_scan text).1.1 with
    | Some (m, n, l) =>
        if (m <=? 0) || (n <=? 0) || (l <=? 0)
        then runtime_error dimensions_error
        else main_after_header m n l out_path fs
    | None => runtime_error dimensions_error
    end
      {| w_fin := (header_scan text).1.2;
         w_trace := reading_trace in_path (header_scan text).2 0 |}.
Proof.
  intros Hread.
  unfold main_try. cbn [length Nat.eqb negb nth].
  unfold io_bind at 1. unfold open_input. rewrite Hread. cbn [negb].
  unfold io_bind at 1. rewrite read_dimensions_eq.
  cbn [w_fin w_trace world_start]. unfold reading_trace.
  cbn [replicate app]. rewrite app_nil_r. reflexivity.
Qed.

Lemma ok_text m l :
  os_text (os_open << "OK: C = A*B con DGEMM. Dimensiones: (" << m << "x"
           << l << (")" +:+ nl))
  = ok_line m l.
Proof.
  unfold insertion, insert_string, insert_int, ok_line.
  rewrite !os_text_put by reflexivity. simpl.
  rewrite !string_app_assoc. reflexivity.
Qed.

Lemma after_header_accepted m n l out_path fs w A_rm B_rm s4 rest :
  0 < m <= INT_MAX -> 0 < n <= INT_MAX -> 0 < l <= INT_MAX ->
  vectors_created m n l ->
  get_doubles (Z.to_nat (m * n)) (w_fin w) = (A_rm, s4, true) ->
  get_doubles (Z.to_nat (n * l)) s4 = (B_rm, rest, true) ->
  exists A B C_rm,
    to_col_major A_rm m n = Ok A
    /\ to_col_major B_rm n l = Ok B
    /\ to_row_major (overwrite (gemm_c (product_call m n l A B))
                       (dgemm_ (product_call m n l A B))) m l = Ok C_rm
    /\ main_after_header m n l out_path fs w =
         (if fs_create fs out_path
          then Ok 0
          else Throw ("No se pudo abrir el archivo de salida: " +:+ out_path),
          {| w_fin := rest;
             w_trace :=
               w_trace w
               ++ replicate (Z.to_nat (m * n)) EvGetDouble
               ++ replicate (Z.to_nat (n * l)) EvGetDouble
               ++ [EvDgemm (product_call m n l A B); EvOpenOutput out_path]
               ++ (if fs_create fs out_path
                   then [EvWriteOutput out_path (output_text C_rm m l);
                         EvCout (ok_line m l)]
                   else []) |}).
Proof.
  intros Hm Hn Hl (HheapA & HheapB & HheapC) HA HB.
  assert (Cm : is_count m) by (unfold is_count; lia).
  assert (Cn : is_count n) by (unfold is_count; lia).
  assert (Cl : is_count l) by (unfold is_count; lia).
  pose proof (get_doubles_length _ _ _ _ HA) as LA.
  pose proof (get_doubles_length _ _ _ _ HB) as LB.
  destruct (to_col_major_spec A_rm m n Cm Cn) as (A & EA & LA' & _);
    [nia | exact HheapA |].
  destruct (to_col_major_spec B_rm n l Cn Cl) as (B & EB & LB' & _);
    [nia | exact HheapB |].
  set (call := product_call m n l A B).
  destruct (to_row_major_spec (overwrite (gemm_c call) (dgemm_ call)) m l Cm Cl)
    as (C_rm & EC & LC & _); [| exact HheapC |].
  { unfold overwrite. rewrite length_imap. simpl.
    rewrite extent_int by assumption. apply vec_new_length. nia. }
  destruct (write_matrix_row_major_spec os_open C_rm m l Cm Cl LC eq_refl)
    as (fout & EW & HW & _).
  exists A, B, C_rm. split; [exact EA |]. split; [exact EB |].
  split; [exact EC |].
  unfold main_after_header.
  unfold io_bind at 1.
  rewrite (read_matrix_row_major_ok m n "A" w A_rm s4 Cm Cn HheapA HA).
  unfold io_bind at 1.
  rewrite (read_matrix_row_major_ok n l "B" {| w_fin := s4 |} B_rm rest
             Cn Cl HheapB HB).
  cbn [w_fin w_trace].
  unfold io_bind at 1. rewrite EA. unfold io_call at 1.
  unfold io_bind at 1. rewrite EB. unfold io_call at 1.
  unfold io_bind at 1. rewrite (vec_create_ok _ _ HheapC).
  unfold io_call at 1.
  subst call. unfold product_call in *. cbn [gemm_c] in EC.
  unfold io_bind at 1. unfold call_dgemm at 1.
  unfold io_bind at 1, io_log at 1, io_ret at 1. cbv beta iota.
  cbn [gemm_c w_fin w_trace].
  unfold io_bind at 1. rewrite EC. unfold io_call at 1.
  unfold io_bind at 1. unfold open_output at 1.
  unfold io_bind at 1, io_log at 1, io_ret at 1. cbv beta iota.
  cbn [w_fin w_trace].
  destruct (fs_create fs out_path); cbn [negb].
  - unfold io_bind at 1. rewrite EW. unfold io_ub at 1.
    unfold io_bind, io_log, io_ret. cbn [w_fin w_trace].
    rewrite ok_text, HW. unfold output_text.
    rewrite <- !app_assoc. reflexivity.
  - unfold runtime_error. rewrite app_nil_r, <- !app_assoc. reflexivity.
Qed.

Lemma after_header_A_refused m n l out_path fs w what :
  vector_refused (extent m n) = Some what ->
  main_after_header m n l out_path fs w = (Throw what, w).
Proof.
  intros Hheap. unfold main_after_header. unfold io_bind at 1.
  rewrite (read_matrix_row_major_refused m n "A" w what Hheap). reflexivity.
Qed.

Lemma after_header_A_failed m n l out_path fs w vals r :
  0 < m <= INT_MAX -> 0 < n <= INT_MAX ->
  vector_refused (extent m n) = None ->
  get_doubles (Z.to_nat (m * n)) (w_fin w) = (vals, r, false) ->
  exists i j,
    in_grid m n i j
    /\ Z.of_nat (length vals) = i * n + j
    /\ main_after_header m n l out_path fs w =
         (Throw (read_error "A" i j),
          {| w_fin := istream_fail_double r;
             w_trace :=
               w_trace w ++ replicate (S (length vals)) EvGetDouble |}).
Proof.
  intros Hm Hn Hheap HA.
  assert (Cm : is_count m) by (unfold is_count; lia).
  assert (Cn : is_count n) by (unfold is_count; lia).
  destruct (read_matrix_row_major_failed m n "A" w vals r Cm Cn Hheap HA)
    as (i & j & Hij & Hlen & Hrun).
  exists i, j. split; [exact Hij |]. split; [exact Hlen |].
  unfold main_after_header. unfold io_bind at 1. rewrite Hrun. reflexivity.
Qed.

Lemma after_header_B_refused m n l out_path fs w A_rm s4 what :
  0 < m <= INT_MAX -> 0 < n <= INT_MAX ->
  vector_refused (extent m n) = None ->
  get_doubles (Z.to_nat (m * n)) (w_fin w) = (A_rm, s4, true) ->
  vector_refused (extent n l) = Some what ->
  main_after_header m n l out_path fs w =
    (Throw what,
     {| w_fin := s4;
        w_trace := w_trace w ++ replicate (Z.to_nat (m * n)) EvGetDouble |}).
Proof.
  intros Hm Hn HheapA HA HheapB.
  assert (Cm : is_count m) by (unfold is_count; lia).
  assert (Cn : is_count n) by (unfold is_count; lia).
  unfold main_after_header.
  unfold io_bind at 1.
  rewrite (read_matrix_row_major_ok m n "A" w A_rm s4 Cm Cn HheapA HA).
  unfold io_bind at 1.
  rewrite (read_matrix_row_major_refused n l "B" _ what HheapB). reflexivity.
Qed.

Lemma after_header_B_failed m n l out_path fs w A_rm s4 vals r :
  0 < m <= INT_MAX -> 0 < n <= INT_MAX -> 0 < l <= INT_MAX ->
  vector_refused (extent m n) = None ->
  vector_refused (extent n l) = None ->
  get_doubles (Z.to_nat (m * n)) (w_fin w) = (A_rm, s4, true) ->
  get_doubles (Z.to_nat (n * l)) s4 = (vals, r, false) ->
  exists i j,
    in_grid n l i j
    /\ Z.of_nat (length vals) = i * l + j
    /\ main_after_header m n l out_path fs w =
         (Throw (read_error "B" i j),
          {| w_fin := istream_fail_double r;
             w_trace :=
               w_trace w
               ++ replicate (Z.to_nat (m * n)) EvGetDouble
               ++ replicate (S (length vals)) EvGetDouble |}).
Proof.
  intros Hm Hn Hl HheapA HheapB HA HB.
  assert (Cm : is_count m) by (unfold is_count; lia).
  assert (Cn : is_count n) by (unfold is_count; lia).
  assert (Cl : is_count l) by (unfold is_count; lia).
  destruct (read_matrix_row_major_failed n l "B"
              {| w_fin := s4;
                 w_trace :=
                   w_trace w ++ replicate (Z.to_nat (m * n)) EvGetDouble |}
              vals r Cn Cl HheapB HB)
    as (i & j & Hij & Hlen & Hrun).
  exists i, j. split; [exact Hij |]. split; [exact Hlen |].
  unfold main_after_header.
  unfold io_bind at 1.
  rewrite (read_matrix_row_major_ok m n "A" w A_rm s4 Cm Cn HheapA HA).
  unfold io_bind at 1. rewrite Hrun. cbn [w_trace].
  rewrite <- app_assoc. reflexivity.
Qed.

Lemma after_header_C_refused m n l out_path fs w A_rm B_rm s4 rest what :
  0 < m <= INT_MAX -> 0 < n <= INT_MAX -> 0 < l <= INT_MAX ->
  vector_refused (extent m n) = None ->
  vector_refused (extent n l) = None ->
  get_doubles (Z.to_nat (m * n)) (w_fin w) = (A_rm, s4, true) ->
  get_doubles (Z.to_nat (n * l)) s4 = (B_rm, rest, true) ->
  vector_refused (extent m l) = Some what ->
  main_after_header m n l out_path fs w =
    (Throw what,
     {| w_fin := rest;
        w_trace :=
          w_trace w
          ++ replicate (Z.to_nat (m * n)) EvGetDouble
          ++ replicate (Z.to_nat (n * l)) EvGetDouble |}).
Proof.
  intros Hm Hn Hl HheapA HheapB HA HB HheapC.
  assert (Cm : is_count m) by (unfold is_count; lia).
  assert (Cn : is_count n) by (unfold is_count; lia).
  assert (Cl : is_count l) by (unfold is_count; lia).
  pose proof (get_doubles_length _ _ _ _ HA) as LA.
  pose proof (get_doubles_length _ _ _ _ HB) as LB.
  destruct (to_col_major_spec A_rm m n Cm Cn) as (A & EA & _);
    [nia | exact HheapA |].
  destruct (to_col_major_spec B_rm n l Cn Cl) as (B & EB & _);
    [nia | exact HheapB |].
  unfold main_after_header.
  unfold io_bind at 1.
  rewrite (read_matrix_row_major_ok m n "A" w A_rm s4 Cm Cn HheapA HA).
  unfold io_bind at 1.
  rewrite (read_matrix_row_major_ok n l "B" {| w_fin := s4 |} B_rm rest
             Cn Cl HheapB HB).
  cbn [w_fin w_trace].
  unfold io_bind at 1. rewrite EA. unfold io_call at 1.
  unfold io_bind at 1. rewrite EB. unfold io_call at 1.
  unfold io_bind at 1. rewrite (vec_create_refused _ _ what HheapC).
  unfold io_call at 1. rewrite <- app_assoc. reflexivity.
Qed.

End MainCases.

(** ** Whole runs *)

Lemma grid_position (i j cols pos : Z) :
  0 <= j < cols -> pos = i * cols + j -> pos / cols = i /\ pos mod cols = j.
Proof.
  intros Hj ->. split.
  - symmetry. apply (Z.div_unique _ _ i j); lia.
  - symmetry. apply (Z.mod_unique _ _ i j); lia.
Qed.

Section Runs.
Context `{Lapack} `{Heap}.

Lemma omap_replicate_None {X Y : Type} (f : X -> option Y) (x : X) (k : nat) :
  f x = None -> omap f (replicate k x) = [].
Proof.
  intros Hx. induction k as [| k IH]; [reflexivity |].
  simpl. rewrite Hx. exact IH.
Qed.

Lemma omap_replicate_Some {X Y : Type} (f : X -> option Y) (x : X) (y : Y)
  (k : nat) :
  f x = Some y -> omap f (replicate k x) = replicate k y.
Proof.
  intros Hx. induction k as [| k IH]; [reflexivity |].
  simpl. rewrite Hx. simpl. f_equal. exact IH.
Qed.

Lemma dgemm_calls_app (u v : list event) :
  dgemm_calls (u ++ v) = dgemm_calls u ++ dgemm_calls v.
Proof. apply omap_app. Qed.

Lemma outputs_opened_app (u v : list event) :
  outputs_opened (u ++ v) = outputs_opened u ++ outputs_opened v.
Proof. apply omap_app. Qed.

Lemma outputs_written_app (u v : list event) :
  outputs_written (u ++ v) = outputs_written u ++ outputs_written v.
Proof. apply omap_app. Qed.

Lemma cerr_texts_app (u v : list event) :
  cerr_texts (u ++ v) = cerr_texts u ++ cerr_texts v.
Proof. apply omap_app. Qed.

Lemma entries_read_app (u v : list event) :
  entries_read (u ++ v) = (entries_read u + entries_read v)%nat.
Proof. unfold entries_read. rewrite omap_app, length_app. reflexivity. Qed.

Lemma dgemm_calls_entries k : dgemm_calls (replicate k EvGetDouble) = [].
Proof. apply omap_replicate_None. reflexivity. Qed.

Lemma outputs_opened_entries k :
  outputs_opened (replicate k EvGetDouble) = [].
Proof. apply omap_replicate_None. reflexivity. Qed.

Lemma outputs_written_entries k :
  outputs_written (replicate k EvGetDouble) = [].
Proof. apply omap_replicate_None. reflexivity. Qed.

Lemma cerr_texts_entries k : cerr_texts (replicate k EvGetDouble) = [].
Proof. apply omap_replicate_None. reflexivity. Qed.

Lemma entries_read_entries k :
  entries_read (replicate k EvGetDouble) = k.
Proof.
  unfold entries_read.
  rewrite (omap_replicate_Some _ _ tt) by reflexivity.
  apply length_replicate.
Qed.

Lemma dgemm_calls_reading p a b : dgemm_calls (reading_trace p a b) = [].
Proof.
  unfold reading_trace. rewrite !dgemm_calls_app, dgemm_calls_entries.
  unfold dgemm_calls at 2. rewrite omap_replicate_None by reflexivity.
  reflexivity.
Qed.

Lemma outputs_opened_reading p a b :
  outputs_opened (reading_trace p a b) = [].
Proof.
  unfold reading_trace. rewrite !outputs_opened_app, outputs_opened_entries.
  unfold outputs_opened at 2. rewrite omap_replicate_None by reflexivity.
  reflexivity.
Qed.

Lemma outputs_written_reading p a b :
  outputs_written (reading_trace p a b) = [].
Proof.
  unfold reading_trace. rewrite !outputs_written_app, outputs_written_entries.
  unfold outputs_written at 2. rewrite omap_replicate_None by reflexivity.
  reflexivity.
Qed.

Lemma cerr_texts_reading p a b : cerr_texts (reading_trace p a b) = [].
Proof.
  unfold reading_trace. rewrite !cerr_texts_app, cerr_texts_entries.
  unfold cerr_texts at 2. rewrite omap_replicate_None by reflexivity.
  reflexivity.
Qed.

Lemma entries_read_reading p a b : entries_read (reading_trace p a b) = b.
Proof.
  unfold reading_trace. rewrite !entries_read_app, entries_read_entries.
  unfold entries_read at 2. rewrite omap_replicate_None by reflexivity.
  reflexivity.
Qed.

Lemma main_handled argv fs :
  main argv fs = handled (main_try argv fs world_start).
Proof.
  unfold main, handled.
  destruct (main_try argv fs world_start) as [[z | what |] w];
    [reflexivity | | reflexivity].
  rewrite catch_text. reflexivity.
Qed.

Lemma main_usage argv fs :
  length argv <> 3%nat ->
  main argv fs =
    (Ok 1, {| w_fin := ""; w_trace := [EvCerr (usage_line (nth 0 argv ""))] |}).
Proof.
  intros Hlen. rewrite main_handled. unfold main_try.
  destruct (Nat.eqb_spec (length argv) 3) as [E | _]; [contradiction |].
  cbn [negb]. unfold io_bind, io_log, io_ret, world_start, handled.
  cbn [w_fin w_trace app].
  assert (E : os_text (os_open << "Uso: " << nth 0 argv ""
                       << (" <input.txt> <output.txt>" +:+ nl))
              = usage_line (nth 0 argv "")).
  { unfold insertion, insert_string, usage_line.
    rewrite !os_text_put by reflexivity. simpl.
    rewrite !string_app_assoc. reflexivity. }
  rewrite E. reflexivity.
Qed.

Lemma main_header_rejected prog in_path out_path fs text :
  fs_read fs in_path = Some text ->
  header_rejected text ->
  main [prog; in_path; out_path] fs =
    (Ok 2,
     {| w_fin := (header_scan text).1.2;
        w_trace :=
          reading_trace in_path (header_scan text).2 0
          ++ [EvCerr (error_line dimensions_error)] |}).
Proof.
  intros Hread Hrej. rewrite main_handled.
  rewrite (main_try_header prog in_path out_path fs text Hread).
  unfold header_rejected in Hrej.
  destruct (header_scan text).1.1 as [[[m n] l] |]; [| reflexivity].
  replace ((m <=? 0) || (n <=? 0) || (l <=? 0)) with true; [reflexivity |].
  symmetry. rewrite !orb_true_iff, !Z.leb_le. tauto.
Qed.

Lemma main_header_valid prog in_path out_path fs text m n l s3 k :
  fs_read fs in_path = Some text ->
  header_scan text = (Some (m, n, l), s3, k) ->
  0 < m -> 0 < n -> 0 < l ->
  main [prog; in_path; out_path] fs =
    handled (main_after_header m n l out_path fs
               {| w_fin := s3; w_trace := reading_trace in_path 3 0 |}).
Proof.
  intros Hread Hscan Hm Hn Hl. rewrite main_handled.
  rewrite (main_try_header prog in_path out_path fs text Hread).
  destruct (header_scan_range _ _ _ _ _ _ Hscan) as (_ & _ & _ & ->).
  rewrite Hscan. cbn [fst snd].
  replace ((m <=? 0) || (n <=? 0) || (l <=? 0)) with false; [reflexivity |].
  symmetry. rewrite !orb_false_iff, !Z.leb_gt. tauto.
Qed.

Lemma reading_trace_more p a b c (tail : list event) :
  reading_trace p a b ++ replicate c EvGetDouble ++ tail
  = reading_trace p a (b + c) ++ tail.
Proof.
  unfold reading_trace. rewrite replicate_add, <- !app_assoc. reflexivity.
Qed.

Lemma main_product prog in_path out_path fs text m n l A_rm B_rm rest :
  fs_read fs in_path = Some text ->
  parses_as text m n l A_rm B_rm rest ->
  vectors_created m n l ->
  exists A B C_rm,
    to_col_major A_rm m n = Ok A
    /\ to_col_major B_rm n l = Ok B
    /\ to_row_major (overwrite (gemm_c (product_call m n l A B))
                       (dgemm_ (product_call m n l A B))) m l = Ok C_rm
    /\ main [prog; in_path; out_path] fs =
         (if fs_create fs out_path then Ok 0 else Ok 2,
          {| w_fin := rest;
             w_trace :=
               reading_trace in_path 3 (Z.to_nat (m * n) + Z.to_nat (n * l))
               ++ [EvDgemm (product_call m n l A B); EvOpenOutput out_path]
               ++ (if fs_create fs out_path
                   then [EvWriteOutput out_path (output_text C_rm m l);
                         EvCout (ok_line m l)]
                   else [EvCerr (error_line
                                   ("No se pudo abrir el archivo de salida: "
                                    +:+ out_path))]) |}).
Proof.
  intros Hread (s3 & s4 & Hscan & Hm & Hn & Hl & HA & HB) Hheap.
  destruct (header_scan_range _ _ _ _ _ _ Hscan) as (Hm' & Hn' & Hl' & _).
  destruct (after_header_accepted m n l out_path fs
              {| w_fin := s3; w_trace := reading_trace in_path 3 0 |}
              A_rm B_rm s4 rest) as (A & B & C_rm & EA & EB & EC & Hrun);
    [lia | lia | lia | exact Hheap | exact HA | exact HB |].
  exists A, B, C_rm. split; [exact EA |]. split; [exact EB |].
  split; [exact EC |].
  rewrite (main_header_valid prog in_path out_path fs text m n l s3 3
             Hread Hscan Hm Hn Hl).
  rewrite Hrun. cbn [w_trace]. rewrite !reading_trace_more.
  destruct (fs_create fs out_path); unfold handled; cbn [w_fin w_trace].
  - reflexivity.
  - rewrite app_nil_r, <- !app_assoc. reflexivity.
Qed.

Lemma main_bad_entry prog in_path out_path fs text name cols pos :
  fs_read fs in_path = Some text ->
  first_bad_entry text name cols pos ->
  matrix_created text name ->
  exists rest count,
    main [prog; in_path; out_path] fs =
      (Ok 2,
       {| w_fin := rest;
          w_trace :=
            reading_trace in_path 3 count
            ++ [EvCerr (error_line (read_error name (Z.of_nat pos / cols)
                                      (Z.of_nat pos mod cols)))] |}).
Proof.
  intros Hread (m & n & l & s3 & k & vals & r & Hscan & Hm & Hn & Hl & Hpos
                & Hbad) Hheap.
  destruct (header_scan_range _ _ _ _ _ _ Hscan) as (Hm' & Hn' & Hl' & _).
  destruct (Hheap m n l s3 k Hscan) as [HheapA HheapB].
  rewrite (main_header_valid prog in_path out_path fs text m n l s3 k
             Hread Hscan Hm Hn Hl).
  destruct Hbad as [(-> & -> & HA) | (-> & -> & A_rm & s4 & HA & HB)].
  - destruct (after_header_A_failed m n l out_path fs
                {| w_fin := s3; w_trace := reading_trace in_path 3 0 |}
                vals r) as (i & j & Hij & Hlen & Hrun);
      [lia | lia | exact HheapA | exact HA |].
    rewrite Hrun. unfold handled. cbn [w_fin w_trace].
    destruct (grid_position i j n (Z.of_nat pos)) as [-> ->];
      [apply Hij | lia |].
    exists (istream_fail_double r), (0 + S (length vals))%nat.
    rewrite <- reading_trace_more, <- app_assoc. reflexivity.
  - destruct (after_header_B_failed m n l out_path fs
                {| w_fin := s3; w_trace := reading_trace in_path 3 0 |}
                A_rm s4 vals r) as (i & j & Hij & Hlen & Hrun);
      [lia | lia | lia | exact HheapA | exact (HheapB eq_refl) | exact HA
      | exact HB |].
    rewrite Hrun. unfold handled. cbn [w_fin w_trace].
    destruct (grid_position i j l (Z.of_nat pos)) as [-> ->];
      [apply Hij | lia |].
    exists (istream_fail_double r),
      (0 + Z.to_nat (m * n) + S (length vals))%nat.
    rewrite <- !reading_trace_more, <- !app_assoc. reflexivity.
Qed.

Lemma main_refused prog in_path out_path fs text what count rest :
  fs_read fs in_path = Some text ->
  first_refusal text what count rest ->
  main [prog; in_path; out_path] fs =
    (Ok 2,
     {| w_fin := rest;
        w_trace :=
          reading_trace in_path 3 count ++ [EvCerr (error_line what)] |}).
Proof.
  intros Hread (m & n & l & s3 & Hscan & Hm & Hn & Hl & Hcase).
  destruct (header_scan_range _ _ _ _ _ _ Hscan) as (Hm' & Hn' & Hl' & _).
  rewrite (main_header_valid prog in_path out_path fs text m n l s3 3
             Hread Hscan Hm Hn Hl).
  destruct Hcase
    as [(HheapA & -> & ->)
       | (HheapA & A_rm & s4 & HA
          & [(HheapB & -> & ->) | (HheapB & HheapC & -> & B_rm & HB)])].
  - rewrite (after_header_A_refused m n l out_path fs _ what HheapA).
    reflexivity.
  - rewrite (after_header_B_refused m n l out_path fs
               {| w_fin := s3; w_trace := reading_trace in_path 3 0 |}
               A_rm s4 what) by (lia || assumption).
    unfold handled. cbn [w_fin w_trace].
    rewrite <- app_assoc, reading_trace_more. reflexivity.
  - rewrite (after_header_C_refused m n l out_path fs
               {| w_fin := s3; w_trace := reading_trace in_path 3 0 |}
               A_rm B_rm s4 rest what) by (lia || assumption).
    unfold handled. cbn [w_fin w_trace].
    rewrite <- !app_assoc, !reading_trace_more. reflexivity.
Qed.

Lemma main_cases argv fs : run_case argv fs (main argv fs).
Proof.
  destruct (decide (length argv = 3%nat)) as [Hlen | Hlen];
    [| rewrite main_usage by exact Hlen; apply RunUsage; exact Hlen].
  destruct argv as [| prog [| in_path [| out_path [| extra argv]]]];
    try discriminate Hlen.
  destruct (fs_read fs in_path) as [text |] eqn:Hread;
    [| rewrite main_no_input by exact Hread;
       eapply RunNoInput; [reflexivity | exact Hread]].
  destruct (header_scan text) as [[[[[m n] l] |] s3] k] eqn:Hscan.
  - destruct (decide (0 < m /\ 0 < n /\ 0 < l)) as [(Hm & Hn & Hl) | Hneg].
    + destruct (header_scan_range _ _ _ _ _ _ Hscan) as (_ & _ & _ & ->).
      assert (Hrefusal :
        forall what count rest,
          first_refusal text what count rest ->
          run_case [prog; in_path; out_path] fs
            (main [prog; in_path; out_path] fs)).
      { intros what count rest Hrefused.
        rewrite (main_refused prog in_path out_path fs text what count rest
                   Hread Hrefused).
        eapply RunNoVector; [reflexivity | exact Hread | exact Hrefused]. }
      destruct (vector_refused (extent m n)) as [what |] eqn:HheapA.
      { apply (Hrefusal what 0%nat s3).
        exists m, n, l, s3. auto 10. }
      destruct (get_doubles (Z.to_nat (m * n)) s3) as [[A_rm s4] okA] eqn:HA.
      destruct okA.
      * destruct (vector_refused (extent n l)) as [what |] eqn:HheapB.
        { apply (Hrefusal what (Z.to_nat (m * n)) s4).
          exists m, n, l, s3.
          repeat (split; [assumption |]).
          right. split; [assumption |]. exists A_rm, s4.
          split; [assumption |]. left. auto. }
        destruct (get_doubles (Z.to_nat (n * l)) s4) as [[B_rm rest] okB]
          eqn:HB.
        destruct okB.
        -- destruct (vector_refused (extent m l)) as [what |] eqn:HheapC.
           { apply (Hrefusal what (Z.to_nat (m * n) + Z.to_nat (n * l))%nat
                      rest).
             exists m, n, l, s3.
             repeat (split; [assumption |]).
             right. split; [assumption |]. exists A_rm, s4.
             split; [assumption |]. right.
             split; [assumption |]. split; [assumption |].
             split; [reflexivity |]. exists B_rm. assumption. }
           assert (Hparse : parses_as text m n l A_rm B_rm rest).
           { exists s3, s4. auto 10. }
           assert (Hheap : vectors_created m n l).
           { unfold vectors_created. auto. }
           destruct (main_product prog in_path out_path fs text m n l
                       A_rm B_rm rest Hread Hparse Hheap)
             as (A & B & C_rm & EA & EB & EC & ->).
           eapply RunProduct; try eassumption. reflexivity.
        -- assert (Hbad : first_bad_entry text "B" l (length B_rm)).
           { exists m, n, l, s3, 3%nat, B_rm, rest.
             repeat (split; [assumption || reflexivity |]).
             right. split; [reflexivity |]. split; [reflexivity |].
             exists A_rm, s4. auto. }
           assert (Hheap : matrix_created text "B").
           { intros m' n' l' s3' k' Hscan'. rewrite Hscan in Hscan'.
             injection Hscan' as <- <- <- <- <-. auto. }
           destruct (main_bad_entry prog in_path out_path fs text _ _ _
                       Hread Hbad Hheap) as (r & count & ->).
           eapply RunBadEntry; try eassumption. reflexivity.
      * assert (Hbad : first_bad_entry text "A" n (length A_rm)).
        { exists m, n, l, s3, 3%nat, A_rm, s4.
          repeat (split; [assumption || reflexivity |]).
          left. auto. }
        assert (Hheap : matrix_created text "A").
        { intros m' n' l' s3' k' Hscan'. rewrite Hscan in Hscan'.
          injection Hscan' as <- <- <- <- <-.
          split; [assumption | discriminate]. }
        destruct (main_bad_entry prog in_path out_path fs text _ _ _
                    Hread Hbad Hheap) as (r & count & ->).
        eapply RunBadEntry; try eassumption. reflexivity.
    + assert (Hrej : header_rejected text).
      { unfold header_rejected. rewrite Hscan. simpl. lia. }
      rewrite (main_header_rejected prog in_path out_path fs text Hread Hrej).
      eapply RunBadHeader; [reflexivity | exact Hread | exact Hrej].
  - assert (Hrej : header_rejected text).
    { unfold header_rejected. rewrite Hscan. exact I. }
    rewrite (main_header_rejected prog in_path out_path fs text Hread Hrej).
    eapply RunBadHeader; [reflexivity | exact Hread | exact Hrej].
Qed.

End Runs.

Create Rewrite HintDb trace.

#[local] Hint Rewrite
  @dgemm_calls_app @outputs_opened_app @outputs_written_app @cerr_texts_app
  @entries_read_app
  @dgemm_calls_entries @outputs_opened_entries @outputs_written_entries
  @cerr_texts_entries @entries_read_entries
  @dgemm_calls_reading @outputs_opened_reading @outputs_written_reading
  @cerr_texts_reading @entries_read_reading : trace.

(** ** Rejected inputs *)

(** C5.  When one of the three leading dimensions m, n, l is missing, is
    not an integer or is not positive, the run ends with status 2 and the
    message about invalid dimensions on the error stream, and it has not
    tried to read any matrix entry (nor called DGEMM, nor opened the output
    file). *)
Theorem invalid_dimensions_rejected `{Lapack} `{Heap} prog in_path out_path fs
  text :
  fs_read fs in_path = Some text ->
  header_rejected text ->
  exists w,
    main [prog; in_path; out_path] fs = (Ok 2, w)
    /\ cerr_texts (w_trace w) = [error_line dimensions_error]
    /\ entries_read (w_trace w) = 0%nat
    /\ dgemm_calls (w_trace w) = []
    /\ outputs_opened (w_trace w) = [].
Proof.
  intros Hread Hrej.
  rewrite (main_header_rejected prog in_path out_path fs text Hread Hrej).
  eexists. split; [reflexivity |]. cbn [w_trace].
  autorewrite with trace. repeat split; reflexivity.
Qed.

Lemma invalid_dimensions_rejected_witness :
  exists w,
    main (H0 := Exact.ZLapack 0) ["matmul"; "in.txt"; "out.txt"]
      (Exact.one_file "in.txt" "0 3 2 1 2 3")
    = (Ok 2, w)
    /\ cerr_texts (w_trace w) = [error_line dimensions_error]
    /\ entries_read (w_trace w) = 0%nat
    /\ dgemm_calls (w_trace w) = []
    /\ outputs_opened (w_trace w) = [].
Proof.
  apply (invalid_dimensions_rejected (H0 := Exact.ZLapack 0)
           "matmul" "in.txt" "out.txt" _ "0 3 2 1 2 3").
  - reflexivity.
  - vm_compute. left. discriminate.
Defined.



Lemma get_doubles_failed_more `{DoubleOps} (k n : nat) (s : string)
  (vals : list double) (r : string) :
  (k <= n)%nat ->
  get_doubles k s = (vals, r, false) -> get_doubles n s = (vals, r, false).
Proof.
  revert n s vals r.
  induction k as [| k IH]; intros n s vals r Hle Hk; [discriminate Hk |].
  destruct n as [| n]; [lia |]. simpl in *.
  destruct (istream_get_double s) as [[x r0] |]; [| exact Hk].
  destruct (get_doubles k r0) as [[xs r'] ok] eqn:E.
  injection Hk as <- <- ->.
  rewrite (IH n r0 xs r' ltac:(lia) E). reflexivity.
Qed.

(** With the heap of libstdc++ a header of large dimensions ends the run
    in the same way before any entry is read: the vector of A would hold
    more than [max_size()] values, and the message is that of the
    [std::length_error] of the constructor. *)
Example huge_header_refused :
  first_bad_entry (H := Exact.ZDouble) "2147483647 2147483647 1 1 1" "A"
    2147483647 2
  /\ main (H0 := Exact.ZLapack 0) (H1 := libstdcxx_heap (2 ^ 32))
       ["matmul"; "in.txt"; "out.txt"]
       (Exact.one_file "in.txt" "2147483647 2147483647 1 1 1")
     = (Ok 2,
        {| w_fin := " 1 1";
           w_trace :=
             reading_trace "in.txt" 3 0
             ++ [EvCerr
                   (error_line
                      "cannot create std::vector larger than max_size()")] |}).
Proof.
  split.
  - exists 2147483647, 2147483647, 1, " 1 1", 3%nat, [1; 1], "".
    split; [reflexivity |].
    split; [lia |]. split; [lia |]. split; [lia |].
    split; [reflexivity |].
    left. split; [reflexivity |]. split; [reflexivity |].
    apply (get_doubles_failed_more 3); [lia | reflexivity].
  - apply main_refused with (text := "2147483647 2147483647 1 1 1").
    + reflexivity.
    + exists 2147483647, 2147483647, 1, " 1 1".
      split; [reflexivity |].
      split; [lia |]. split; [lia |]. split; [lia |].
      left. split; [reflexivity |]. split; reflexivity.
Qed.

(** ** The product *)

Section Product.
Context `{Lapack} `{Heap}.

Lemma entry_get (v : list double) (k : Z) (x : double) :
  vec_get v k = Some x -> entry v k = x.
Proof. intros E. unfold entry. rewrite E. reflexivity. Qed.

Lemma entry_eq (u v : list double) (a b : Z) :
  vec_get u a = vec_get v b -> entry u a = entry v b.
Proof. intros E. unfold entry. rewrite E. reflexivity. Qed.

Lemma entry_overwrite (buf : list double) (f : Z -> double) (k : Z) :
  0 <= k < Z.of_nat (length buf) -> entry (overwrite buf f) k = f k.
Proof.
  intros Hk. unfold entry, vec_get, overwrite.
  destruct (Z.leb_spec 0 k); [| lia].
  rewrite list_lookup_imap.
  destruct (lookup_lt_is_Some_2 buf (Z.to_nat k)) as [x ->]; [lia |].
  simpl. rewrite Z2Nat.id by lia. reflexivity.
Qed.

Lemma fold_left_agree {X Y : Type} (F G : Y -> X -> Y) (xs : list X) :
  (forall x, In x xs -> forall a, F a x = G a x) ->
  forall a, fold_left F xs a = fold_left G xs a.
Proof.
  induction xs as [| x xs IH]; intros Hagree a; [reflexivity |].
  simpl. rewrite (Hagree x) by (left; reflexivity).
  apply IH. intros y Hy. apply Hagree. right. exact Hy.
Qed.

Lemma dot_ext (n : Z) (f f' g g' : Z -> double) :
  (forall k, 0 <= k < n -> f k = f' k /\ g k = g' k) ->
  dot n f g = dot n f' g'.
Proof.
  intros Hagree. unfold dot. apply fold_left_agree.
  intros k Hk a. apply list_elem_of_In, elem_of_seqZ in Hk.
  destruct (Hagree k) as [-> ->]; [lia | reflexivity].
Qed.

Lemma dot_step (n : Z) (f g : Z -> double) :
  0 <= n -> dot (n + 1) f g = dadd (dot n f g) (dmul (f n) (g n)).
Proof.
  intros Hn. unfold dot. rewrite seqZ_snoc by assumption.
  rewrite fold_left_app. reflexivity.
Qed.

(** The entries of the product of the run, from the contract of DGEMM. *)
Lemma product_entries (close : double -> double -> Prop) m n l
  (A_rm B_rm A B C_rm : list double) :
  dgemm_contract close ->
  0 < m <= INT_MAX -> 0 < n <= INT_MAX -> 0 < l <= INT_MAX ->
  Z.of_nat (length A_rm) = m * n ->
  Z.of_nat (length B_rm) = n * l ->
  vectors_created m n l ->
  to_col_major A_rm m n = Ok A ->
  to_col_major B_rm n l = Ok B ->
  to_row_major (overwrite (gemm_c (product_call m n l A B))
                  (dgemm_ (product_call m n l A B))) m l = Ok C_rm ->
  Z.of_nat (length C_rm) = m * l
  /\ forall i j, in_grid m l i j ->
       close (entry C_rm (i * l + j))
         (dot n (fun k => entry A_rm (i * n + k))
            (fun k => entry B_rm (k * l + j))).
Proof.
  intros Hcontract Hm Hn Hl LA LB (HheapA & HheapB & HheapC) EA EB EC.
  assert (Cm : is_count m) by (unfold is_count; lia).
  assert (Cn : is_count n) by (unfold is_count; lia).
  assert (Cl : is_count l) by (unfold is_count; lia).
  destruct (to_col_major_spec A_rm m n Cm Cn LA HheapA)
    as (A' & EA' & LA' & GA).
  rewrite EA in EA'. injection EA' as <-.
  destruct (to_col_major_spec B_rm n l Cn Cl LB HheapB)
    as (B' & EB' & LB' & GB).
  rewrite EB in EB'. injection EB' as <-.
  set (call := product_call m n l A B) in *.
  assert (LC0 : Z.of_nat (length (gemm_c call)) = m * l).
  { simpl. rewrite extent_int by assumption. apply vec_new_length. nia. }
  destruct (to_row_major_spec (overwrite (gemm_c call) (dgemm_ call)) m l
              Cm Cl) as (C' & EC' & LC & GC); [| exact HheapC |].
  { unfold overwrite. rewrite length_imap. exact LC0. }
  rewrite EC in EC'. injection EC' as <-.
  split; [exact LC |].
  intros i j Hij. pose proof Hij as [Hi Hj].
  rewrite (entry_eq _ _ _ _ (GC i j Hij)).
  rewrite entry_overwrite by nia.
  replace (j * m + i) with (i + j * gemm_ldc call) by (simpl; lia).
  rewrite (dot_ext n (fun k => entry A_rm (i * n + k))
             (fun p => entry (gemm_a call) (i + p * gemm_lda call))
             (fun k => entry B_rm (k * l + j))
             (fun p => entry (gemm_b call) (p + j * gemm_ldb call))).
  - simpl in LC0.
    apply Hcontract; simpl; first [reflexivity | exact Hij | lia].
  - intros k Hk. simpl. split.
    + symmetry. replace (i + k * m) with (k * m + i) by lia.
      apply entry_eq, GA. split; lia.
    + symmetry. replace (k + j * n) with (j * n + k) by lia.
      apply entry_eq, GB. split; lia.
Qed.

End Product.

(** C1.  Provided DGEMM keeps its accuracy contract, for every m x n matrix
    A and n x l matrix B read from the input the program calls DGEMM once,
    with no transposition of either operand, alpha = 1 and beta = 0, and
    the row-major matrix C it writes to the output file satisfies, for every
    (i, j), that C[i][j] is within the rounding tolerance of
    sum_k A[i][k] * B[k][j]. *)
Theorem product_written `{Lapack} (close : double -> double -> Prop)
  prog in_path out_path fs text m n l A_rm B_rm rest :
  dgemm_contract close ->
  fs_read fs in_path = Some text ->
  fs_create fs out_path = true ->
  parses_as text m n l A_rm B_rm rest ->
  exists w call C_rm,
    main [prog; in_path; out_path] fs = (Ok 0, w)
    /\ dgemm_calls (w_trace w) = [call]
    /\ gemm_transa call = "N"%char /\ gemm_transb call = "N"%char
    /\ gemm_alpha call = d_one /\ gemm_beta call = d_zero
    /\ outputs_written (w_trace w) = [(out_path, output_text C_rm m l)]
    /\ Z.of_nat (length C_rm) = m * l
    /\ forall i j, in_grid m l i j ->
         close (entry C_rm (i * l + j))
           (dot n (fun k => entry A_rm (i * n + k))
              (fun k => entry B_rm (k * l + j))).
Proof.
  intros Hcontract Hread Hcreate Hparse.
  assert (Hheap : vectors_created m n l) by (repeat split; reflexivity).
  destruct (main_product prog in_path out_path fs text m n l A_rm B_rm rest
              Hread Hparse Hheap) as (A & B & C_rm & EA & EB & EC & Hrun).
  rewrite Hcreate in Hrun.
  destruct Hparse as (s3 & s4 & Hscan & Hm & Hn & Hl & HA & HB).
  destruct (header_scan_range _ _ _ _ _ _ Hscan) as (Hm' & Hn' & Hl' & _).
  pose proof (get_doubles_length _ _ _ _ HA) as LA.
  pose proof (get_doubles_length _ _ _ _ HB) as LB.
  destruct (product_entries close m n l A_rm B_rm A B C_rm Hcontract)
    as [LC Hentries]; try assumption; try lia; try nia.
  exists {| w_fin := rest;
            w_trace :=
              reading_trace in_path 3 (Z.to_nat (m * n) + Z.to_nat (n * l))
              ++ [EvDgemm (product_call m n l A B); EvOpenOutput out_path]
              ++ [EvWriteOutput out_path (output_text C_rm m l);
                  EvCout (ok_line m l)] |},
    (product_call m n l A B), C_rm.
  split; [exact Hrun |]. cbn [w_trace].
  autorewrite with trace.
  repeat (split; [reflexivity |]).
  split; [exact LC | exact Hentries].
Qed.

(** The reference DGEMM of the exact instance keeps the contract with
    equality as the tolerance. *)
Lemma ref_dgemm_contract (info : Z) :
  dgemm_contract (H0 := Exact.ZLapack info) eq.
Proof.
  intros c i j _ _ Halpha Hbeta Hm Hk Hldc _ _ _ [Hi Hj].
  change (dgemm_ c (i + j * gemm_ldc c))
    with (Exact.ref_dgemm c (i + j * gemm_ldc c)).
  unfold Exact.ref_dgemm.
  assert (Ei : (i + j * gemm_ldc c) mod gemm_ldc c = i).
  { rewrite Z.mod_add by lia. apply Z.mod_small. lia. }
  assert (Ej : (i + j * gemm_ldc c) / gemm_ldc c = j).
  { rewrite Z.div_add by lia. rewrite Z.div_small by lia. lia. }
  rewrite Ei, Ej.
  destruct (Z.ltb_spec i (gemm_m c)); [| lia].
  destruct (Z.ltb_spec j (gemm_n c)); [| lia].
  rewrite Halpha, Hbeta. cbn [andb].
  change (@d_one Exact.ZDouble) with 1.
  change (@d_zero Exact.ZDouble) with 0.
  lia.
Qed.

Lemma product_written_witness :
  exists w call C_rm,
    main (H0 := Exact.ZLapack 0) ["matmul"; "in.txt"; "out.txt"]
      (Exact.one_file "in.txt" Exact.sample_input)
    = (Ok 0, w)
    /\ dgemm_calls (w_trace w) = [call]
    /\ gemm_transa call = "N"%char /\ gemm_transb call = "N"%char
    /\ gemm_alpha call = d_one /\ gemm_beta call = d_zero
    /\ outputs_written (w_trace w) = [("out.txt", output_text C_rm 2 2)]
    /\ Z.of_nat (length C_rm) = 2 * 2
    /\ forall i j, in_grid 2 2 i j ->
         entry C_rm (i * 2 + j)
         = dot (H := Exact.ZDouble) 3
             (fun k => entry (H := Exact.ZDouble) [1; 2; 3; 1; 1; 1] (i * 3 + k))
             (fun k => entry (H := Exact.ZDouble) [2; 3; 3; 4; 5; 6] (k * 2 + j)).
Proof.
  apply (product_written (H0 := Exact.ZLapack 0) eq
           "matmul" "in.txt" "out.txt" _ Exact.sample_input 2 3 2
           [1; 2; 3; 1; 1; 1] [2; 3; 3; 4; 5; 6] nl).
  - apply ref_dgemm_contract.
  - reflexivity.
  - reflexivity.
  - exists (String.substring 5 31 Exact.sample_input),
      (String.substring 17 19 Exact.sample_input).
    split; [vm_compute; reflexivity |].
    split; [lia |]. split; [lia |]. split; [lia |].
    split; vm_compute; reflexivity.
Defined.

(** ** Multiplying by the identity *)

Section Identity.
Context `{Lapack}.
Variables (close same : double -> double -> Prop).
Variables (finite is_zero : double -> Prop).
Hypothesis laws : identity_laws close same finite is_zero.

Lemma dot_delta (f : Z -> double) (j : Z) (count : nat) :
  (forall k, 0 <= k < Z.of_nat count -> finite (f k)) ->
  if (0 <=? j) && (j <? Z.of_nat count)
  then same (dot (Z.of_nat count) f
               (fun k => if k =? j then d_one else d_zero)) (f j)
  else is_zero (dot (Z.of_nat count) f
                  (fun k => if k =? j then d_one else d_zero)).
Proof using laws.
  induction count as [| count IH]; intros Hfinite.
  - replace ((0 <=? j) && (j <? Z.of_nat 0)) with false.
    + apply (zero_is_zero _ _ _ _ laws).
    + symmetry. apply andb_false_iff. rewrite Z.leb_gt, Z.ltb_ge. simpl. lia.
  - assert (Hlast : finite (f (Z.of_nat count))) by (apply Hfinite; lia).
    assert (IH' := IH ltac:(intros k Hk; apply Hfinite; lia)).
    rewrite Nat2Z.inj_succ, <- Z.add_1_r, dot_step by lia.
    destruct (Z.eqb_spec (Z.of_nat count) j) as [<- | Hne].
    + rewrite Z.ltb_irrefl, andb_false_r in IH'.
      destruct (Z.leb_spec 0 (Z.of_nat count)); [| lia].
      destruct (Z.ltb_spec (Z.of_nat count) (Z.of_nat count + 1)); [| lia].
      cbn [andb].
      rewrite (mul_one _ _ _ _ laws) by exact Hlast.
      apply (zero_add _ _ _ _ laws); assumption.
    + pose proof (mul_zero _ _ _ _ laws _ Hlast) as Hterm.
      destruct (Z.leb_spec 0 j); cbn [andb] in *.
      * destruct (Z.ltb_spec j (Z.of_nat count)),
          (Z.ltb_spec j (Z.of_nat count + 1)); try lia.
        -- apply (add_zero _ _ _ _ laws); assumption.
        -- apply (zero_add_zero _ _ _ _ laws); assumption.
      * apply (zero_add_zero _ _ _ _ laws); assumption.
Qed.

Lemma row_times_identity (A_rm B_rm : list double) (n i j : Z) :
  is_identity B_rm n -> 0 <= j < n ->
  (forall k, 0 <= k < n -> finite (entry A_rm (i * n + k))) ->
  same (dot n (fun k => entry A_rm (i * n + k))
          (fun k => entry B_rm (k * n + j)))
    (entry A_rm (i * n + j)).
Proof using laws.
  intros Hid Hj Hfinite.
  rewrite (dot_ext n _ (fun k => entry A_rm (i * n + k)) _
             (fun k => if k =? j then d_one else d_zero)).
  - pose proof (dot_delta (fun k => entry A_rm (i * n + k)) j (Z.to_nat n))
      as Hdot.
    rewrite Z2Nat.id in Hdot by lia.
    destruct (Z.leb_spec 0 j); [| lia].
    destruct (Z.ltb_spec j n); [| lia].
    apply Hdot. exact Hfinite.
  - intros k Hk. split; [reflexivity |]. apply Hid. split; lia.
Qed.

End Identity.

(** C9.  Provided DGEMM keeps its accuracy contract and the arithmetic of
    double keeps the laws of [identity_laws] (which IEEE 754 arithmetic
    does: they are stated up to the sign of a zero and for finite
    operands), for every m x n matrix A of finite entries read from the
    input together with the n x n identity as B, on a heap that creates the
    three vectors, every entry of the matrix written to the output is
    within the rounding tolerance of the same entry of A. *)
Theorem identity_product_written `{Lapack} `{Heap}
  (close same : double -> double -> Prop) (finite is_zero : double -> Prop)
  prog in_path out_path fs text m n A_rm B_rm rest :
  dgemm_contract close ->
  identity_laws close same finite is_zero ->
  vectors_created m n n ->
  fs_read fs in_path = Some text ->
  fs_create fs out_path = true ->
  parses_as text m n n A_rm B_rm rest ->
  (forall k, 0 <= k < m * n -> finite (entry A_rm k)) ->
  is_identity B_rm n ->
  exists w C_rm,
    main [prog; in_path; out_path] fs = (Ok 0, w)
    /\ outputs_written (w_trace w) = [(out_path, output_text C_rm m n)]
    /\ Z.of_nat (length C_rm) = m * n
    /\ forall i j, in_grid m n i j ->
         close (entry C_rm (i * n + j)) (entry A_rm (i * n + j)).
Proof.
  intros Hcontract Hlaws Hheap Hread Hcreate Hparse Hfinite Hid.
  destruct (main_product prog in_path out_path fs text m n n A_rm B_rm rest
              Hread Hparse Hheap) as (A & B & C_rm & EA & EB & EC & Hrun).
  rewrite Hcreate in Hrun.
  destruct Hparse as (s3 & s4 & Hscan & Hm & Hn & _ & HA & HB).
  destruct (header_scan_range _ _ _ _ _ _ Hscan) as (Hm' & Hn' & _ & _).
  pose proof (get_doubles_length _ _ _ _ HA) as LA.
  pose proof (get_doubles_length _ _ _ _ HB) as LB.
  destruct (product_entries close m n n A_rm B_rm A B C_rm Hcontract)
    as [LC Hentries]; try assumption; try lia; try nia.
  eexists _, C_rm. split; [exact Hrun |]. cbn [w_trace].
  autorewrite with trace.
  split; [reflexivity |]. split; [exact LC |].
  intros i j Hij. specialize (Hentries i j Hij).
  apply (close_same _ _ _ _ Hlaws _ _ _ Hentries).
  apply (row_times_identity close same finite is_zero Hlaws A_rm B_rm n i j
           Hid); [apply Hij |].
  intros k Hk. apply Hfinite. destruct Hij as [Hi _]. nia.
Qed.

(** The reference DGEMM of the instance with signed zeros returns the sum
    of the contract itself. *)
Lemma signed_dgemm_contract (info : Z) :
  dgemm_contract (H0 := Signed.SLapack info) Signed.same.
Proof.
  intros c i j _ _ Halpha Hbeta Hm Hk Hldc _ _ _ [Hi Hj].
  change (dgemm_ c (i + j * gemm_ldc c))
    with (Signed.ref_dgemm c (i + j * gemm_ldc c)).
  unfold Signed.ref_dgemm.
  assert (Ei : (i + j * gemm_ldc c) mod gemm_ldc c = i).
  { rewrite Z.mod_add by lia. apply Z.mod_small. lia. }
  assert (Ej : (i + j * gemm_ldc c) / gemm_ldc c = j).
  { rewrite Z.div_add by lia. rewrite Z.div_small by lia. lia. }
  rewrite Ei, Ej.
  destruct (Z.ltb_spec i (gemm_m c)); [| lia].
  destruct (Z.ltb_spec j (gemm_n c)); [| lia].
  rewrite Halpha, Hbeta. cbn [andb].
  change (Signed.zero_beta (@d_zero Signed.SDouble)) with true. cbv iota.
  left.
  destruct (dot (gemm_k c) _ _) as [a p | a |]; try reflexivity.
  change (Signed.Finite (xorb false a) (1 * p) = Signed.Finite a p).
  rewrite N.mul_1_l. reflexivity.
Qed.

Lemma signed_of_Z (a : bool) (p : N) :
  p <> 0%N -> Signed.of_Z (Signed.signed a p) = Signed.Finite a p.
Proof.
  intros Hp. unfold Signed.of_Z, Signed.signed.
  destruct a.
  - destruct (Z.ltb_spec (- Z.of_N p) 0); [| lia].
    rewrite Zabs2N.inj_opp, Zabs2N.id. reflexivity.
  - destruct (Z.ltb_spec (Z.of_N p) 0); [lia |].
    rewrite Zabs2N.id. reflexivity.
Qed.

Lemma signed_add_zero (x : Signed.value) (c : bool) :
  Signed.same (Signed.add x (Signed.Finite c 0)) x.
Proof.
  destruct x as [a p | a |]; try (left; reflexivity).
  unfold Signed.add.
  replace (Signed.signed a p + Signed.signed c 0) with (Signed.signed a p)
    by (unfold Signed.signed; destruct c; simpl; lia).
  destruct (N.eq_dec p 0%N) as [-> | Hp].
  - replace (Signed.signed a 0 =? 0) with true
      by (unfold Signed.signed; destruct a; reflexivity).
    right. split; exact I.
  - destruct (Z.eqb_spec (Signed.signed a p) 0) as [E | _].
    + unfold Signed.signed in E. destruct a; lia.
    + left. apply signed_of_Z. exact Hp.
Qed.

Lemma signed_zero_add (x : Signed.value) (c : bool) :
  Signed.same (Signed.add (Signed.Finite c 0) x) x.
Proof.
  destruct x as [a p | a |]; try (left; reflexivity).
  unfold Signed.add.
  replace (Signed.signed c 0 + Signed.signed a p) with (Signed.signed a p)
    by (unfold Signed.signed; destruct c; simpl; lia).
  destruct (N.eq_dec p 0%N) as [-> | Hp].
  - replace (Signed.signed a 0 =? 0) with true
      by (unfold Signed.signed; destruct a; reflexivity).
    right. split; exact I.
  - destruct (Z.eqb_spec (Signed.signed a p) 0) as [E | _].
    + unfold Signed.signed in E. destruct a; lia.
    + left. apply signed_of_Z. exact Hp.
Qed.

Lemma signed_is_zero (x : Signed.value) :
  Signed.is_zero x -> exists c, x = Signed.Finite c 0.
Proof.
  destruct x as [a [| p] | a |]; try contradiction. intros _. eauto.
Qed.

(** The arithmetic with signed zeros keeps the laws, with the tolerance
    that admits only the number itself. *)
Lemma signed_identity_laws :
  identity_laws (H := Signed.SDouble) Signed.same Signed.same Signed.finite
    Signed.is_zero.
Proof.
  split.
  - intros c d x [-> | [Hc Hd]] [-> | [Hd' Hx]].
    + left. reflexivity.
    + right. auto.
    + right. auto.
    + right. auto.
  - exact I.
  - intros a b Ha Hb.
    destruct (signed_is_zero a Ha) as [ca ->].
    destruct (signed_is_zero b Hb) as [cb ->].
    change (Signed.is_zero (Signed.add (Signed.Finite ca 0)
                              (Signed.Finite cb 0))).
    destruct ca, cb; exact I.
  - intros [a p | a |] Hx; try contradiction.
    change (Signed.is_zero (Signed.Finite (xorb a false) (p * 0))).
    rewrite N.mul_0_r. exact I.
  - intros [a p | a |] Hx; try contradiction.
    change (Signed.Finite (xorb a false) (p * 1) = Signed.Finite a p).
    rewrite N.mul_1_r, xorb_false_r. reflexivity.
  - intros z x Hz _. destruct (signed_is_zero z Hz) as [c ->].
    apply signed_zero_add.
  - intros a x z [-> | [Ha Hx]] Hz; destruct (signed_is_zero z Hz) as [c ->].
    + apply signed_add_zero.
    + destruct (signed_is_zero a Ha) as [ca ->].
      right. split; [| exact Hx].
      change (Signed.is_zero (Signed.add (Signed.Finite ca 0)
                                (Signed.Finite c 0))).
      destruct ca, c; exact I.
Qed.

Lemma identity_product_written_witness :
  exists w C_rm,
    main (H0 := Signed.SLapack 0) ["matmul"; "in.txt"; "out.txt"]
      (Exact.one_file "in.txt" Signed.identity_input)
    = (Ok 0, w)
    /\ outputs_written (w_trace w) = [("out.txt", output_text C_rm 2 3)]
    /\ Z.of_nat (length C_rm) = 2 * 3
    /\ forall i j, in_grid 2 3 i j ->
         Signed.same (entry (H := Signed.SDouble) C_rm (i * 3 + j))
           (entry (H := Signed.SDouble)
              [Signed.Finite true 0; Signed.Finite false 2;
               Signed.Finite false 3; Signed.Finite false 4;
               Signed.Finite true 5; Signed.Finite false 6] (i * 3 + j)).
Proof.
  apply (identity_product_written (H0 := Signed.SLapack 0) (H1 := ideal_heap)
           Signed.same Signed.same Signed.finite Signed.is_zero
           "matmul" "in.txt" "out.txt" _ Signed.identity_input 2 3
           [Signed.Finite true 0; Signed.Finite false 2;
            Signed.Finite false 3; Signed.Finite false 4;
            Signed.Finite true 5; Signed.Finite false 6]
           [Signed.Finite false 1; Signed.Finite false 0;
            Signed.Finite false 0; Signed.Finite false 0;
            Signed.Finite false 1; Signed.Finite false 0;
            Signed.Finite false 0; Signed.Finite false 0;
            Signed.Finite false 1] nl).
  - apply signed_dgemm_contract.
  - apply signed_identity_laws.
  - repeat split; reflexivity.
  - reflexivity.
  - reflexivity.
  - exists (String.substring 5 40 Signed.identity_input),
      (String.substring 19 19 Signed.identity_input).
    split; [vm_compute; reflexivity |].
    split; [lia |]. split; [lia |]. split; [lia |].
    split; vm_compute; reflexivity.
  - intros k Hk.
    assert (Ck : k = 0 \/ k = 1 \/ k = 2 \/ k = 3 \/ k = 4 \/ k = 5) by lia.
    destruct Ck as [-> | [-> | [-> | [-> | [-> | ->]]]]]; exact I.
  - intros i j [Hi Hj].
    assert (Ci : i = 0 \/ i = 1 \/ i = 2) by lia.
    assert (Cj : j = 0 \/ j = 1 \/ j = 2) by lia.
    destruct Ci as [-> | [-> | ->]], Cj as [-> | [-> | ->]]; reflexivity.
Defined.

(** With the negative zero of that input the entry written is the other
    zero: the tolerance of the statement cannot be equality of values. *)
Example identity_product_zero_sign :
  exists w C_rm,
    main (H0 := Signed.SLapack 0) ["matmul"; "in.txt"; "out.txt"]
      (Exact.one_file "in.txt" Signed.identity_input)
    = (Ok 0, w)
    /\ outputs_written (w_trace w) = [("out.txt", output_text C_rm 2 3)]
    /\ entry (H := Signed.SDouble) C_rm 0 = Signed.Finite false 0
    /\ (get_doubles (H := Signed.SDouble) 1
          (String.substring 5 40 Signed.identity_input)).1.1
       = [Signed.Finite true 0].
Proof.
  eexists _, [Signed.Finite false 0; Signed.Finite false 2;
              Signed.Finite false 3; Signed.Finite false 4;
              Signed.Finite true 5; Signed.Finite false 6].
  vm_compute. repeat split.
Qed.

(** ** The text of the result *)

(** C7.  Written to a stream with no pending field width, the result is a
    first line with the row count, one space and the column count, then
    exactly [rows] lines, each with the [cols] values of one row of the
    row-major matrix separated by single spaces; every value is formatted
    with the precision 17 that the function sets on the stream. *)
Theorem matrix_emission `{DoubleOps} (out : ostream) (rm : list double)
  rows cols :
  0 <= rows <= INT_MAX -> 0 <= cols <= INT_MAX ->
  Z.of_nat (length rm) = rows * cols ->
  os_width out = 0 ->
  exists out',
    write_matrix_row_major out rm rows cols = Some out'
    /\ os_text out'
       = os_text out
         +:+ to_string rows +:+ " " +:+ to_string cols +:+ nl
         +:+ fold_right String.append ""
               (map (fun i =>
                       String.concat " "
                         (map (fun j =>
                                 ostream_fmt_double (os_floatfield out) 17
                                   (entry rm (i * cols + j)))
                            (seqZ 0 cols))
                       +:+ nl)
                  (seqZ 0 rows))
    /\ length (seqZ 0 rows) = Z.to_nat rows
    /\ length (seqZ 0 cols) = Z.to_nat cols
    /\ os_precision out' = 17.
Proof.
  intros Hr Hc Hlen Hw.
  destruct (write_matrix_row_major_spec out rm rows cols Hr Hc Hlen Hw)
    as (out' & Hrun & Htext & Hprec & _).
  exists out'. split; [exact Hrun |]. split; [exact Htext |].
  rewrite !length_seqZ. auto.
Qed.

Lemma matrix_emission_witness :
  exists out',
    write_matrix_row_major (H := Exact.ZDouble) os_open [1; 2; 3; 4; 5; 6] 2 3
    = Some out'
    /\ os_text out'
       = os_text os_open
         +:+ to_string 2 +:+ " " +:+ to_string 3 +:+ nl
         +:+ fold_right String.append ""
               (map (fun i =>
                       String.concat " "
                         (map (fun j =>
                                 ostream_fmt_double (DoubleOps := Exact.ZDouble)
                                   (os_floatfield os_open) 17
                                   (entry (H := Exact.ZDouble)
                                      [1; 2; 3; 4; 5; 6] (i * 3 + j)))
                            (seqZ 0 3))
                       +:+ nl)
                  (seqZ 0 2))
    /\ length (seqZ 0 2) = Z.to_nat 2
    /\ length (seqZ 0 3) = Z.to_nat 3
    /\ os_precision out' = 17.
Proof.
  apply (matrix_emission (H := Exact.ZDouble) os_open [1; 2; 3; 4; 5; 6] 2 3).
  - unfold INT_MAX. lia.
  - unfold INT_MAX. lia.
  - reflexivity.
  - reflexivity.
Defined.

(** ** The dimensions of the call *)


Lemma dgemm_call_shape `{Lapack} `{Heap} argv fs call :
  call ∈ dgemm_calls (w_trace (main argv fs).2) ->
  exists prog in_path out_path text m n l A_rm B_rm rest,
    argv = [prog; in_path; out_path]
    /\ fs_read fs in_path = Some text
    /\ parses_as text m n l A_rm B_rm rest
    /\ to_col_major A_rm m n = Ok (gemm_a call)
    /\ to_col_major B_rm n l = Ok (gemm_b call)
    /\ gemm_m call = m /\ gemm_n call = l /\ gemm_k call = n
    /\ gemm_lda call = m /\ gemm_ldb call = n /\ gemm_ldc call = m
    /\ Z.of_nat (length (gemm_a call)) = gemm_lda call * gemm_k call
    /\ Z.of_nat (length (gemm_b call)) = gemm_ldb call * gemm_n call
    /\ Z.of_nat (length (gemm_c call)) = gemm_ldc call * gemm_n call.
Proof.
  destruct (main_cases argv fs)
    as [Hlen
       | prog in_path out_path -> Hread
       | prog in_path out_path text -> Hread Hrej
       | prog in_path out_path text what count rest -> Hread Hrefused
       | prog in_path out_path text name cols pos rest count -> Hread Hbad
           Hcreated
       | prog in_path out_path text m n l A_rm B_rm rest A B C_rm
           -> Hread Hparse (HheapA & HheapB & HheapC) EA EB EC];
    cbn [snd w_trace]; autorewrite with trace;
    try (intros Hin; inversion Hin; fail).
  intros Hin. cbn in Hin.
  assert (call = product_call m n l A B) as ->.
  { destruct (fs_create fs out_path); cbn in Hin;
      apply list_elem_of_singleton in Hin; exact Hin. }
  pose proof Hparse as (s3 & s4 & Hscan & Hm & Hn & Hl & HA & HB).
  destruct (header_scan_range _ _ _ _ _ _ Hscan) as (Hm' & Hn' & Hl' & _).
  pose proof (get_doubles_length _ _ _ _ HA) as LA.
  pose proof (get_doubles_length _ _ _ _ HB) as LB.
  destruct (to_col_major_spec A_rm m n) as (A' & EA' & LA' & _);
    [unfold is_count; lia | unfold is_count; lia | nia | exact HheapA |].
  rewrite EA in EA'. injection EA' as <-.
  destruct (to_col_major_spec B_rm n l) as (B' & EB' & LB' & _);
    [unfold is_count; lia | unfold is_count; lia | nia | exact HheapB |].
  rewrite EB in EB'. injection EB' as <-.
  exists prog, in_path, out_path, text, m, n, l, A_rm, B_rm, rest.
  cbn [product_call gemm_a gemm_b gemm_c gemm_m gemm_n gemm_k gemm_lda
         gemm_ldb gemm_ldc].
  repeat (split; [first [reflexivity | assumption] |]).
  rewrite extent_int by (unfold is_count; lia).
  apply vec_new_length. nia.
Qed.

Lemma first_refusal_refused `{DoubleOps} `{Heap} text what count rest :
  first_refusal text what count rest ->
  exists n, vector_refused n = Some what.
Proof.
  intros (m & n & l & s3 & _ & _ & _ & _
          & [(E & _) | (_ & A_rm & s4 & _ & [(E & _) | (_ & E & _)])]);
    eauto.
Qed.

Lemma cerr_kinds `{Lapack} `{Heap} argv fs :
  cerr_texts (w_trace (main argv fs).2) = []
  \/ cerr_texts (w_trace (main argv fs).2) = [usage_line (nth 0 argv "")]
  \/ cerr_texts (w_trace (main argv fs).2)
     = [error_line ("No se pudo abrir el archivo de entrada: "
                    +:+ nth 1 argv "")]
  \/ cerr_texts (w_trace (main argv fs).2) = [error_line dimensions_error]
  \/ (exists name i j,
        cerr_texts (w_trace (main argv fs).2)
        = [error_line (read_error name i j)])
  \/ cerr_texts (w_trace (main argv fs).2)
     = [error_line ("No se pudo abrir el archivo de salida: "
                    +:+ nth 2 argv "")]
  \/ (exists what n,
        vector_refused n = Some what
        /\ cerr_texts (w_trace (main argv fs).2) = [error_line what]).
Proof.
  destruct (main_cases argv fs)
    as [Hlen
       | prog in_path out_path -> Hread
       | prog in_path out_path text -> Hread Hrej
       | prog in_path out_path text what count rest -> Hread Hrefused
       | prog in_path out_path text name cols pos rest count -> Hread Hbad
           Hcreated
       | prog in_path out_path text m n l A_rm B_rm rest A B C_rm
           -> Hread Hparse Hheap EA EB EC];
    cbn [snd w_trace]; autorewrite with trace; auto.
  - do 6 right. destruct (first_refusal_refused _ _ _ _ Hrefused) as [n E].
    exists what, n. auto.
  - do 4 right. left. eauto.
  - destruct (fs_create fs out_path); cbn; auto 10.
Qed.

(** C10.  In every run, each call of DGEMM is made for matrices read from
    one header m n l of positive values: A was read as m x n and B as
    n x l with the same n, the call has M = m, N = l, K = n, lda = m,
    ldb = n, ldc = m, and the three buffers hold exactly lda * K, ldb * N
    and ldc * N values.  No run reports a mismatch of dimensions: the
    error stream stays empty or holds one of the five messages of the
    program, or the message of the exception with which the heap has
    refused a vector. *)
Theorem shared_dimension `{Lapack} `{Heap} argv fs :
  (forall call,
     call ∈ dgemm_calls (w_trace (main argv fs).2) ->
     exists prog in_path out_path text m n l A_rm B_rm rest,
       argv = [prog; in_path; out_path]
       /\ fs_read fs in_path = Some text
       /\ parses_as text m n l A_rm B_rm rest
       /\ to_col_major A_rm m n = Ok (gemm_a call)
       /\ to_col_major B_rm n l = Ok (gemm_b call)
       /\ gemm_m call = m /\ gemm_n call = l /\ gemm_k call = n
       /\ gemm_lda call = m /\ gemm_ldb call = n /\ gemm_ldc call = m
       /\ Z.of_nat (length (gemm_a call)) = gemm_lda call * gemm_k call
       /\ Z.of_nat (length (gemm_b call)) = gemm_ldb call * gemm_n call
       /\ Z.of_nat (length (gemm_c call)) = gemm_ldc call * gemm_n call)
  /\ (cerr_texts (w_trace (main argv fs).2) = []
      \/ cerr_texts (w_trace (main argv fs).2) = [usage_line (nth 0 argv "")]
      \/ cerr_texts (w_trace (main argv fs).2)
         = [error_line ("No se pudo abrir el archivo de entrada: "
                        +:+ nth 1 argv "")]
      \/ cerr_texts (w_trace (main argv fs).2) = [error_line dimensions_error]
      \/ (exists name i j,
            cerr_texts (w_trace (main argv fs).2)
            = [error_line (read_error name i j)])
      \/ cerr_texts (w_trace (main argv fs).2)
         = [error_line ("No se pudo abrir el archivo de salida: "
                        +:+ nth 2 argv "")]
      \/ (exists what n,
            vector_refused n = Some what
            /\ cerr_texts (w_trace (main argv fs).2) = [error_line what])).
Proof.
  split; [apply dgemm_call_shape | apply cerr_kinds].
Qed.

Lemma shared_dimension_witness :
  exists call,
    call ∈ dgemm_calls
             (w_trace (main (H0 := Exact.ZLapack 0)
                         ["matmul"; "in.txt"; "out.txt"]
                         (Exact.one_file "in.txt" Exact.sample_input)).2)
    /\ gemm_m call = 2 /\ gemm_n call = 2 /\ gemm_k call = 3
    /\ gemm_lda call = 2 /\ gemm_ldb call = 3 /\ gemm_ldc call = 2.
Proof.
  exists (product_call (H := Exact.ZDouble) 2 3 2
            [1; 1; 2; 1; 3; 1] [2; 3; 5; 3; 4; 6]).
  assert (Hin : product_call (H := Exact.ZDouble) 2 3 2
                  [1; 1; 2; 1; 3; 1] [2; 3; 5; 3; 4; 6]
                ∈ dgemm_calls
                    (w_trace (main (H0 := Exact.ZLapack 0)
                                ["matmul"; "in.txt"; "out.txt"]
                                (Exact.one_file "in.txt"
                                   Exact.sample_input)).2)).
  { vm_compute. apply list_elem_of_here. }
  split; [exact Hin |].
  destruct (proj1 (shared_dimension (H0 := Exact.ZLapack 0)
                     (H1 := ideal_heap)
                     ["matmul"; "in.txt"; "out.txt"]
                     (Exact.one_file "in.txt" Exact.sample_input)) _ Hin)
    as (prog & in_path & out_path & text & m & n & l & A_rm & B_rm & rest
        & Hargv & Hread & Hparse & EA & EB & Em & En & Ek & Ea & Eb & Ec & _).
  repeat split; reflexivity.
Defined.

(** With the heap of libstdc++ the header [2147483647 2147483647 1] gives
    the last of these messages. *)
Example huge_header_message :
  cerr_texts
    (w_trace (main (H0 := Exact.ZLapack 0) (H1 := libstdcxx_heap (2 ^ 32))
                ["matmul"; "in.txt"; "out.txt"]
                (Exact.one_file "in.txt" "2147483647 2147483647 1")).2)
  = [error_line "cannot create std::vector larger than max_size()"].
Proof.
  rewrite (main_refused "matmul" "in.txt" "out.txt" _
             "2147483647 2147483647 1"
             "cannot create std::vector larger than max_size()" 0 "").
  - reflexivity.
  - reflexivity.
  - exists 2147483647, 2147483647, 1, "".
    split; [reflexivity |].
    split; [lia |]. split; [lia |]. split; [lia |].
    left. split; [reflexivity |]. split; reflexivity.
Qed.

(** ** A mismatch of dimensions *)




(** ** The status of the LAPACK drivers *)

Lemma dgesv_negative (info : Z) :
  INT_MIN < info < 0 ->
  dgesv_diagnostic info
  = Some (Some {| diag_text := "LAPACKE_dgesv: argumento ilegal en posición ";
                  diag_value := - info; diag_tail := "" |}).
Proof.
  intros Hneg. unfold dgesv_diagnostic.
  destruct (Z.ltb_spec info 0); [| lia].
  rewrite int_neg_fits by (unfold INT_MAX; lia). reflexivity.
Qed.

Lemma dgesv_positive (info : Z) :
  0 < info ->
  dgesv_diagnostic info
  = Some (Some {| diag_text :=
                    "LAPACKE_dgesv: matriz singular; no se pudo resolver (info=";
                  diag_value := info; diag_tail := ")" |}).
Proof.
  intros Hpos. unfold dgesv_diagnostic.
  destruct (Z.ltb_spec info 0); [lia |].
  destruct (Z.ltb_spec 0 info); [reflexivity | lia].
Qed.

Lemma dgels_negative (info : Z) :
  INT_MIN < info < 0 ->
  dgels_diagnostic info
  = Some (Some {| diag_text := "LAPACKE_dgels: argumento ilegal en posicion ";
                  diag_value := - info; diag_tail := "" |}).
Proof.
  intros Hneg. unfold dgels_diagnostic.
  destruct (Z.ltb_spec info 0); [| lia].
  rewrite int_neg_fits by (unfold INT_MAX; lia). reflexivity.
Qed.

Lemma dgels_positive (info : Z) :
  0 < info ->
  dgels_diagnostic info
  = Some (Some {| diag_text := "LAPACKE_dgels: fallo numérico (info=";
                  diag_value := info; diag_tail := ")" |}).
Proof.
  intros Hpos. unfold dgels_diagnostic.
  destruct (Z.ltb_spec info 0); [lia |].
  destruct (Z.ltb_spec 0 info); [reflexivity | lia].
Qed.

Lemma dgesv_policy : status_policy dgesv_diagnostic.
Proof.
  split; [reflexivity |]. split.
  - intros info Hneg. rewrite (dgesv_negative info Hneg).
    eexists. split; reflexivity.
  - intros neg pos Hneg Hpos.
    rewrite (dgesv_negative neg Hneg), (dgesv_positive pos) by lia.
    do 2 eexists. split; [reflexivity |]. split; [reflexivity |].
    simpl. discriminate.
Qed.

Lemma dgels_policy : status_policy dgels_diagnostic.
Proof.
  split; [reflexivity |]. split.
  - intros info Hneg. rewrite (dgels_negative info Hneg).
    eexists. split; reflexivity.
  - intros neg pos Hneg Hpos.
    rewrite (dgels_negative neg Hneg), (dgels_positive pos) by lia.
    do 2 eexists. split; [reflexivity |]. split; [reflexivity |].
    simpl. discriminate.
Qed.

(** The negation of the least [int] is undefined: for that status the
    programs have no defined message. *)
Lemma least_status_undefined :
  dgesv_diagnostic INT_MIN = None /\ dgels_diagnostic INT_MIN = None.
Proof. split; reflexivity. Qed.

Lemma dgesvd_raw (info : Z) :
  info <> 0 ->
  dgesvd_diagnostic info
  = Some {| diag_text := "Error en dgesvd, info = "; diag_value := info;
            diag_tail := "" |}.
Proof.
  intros Hne. unfold dgesvd_diagnostic.
  destruct (Z.eqb_spec info 0); [contradiction | reflexivity].
Qed.

(** C6, as claimed, fails for the SVD program: its treatment of the status
    does not follow the policy, since for the status -3 the message carries
    -3, not the position 3; and the runs with the statuses -3 and 3 print
    the same text before the number. *)
Lemma svd_status_not_classified :
  ~ status_policy (fun info => Some (dgesvd_diagnostic info))
  /\ (os_items <$> (rep_cerr <$> svd_main (H0 := Exact.ZLapack (-3))))
     = Some ["Error en dgesvd, info = "; "-3"; nl]
  /\ (os_items <$> (rep_cerr <$> svd_main (H0 := Exact.ZLapack 3)))
     = Some ["Error en dgesvd, info = "; "3"; nl].
Proof.
  split; [| split; vm_compute; reflexivity].
  intros (_ & Hposition & _).
  destruct (Hposition (-3)) as (d & Hd & Hvalue); [unfold INT_MIN; lia |].
  vm_compute in Hd. injection Hd as <-. discriminate Hvalue.
Qed.

Section StatusRuns.
Context `{Lapack}.

Lemma linear_steps_total :
  exists info a b,
    linear_steps linear_x linear_y
    = Some ([R_cblas_dgemm; R_cblas_dgemv; R_dgesv], (info, [a; b])).
Proof. do 3 eexists. cbv. reflexivity. Qed.

Lemma quadratic_steps_total :
  exists info a b c r3 r4 r5,
    quadratic_steps quadratic_x quadratic_y
    = Some ([R_dgels], (info, [a; b; c; r3; r4; r5])).
Proof. do 7 eexists. cbv. reflexivity. Qed.

Lemma linear_report_failed x y info theta calls d :
  dgesv_diagnostic info = Some (Some d) ->
  linear_report x y info theta calls
  = Some (caught os_open calls [] (diag_what d)).
Proof. intros Hd. unfold linear_report. rewrite Hd. reflexivity. Qed.

Lemma quadratic_report_failed x y info B csv_ok calls d :
  dgels_diagnostic info = Some (Some d) ->
  quadratic_report x y info B csv_ok calls
  = Some (caught os_open calls [] (diag_what d)).
Proof. intros Hd. unfold quadratic_report. rewrite Hd. reflexivity. Qed.

Lemma linear_report_done a b calls :
  exists rep,
    linear_report linear_x linear_y 0 [a; b] calls = Some rep
    /\ rep_status rep = 0 /\ rep_cerr rep = os_open
    /\ rep_calls rep = calls.
Proof. eexists. split; [cbv; reflexivity |]. repeat split. Qed.

Lemma quadratic_report_done a b c r3 r4 r5 csv_ok calls :
  exists rep,
    quadratic_report quadratic_x quadratic_y 0 [a; b; c; r3; r4; r5] csv_ok
      calls
    = Some rep
    /\ rep_status rep = (if csv_ok then 0 else 1)
    /\ rep_calls rep = calls.
Proof.
  destruct csv_ok; (eexists; split; [cbv; reflexivity |]); split; reflexivity.
Qed.

Lemma svd_report_done (r : dgesvd_out) calls :
  svd_info r = 0 ->
  exists rep,
    svd_report r calls = Some rep
    /\ rep_status rep = 0 /\ rep_cerr rep = os_open
    /\ rep_calls rep = calls.
Proof.
  intros Hinfo. unfold svd_report. rewrite Hinfo.
  eexists. split; [cbv; reflexivity |]. repeat split.
Qed.

End StatusRuns.

(** C6, amended.  Every program treats the status 0 as success and any
    other status as fatal: the run ends with exit status 1 and one message
    on the error stream, and the routines it has called are those called
    before the test, each once.  For a status that is an [int] whose
    negation is an [int], the two fitting programs report a negative
    status as an illegal argument at the position given by the negated
    status, and a positive status as a numerical failure with another
    text.  The SVD program reports every non-zero status with one text
    followed by the status as it is. *)
Theorem status_handling `{Lapack} :
  (exists info a b,
     linear_steps linear_x linear_y
     = Some ([R_cblas_dgemm; R_cblas_dgemv; R_dgesv], (info, [a; b]))
     /\ (INT_MIN < info < 0 ->
         linear_main
         = Some (caught os_open [R_cblas_dgemm; R_cblas_dgemv; R_dgesv] []
                   ("LAPACKE_dgesv: argumento ilegal en posición "
                    +:+ to_string (- info))))
     /\ (0 < info <= INT_MAX ->
         linear_main
         = Some (caught os_open [R_cblas_dgemm; R_cblas_dgemv; R_dgesv] []
                   ("LAPACKE_dgesv: matriz singular; no se pudo resolver (info="
                    +:+ to_string info +:+ ")")))
     /\ (info = 0 ->
         exists rep,
           linear_main = Some rep
           /\ rep_status rep = 0 /\ rep_cerr rep = os_open
           /\ rep_calls rep = [R_cblas_dgemm; R_cblas_dgemv; R_dgesv]))
  /\ (exists info a b c r3 r4 r5,
        quadratic_steps quadratic_x quadratic_y
        = Some ([R_dgels], (info, [a; b; c; r3; r4; r5]))
        /\ (INT_MIN < info < 0 ->
            forall csv_ok,
              quadratic_main csv_ok
              = Some (caught os_open [R_dgels] []
                        ("LAPACKE_dgels: argumento ilegal en posicion "
                         +:+ to_string (- info))))
        /\ (0 < info <= INT_MAX ->
            forall csv_ok,
              quadratic_main csv_ok
              = Some (caught os_open [R_dgels] []
                        ("LAPACKE_dgels: fallo numérico (info="
                         +:+ to_string info +:+ ")")))
        /\ (info = 0 ->
            forall csv_ok,
            exists rep,
              quadratic_main csv_ok = Some rep
              /\ rep_status rep = (if csv_ok then 0 else 1)
              /\ rep_calls rep = [R_dgels]))
  /\ svd_steps.2 = [R_dgesvd]
  /\ (svd_info svd_steps.1 <> 0 ->
      svd_main
      = Some {| rep_status := 1;
                rep_cout := os_open;
                rep_cerr := os_open << "Error en dgesvd, info = "
                                    << svd_info svd_steps.1 << nl;
                rep_calls := [R_dgesvd];
                rep_files := [] |})
  /\ (svd_info svd_steps.1 = 0 ->
      exists rep,
        svd_main = Some rep
        /\ rep_status rep = 0 /\ rep_cerr rep = os_open
        /\ rep_calls rep = [R_dgesvd])
  /\ status_policy dgesv_diagnostic
  /\ status_policy dgels_diagnostic.
Proof.
  split; [| split; [| split; [| split; [| split; [| split]]]]].
  - destruct linear_steps_total as (info & a & b & Esteps).
    exists info, a, b. split; [exact Esteps |].
    unfold linear_main. rewrite Esteps. cbn [mbind option_bind fst snd].
    split; [| split].
    + intros Hneg.
      rewrite (linear_report_failed _ _ _ _ _ _ (dgesv_negative info Hneg)).
      unfold diag_what. cbn [diag_text diag_value diag_tail].
      rewrite string_app_nil_r. reflexivity.
    + intros Hpos.
      rewrite (linear_report_failed _ _ _ _ _ _
                 (dgesv_positive info ltac:(lia))).
      reflexivity.
    + intros ->. apply linear_report_done.
  - destruct quadratic_steps_total
      as (info & a & b & c & r3 & r4 & r5 & Esteps).
    exists info, a, b, c, r3, r4, r5. split; [exact Esteps |].
    unfold quadratic_main. rewrite Esteps. cbn [mbind option_bind fst snd].
    split; [| split].
    + intros Hneg csv_ok.
      rewrite (quadratic_report_failed _ _ _ _ _ _ _
                 (dgels_negative info Hneg)).
      unfold diag_what. cbn [diag_text diag_value diag_tail].
      rewrite string_app_nil_r. reflexivity.
    + intros Hpos csv_ok.
      rewrite (quadratic_report_failed _ _ _ _ _ _ _
                 (dgels_positive info ltac:(lia))).
      reflexivity.
    + intros -> csv_ok. apply quadratic_report_done.
  - reflexivity.
  - intros Hne. unfold svd_main, svd_report.
    rewrite (dgesvd_raw _ Hne). reflexivity.
  - intros Hzero. apply svd_report_done. exact Hzero.
  - apply dgesv_policy.
  - apply dgels_policy.
Qed.

Lemma status_handling_witness :
  svd_main (H0 := Exact.ZLapack (-3))
  = Some {| rep_status := 1;
            rep_cout := os_open;
            rep_cerr := os_open << "Error en dgesvd, info = " << (-3) << nl;
            rep_calls := [R_dgesvd];
            rep_files := [] |}.
Proof.
  apply (proj1 (proj2 (proj2 (proj2
           (status_handling (H0 := Exact.ZLapack (-3))))))).
  vm_compute. discriminate.
Defined.

(** The fitting programs on a library whose drivers return the status -3:
    the message gives the position 3, and the routines called are those
    before the test of the status. *)
Example fitting_status_reported :
  linear_main (H0 := Exact.ZLapack (-3))
  = Some (caught os_open [R_cblas_dgemm; R_cblas_dgemv; R_dgesv] []
            "LAPACKE_dgesv: argumento ilegal en posición 3")
  /\ quadratic_main (H0 := Exact.ZLapack (-3)) true
     = Some (caught os_open [R_dgels] []
               "LAPACKE_dgels: argumento ilegal en posicion 3").
Proof. split; vm_compute; reflexivity. Qed.

(** ** The diagnostics of the SVD and fitting programs *)

Section MaxError.
Context `{DoubleOps}.
Hypothesis dgt_irrefl : forall x, dgt x x = false.
Hypothesis dgt_bound :
  forall x m d, dgt d m = true -> dgt x m = false -> dgt x d = false.

Lemma max_abs_error_spec (X Y : list double) :
  4 <= Z.of_nat (length X) -> 4 <= Z.of_nat (length Y) ->
  exists m, max_abs_error X Y = Some m /\ greatest_abs_diff m X Y 4.
Proof using All.
  intros HX HY. unfold max_abs_error.
  apply (for_int_inv (fun k m => greatest_abs_diff m X Y k)); [lia | |].
  - split; [intros k Hk; lia | left; reflexivity].
  - intros k m Hk [Hbound Hattained].
    destruct (vec_get_in X k) as [r Hr]; [lia |].
    destruct (vec_get_in Y k) as [o Ho]; [lia |].
    rewrite Hr, Ho. cbn [mbind option_bind].
    eexists. split; [reflexivity |].
    assert (Hdiff : dabs (dsub r o) = abs_diff X Y k).
    { unfold abs_diff. rewrite (entry_get X k r Hr), (entry_get Y k o Ho).
      reflexivity. }
    rewrite Hdiff.
    destruct (dgt (abs_diff X Y k) m) eqn:Hgt; split.
    + intros t Ht. destruct (decide (t = k)) as [-> | Hne].
      * apply dgt_irrefl.
      * apply (dgt_bound _ m); [exact Hgt | apply Hbound; lia].
    + right. exists k. split; [lia | reflexivity].
    + intros t Ht. destruct (decide (t = k)) as [-> | Hne].
      * exact Hgt.
      * apply Hbound. lia.
    + destruct Hattained as [-> | (t & Ht & ->)]; [left; reflexivity |].
      right. exists t. split; [lia | reflexivity].
Qed.

End MaxError.

(** C8.  With [x > y] the strict part of an order on the values met (no
    value exceeds itself, and what does not exceed [m] does not exceed a
    [d] greater than [m]): when the decomposition succeeds, the SVD program
    prints as its last line the greatest of 0.0 and the absolute
    differences |A_rec[i] - A[i]| over the four entries, A_rec being the
    product (U * Sigma) * V^T.  When the solver succeeds, each fitting
    program prints SSE, the sum over the samples of (y_hat_i - y_i)^2, and
    MSE, that sum divided by the number of samples. *)
Theorem diagnostics_reported `{Lapack} :
  (forall x, dgt x x = false) ->
  (forall x m d, dgt d m = true -> dgt x m = false -> dgt x d = false) ->
  (svd_info svd_decompose = 0 ->
   exists rep max_err,
     svd_main = Some rep
     /\ greatest_abs_diff max_err
          (matmul_rm 2 2 2
             (matmul_rm 2 2 2 (filled 4 (svd_u svd_decompose))
                (diag2 (filled 2 (svd_s svd_decompose))))
             (filled 4 (svd_vt svd_decompose)))
          svd_A 4
     /\ has_run (os_items (rep_cout rep))
          [nl +:+ "Error máximo |A_rec - A_orig| = ";
           ostream_fmt_double FloatFixed 8 max_err; nl])
  /\ (exists info a b,
        linear_solve linear_x linear_y = Some (info, [a; b])
        /\ (info = 0 ->
            exists rep,
              linear_main = Some rep
              /\ has_run (os_items (rep_cout rep))
                   (error_summary
                      (sum_squared_errors
                         (map (fun x => dadd (dmul a x) b) linear_x)
                         linear_y)
                      (ddiv
                         (sum_squared_errors
                            (map (fun x => dadd (dmul a x) b) linear_x)
                            linear_y)
                         (d_of_int (Z.of_nat (length linear_x)))))))
  /\ (exists info a b c r3 r4 r5,
        quadratic_solve quadratic_x quadratic_y
        = Some (info, [a; b; c; r3; r4; r5])
        /\ (info = 0 ->
            forall csv_ok,
            exists rep,
              quadratic_main csv_ok = Some rep
              /\ has_run (os_items (rep_cout rep))
                   (error_summary
                      (sum_squared_errors
                         (map (fun x =>
                                 dadd (dadd (dmul (dmul a x) x) (dmul b x)) c)
                            quadratic_x)
                         quadratic_y)
                      (ddiv
                         (sum_squared_errors
                            (map (fun x =>
                                    dadd (dadd (dmul (dmul a x) x) (dmul b x))
                                      c)
                               quadratic_x)
                            quadratic_y)
                         (d_of_int (Z.of_nat (length quadratic_x))))))).
Proof.
  intros Hirrefl Hbound. split; [| split].
  - intros Hinfo.
    destruct (max_abs_error_spec Hirrefl Hbound
                (matmul_rm 2 2 2
                   (matmul_rm 2 2 2 (filled 4 (svd_u svd_decompose))
                      (diag2 (filled 2 (svd_s svd_decompose))))
                   (filled 4 (svd_vt svd_decompose)))
                svd_A) as (m & Em & Hgreatest).
    { unfold matmul_rm. rewrite length_map, length_seqZ. lia. }
    { unfold svd_A. simpl. lia. }
    cbv in Em. injection Em as <-.
    unfold svd_decompose in Hinfo.
    eexists. eexists.
    split; [unfold svd_main, svd_report; rewrite Hinfo; cbv; reflexivity |].
    split; [exact Hgreatest |].
    match goal with
    | |- has_run ?items _ => exists (take 44 items), (drop 47 items)
    end.
    cbv. reflexivity.
  - destruct linear_steps_total as (info & a & b & Esteps).
    exists info, a, b.
    split; [unfold linear_solve; rewrite Esteps; reflexivity |].
    intros ->. unfold linear_main. rewrite Esteps.
    cbn [mbind option_bind fst snd].
    eexists. split; [cbv; reflexivity |].
    match goal with
    | |- has_run ?items _ => exists (take 45 items), (drop 51 items)
    end.
    cbv. reflexivity.
  - destruct quadratic_steps_total
      as (info & a & b & c & r3 & r4 & r5 & Esteps).
    exists info, a, b, c, r3, r4, r5.
    split; [unfold quadratic_solve; rewrite Esteps; reflexivity |].
    intros -> csv_ok. unfold quadratic_main. rewrite Esteps.
    cbn [mbind option_bind fst snd].
    destruct csv_ok; (eexists; split; [cbv; reflexivity |]);
      match goal with
      | |- has_run ?items _ => exists (take 66 items), (drop 72 items)
      end;
      cbv; reflexivity.
Qed.

Lemma exact_gt_irrefl (x : Z) : dgt (DoubleOps := Exact.ZDouble) x x = false.
Proof.
  change ((x >? x) = false). rewrite Z.gtb_ltb. apply Z.ltb_irrefl.
Qed.

Lemma exact_gt_bound (x m d : Z) :
  dgt (DoubleOps := Exact.ZDouble) d m = true ->
  dgt (DoubleOps := Exact.ZDouble) x m = false ->
  dgt (DoubleOps := Exact.ZDouble) x d = false.
Proof.
  change ((d >? m) = true -> (x >? m) = false -> (x >? d) = false).
  rewrite !Z.gtb_ltb, Z.ltb_lt, !Z.ltb_ge. lia.
Qed.

Lemma diagnostics_reported_witness :
  exists rep max_err,
    svd_main (H0 := Exact.ZLapack 0) = Some rep
    /\ greatest_abs_diff (H := Exact.ZDouble) max_err
         (matmul_rm 2 2 2
            (matmul_rm 2 2 2
               (filled 4 (svd_u (svd_decompose (H0 := Exact.ZLapack 0))))
               (diag2 (filled 2 (svd_s (svd_decompose (H0 := Exact.ZLapack 0))))))
            (filled 4 (svd_vt (svd_decompose (H0 := Exact.ZLapack 0)))))
         svd_A 4
    /\ has_run (os_items (rep_cout rep))
         [nl +:+ "Error máximo |A_rec - A_orig| = ";
          ostream_fmt_double (DoubleOps := Exact.ZDouble) FloatFixed 8 max_err;
          nl].
Proof.
  apply (proj1 (diagnostics_reported (H0 := Exact.ZLapack 0)
                  exact_gt_irrefl exact_gt_bound)).
  reflexivity.
Defined.

(** ** The programs on concrete inputs *)

(** The 2 x 3 by 3 x 2 example: [[1,2,3],[1,1,1]] * [[2,3],[3,4],[5,6]]. *)
Example sample_product :
  outputs_written
    (w_trace (main (H0 := Exact.ZLapack 0) ["matmul"; "in.txt"; "out.txt"]
                (Exact.one_file "in.txt" Exact.sample_input)).2)
  = [("out.txt", "2 2" +:+ nl +:+ "23 29" +:+ nl +:+ "10 13" +:+ nl)].
Proof. vm_compute. reflexivity. Qed.

(** The file laid out as 2 x 2 and 4 x 2 under the header [2 3 2]: the
    twelve tokens are taken as a 2 x 3 and a 3 x 2 matrix. *)
Example ragged_product :
  (main (H0 := Exact.ZLapack 0) ["matmul"; "in.txt"; "out.txt"]
     (Exact.one_file "in.txt" Exact.ragged_input)).1 = Ok 0
  /\ outputs_written
       (w_trace (main (H0 := Exact.ZLapack 0) ["matmul"; "in.txt"; "out.txt"]
                   (Exact.one_file "in.txt" Exact.ragged_input)).2)
     = [("out.txt", "2 2" +:+ nl +:+ "58 64" +:+ nl +:+ "139 154" +:+ nl)].
Proof. vm_compute. repeat split; reflexivity. Qed.

(** A header that declares more entries than the file holds. *)
Example short_input :
  cerr_texts
    (w_trace (main (H0 := Exact.ZLapack 0) ["matmul"; "in.txt"; "out.txt"]
                (Exact.one_file "in.txt" "2 3 2 1 2 3 1 1 1 2 3 3")).2)
  = ["Error: Error leyendo matriz B en (1,1)." +:+ nl].
Proof. vm_compute. reflexivity. Qed.

(** * Further properties of the code *)

(** ** Index arithmetic and the layout adapters *)

(** X1.  For operands of type int that are not negative, the index
    [static_cast<size_t>(i) * stride + j] and the size
    [static_cast<size_t>(rows) * cols] are the exact values i * stride + j
    and rows * cols: the 64-bit arithmetic does not wrap. *)
Theorem size_t_index_exact (i stride j : Z) :
  0 <= i <= INT_MAX -> 0 <= stride <= INT_MAX -> 0 <= j <= INT_MAX ->
  offset i stride j = i * stride + j
  /\ extent i stride = i * stride
  /\ i * stride + j < SIZE_MOD.
Proof.
  intros Hi Hs Hj. split; [apply offset_int; assumption |].
  split; [apply extent_int; assumption |].
  unfold INT_MAX, SIZE_MOD in *. nia.
Qed.

Lemma size_t_index_exact_witness :
  offset INT_MAX INT_MAX INT_MAX = INT_MAX * INT_MAX + INT_MAX
  /\ extent INT_MAX INT_MAX = INT_MAX * INT_MAX
  /\ INT_MAX * INT_MAX + INT_MAX < SIZE_MOD.
Proof.
  apply (size_t_index_exact INT_MAX INT_MAX INT_MAX);
    unfold INT_MAX; lia.
Defined.

Section LayoutMore.
Context `{DoubleOps} `{Heap}.

Lemma to_col_major_prefix (rm : list double) rows cols :
  is_count rows -> is_count cols ->
  rows * cols <= Z.of_nat (length rm) ->
  vector_refused (extent rows cols) = None ->
  exists cm,
    to_col_major rm rows cols = Ok cm
    /\ Z.of_nat (length cm) = rows * cols
    /\ forall i j, in_grid rows cols i j ->
                   vec_get cm (j * rows + i) = vec_get rm (i * cols + j).
Proof.
  intros Hr Hc Hlen Hheap. unfold to_col_major.
  rewrite (vec_create_ok _ _ Hheap). cbn [mbind outcome_bind].
  assert (Hnew : Z.of_nat (length (vec_new (extent rows cols) d_zero))
                 = rows * cols).
  { rewrite extent_int by assumption. apply vec_new_length.
    unfold is_count in *. nia. }
  destruct (copy_loop_spec rm (vec_new (extent rows cols) d_zero) rows cols
              (fun i j => offset i cols j) (fun i j => offset j rows i))
    as (cm & Hrun & Hcm & Hget).
  - apply Hr.
  - apply Hc.
  - intros i j Hij. destruct (grid_row_major rows cols i j Hr Hc Hij). lia.
  - intros i j Hij. destruct (grid_col_major rows cols i j Hr Hc Hij). lia.
  - intros i j i' j' Hij Hij'.
    destruct (grid_col_major rows cols i j Hr Hc Hij) as [-> _].
    destruct (grid_col_major rows cols i' j' Hr Hc Hij') as [-> _].
    destruct Hij, Hij'. intros E.
    apply and_comm. eapply linear_index_inj; eassumption.
  - exists cm. split; [rewrite Hrun; reflexivity |]. split; [lia |].
    intros i j Hij. specialize (Hget i j Hij). simpl in Hget.
    destruct (grid_row_major rows cols i j Hr Hc Hij) as [E1 _].
    destruct (grid_col_major rows cols i j Hr Hc Hij) as [E2 _].
    rewrite E1, E2 in Hget. exact Hget.
Qed.

Lemma to_row_major_prefix (cm : list double) rows cols :
  is_count rows -> is_count cols ->
  rows * cols <= Z.of_nat (length cm) ->
  vector_refused (extent rows cols) = None ->
  exists rm,
    to_row_major cm rows cols = Ok rm
    /\ Z.of_nat (length rm) = rows * cols
    /\ forall i j, in_grid rows cols i j ->
                   vec_get rm (i * cols + j) = vec_get cm (j * rows + i).
Proof.
  intros Hr Hc Hlen Hheap. unfold to_row_major.
  rewrite (vec_create_ok _ _ Hheap). cbn [mbind outcome_bind].
  assert (Hnew : Z.of_nat (length (vec_new (extent rows cols) d_zero))
                 = rows * cols).
  { rewrite extent_int by assumption. apply vec_new_length.
    unfold is_count in *. nia. }
  destruct (copy_loop_spec cm (vec_new (extent rows cols) d_zero) rows cols
              (fun i j => offset j rows i) (fun i j => offset i cols j))
    as (rm & Hrun & Hrm & Hget).
  - apply Hr.
  - apply Hc.
  - intros i j Hij. destruct (grid_col_major rows cols i j Hr Hc Hij). lia.
  - intros i j Hij. destruct (grid_row_major rows cols i j Hr Hc Hij). lia.
  - intros i j i' j' Hij Hij'.
    destruct (grid_row_major rows cols i j Hr Hc Hij) as [-> _].
    destruct (grid_row_major rows cols i' j' Hr Hc Hij') as [-> _].
    destruct Hij, Hij'. intros E.
    eapply linear_index_inj; eassumption.
  - exists rm. split; [rewrite Hrun; reflexivity |]. split; [lia |].
    intros i j Hij. specialize (Hget i j Hij). simpl in Hget.
    destruct (grid_row_major rows cols i j Hr Hc Hij) as [E1 _].
    destruct (grid_col_major rows cols i j Hr Hc Hij) as [E2 _].
    rewrite E1, E2 in Hget. exact Hget.
Qed.

(** A loop that ends normally ran its body normally at every index. *)
Lemma for_from_ran {St : Type} (body : Z -> St -> option St) count :
  forall i s s',
    for_from i count body s = Some s' ->
    forall k, i <= k < i + Z.of_nat count ->
              exists t t', body k t = Some t'.
Proof.
  induction count as [| count IH]; intros i s s' Hrun k Hk; [lia |].
  simpl in Hrun. destruct (body i s) as [t |] eqn:Hbody; [| discriminate].
  destruct (decide (k = i)) as [-> | Hne]; [eauto |].
  apply (IH (i + 1) t s' Hrun). lia.
Qed.

Lemma for_int_ran {St : Type} (body : Z -> St -> option St) n s s' k :
  for_int n body s = Some s' -> 0 <= k < n ->
  exists t t', body k t = Some t'.
Proof.
  intros Hrun Hk. apply (for_from_ran body (Z.to_nat n) 0 s s' Hrun). lia.
Qed.

End LayoutMore.

(** X2.  For int dimensions rows, cols >= 0 and a row-major buffer with at
    least rows * cols values, [to_col_major] returns a new buffer of
    exactly rows * cols values with cm[j * rows + i] = rm[i * cols + j] for
    every cell; values of the input beyond the first rows * cols are not
    read, and with a zero dimension the result is empty. *)
Theorem to_col_major_entries `{DoubleOps} (rm : list double) rows cols :
  0 <= rows <= INT_MAX -> 0 <= cols <= INT_MAX ->
  rows * cols <= Z.of_nat (length rm) ->
  exists cm,
    to_col_major rm rows cols = Ok cm
    /\ Z.of_nat (length cm) = rows * cols
    /\ forall i j, 0 <= i < rows -> 0 <= j < cols ->
                   vec_get cm (j * rows + i) = vec_get rm (i * cols + j).
Proof.
  intros Hr Hc Hlen.
  destruct (to_col_major_prefix (H0 := ideal_heap) rm rows cols Hr Hc Hlen
              eq_refl)
    as (cm & Hrun & Hcm & Hget).
  exists cm. split; [exact Hrun |]. split; [exact Hcm |].
  intros i j Hi Hj. apply Hget. split; assumption.
Qed.

Lemma to_col_major_entries_witness :
  exists cm,
    to_col_major (H := Exact.ZDouble) [1; 2; 3; 4; 5; 6; 7] 2 3 = Ok cm
    /\ Z.of_nat (length cm) = 2 * 3
    /\ forall i j, 0 <= i < 2 -> 0 <= j < 3 ->
                   vec_get cm (j * 2 + i)
                   = vec_get [1; 2; 3; 4; 5; 6; 7] (i * 3 + j).
Proof.
  apply (to_col_major_entries (H := Exact.ZDouble) [1; 2; 3; 4; 5; 6; 7] 2 3).
  - unfold INT_MAX. lia.
  - unfold INT_MAX. lia.
  - simpl. lia.
Defined.

(** X3.  For int dimensions rows, cols >= 0 and a column-major buffer with
    at least rows * cols values, [to_row_major] returns a new buffer of
    exactly rows * cols values with rm[i * cols + j] = cm[j * rows + i] for
    every cell. *)
Theorem to_row_major_entries `{DoubleOps} (cm : list double) rows cols :
  0 <= rows <= INT_MAX -> 0 <= cols <= INT_MAX ->
  rows * cols <= Z.of_nat (length cm) ->
  exists rm,
    to_row_major cm rows cols = Ok rm
    /\ Z.of_nat (length rm) = rows * cols
    /\ forall i j, 0 <= i < rows -> 0 <= j < cols ->
                   vec_get rm (i * cols + j) = vec_get cm (j * rows + i).
Proof.
  intros Hr Hc Hlen.
  destruct (to_row_major_prefix (H0 := ideal_heap) cm rows cols Hr Hc Hlen
              eq_refl)
    as (rm & Hrun & Hrm & Hget).
  exists rm. split; [exact Hrun |]. split; [exact Hrm |].
  intros i j Hi Hj. apply Hget. split; assumption.
Qed.

Lemma to_row_major_entries_witness :
  exists rm,
    to_row_major (H := Exact.ZDouble) [1; 4; 2; 5; 3; 6] 2 3 = Ok rm
    /\ Z.of_nat (length rm) = 2 * 3
    /\ forall i j, 0 <= i < 2 -> 0 <= j < 3 ->
                   vec_get rm (i * 3 + j)
                   = vec_get [1; 4; 2; 5; 3; 6] (j * 2 + i).
Proof.
  apply (to_row_major_entries (H := Exact.ZDouble) [1; 4; 2; 5; 3; 6] 2 3).
  - unfold INT_MAX. lia.
  - unfold INT_MAX. lia.
  - simpl. lia.
Defined.

(** X4.  The round trip in the other direction: a column-major buffer of
    rows * cols values converted to row-major and back is the buffer
    itself. *)
Theorem layout_round_trip_back `{DoubleOps} (cm : list double) (r c : Z) :
  0 <= r <= INT_MAX -> 0 <= c <= INT_MAX ->
  Z.of_nat (length cm) = r * c ->
  exists rm,
    to_row_major cm r c = Ok rm /\ to_col_major rm r c = Ok cm.
Proof.
  intros Hr Hc Hlen.
  destruct (to_row_major_spec (H0 := ideal_heap) cm r c Hr Hc Hlen eq_refl)
    as (rm & Hrm & Hlrm & Hget).
  destruct (to_col_major_spec (H0 := ideal_heap) rm r c Hr Hc Hlrm eq_refl)
    as (cm' & Hcm & Hlcm & Hget').
  exists rm. split; [exact Hrm |]. rewrite Hcm. f_equal.
  apply (row_major_ext cm' cm c r); [lia | lia | lia | lia |].
  intros j i [Hj Hi].
  rewrite (Hget' i j) by (split; assumption).
  apply Hget. split; assumption.
Qed.

Lemma layout_round_trip_back_witness :
  exists rm,
    to_row_major (H := Exact.ZDouble) [1; 4; 2; 5; 3; 6] 2 3 = Ok rm
    /\ to_col_major (H := Exact.ZDouble) rm 2 3 = Ok [1; 4; 2; 5; 3; 6].
Proof.
  apply (layout_round_trip_back (H := Exact.ZDouble) [1; 4; 2; 5; 3; 6] 2 3).
  - unfold INT_MAX. lia.
  - unfold INT_MAX. lia.
  - reflexivity.
Defined.

(** X5.  The two adapters are one transposition: converting a rows x cols
    row-major buffer to column-major gives the same buffer as converting
    it, read as a cols x rows column-major buffer, to row-major. *)
Theorem to_col_major_is_to_row_major_swapped `{DoubleOps}
  (buf : list double) rows cols :
  0 <= rows <= INT_MAX -> 0 <= cols <= INT_MAX ->
  rows * cols <= Z.of_nat (length buf) ->
  to_col_major buf rows cols = to_row_major buf cols rows
  /\ exists out, to_col_major buf rows cols = Ok out.
Proof.
  intros Hr Hc Hlen.
  destruct (to_col_major_prefix (H0 := ideal_heap) buf rows cols Hr Hc Hlen
              eq_refl)
    as (cm & Hcm & Hlcm & Hget).
  destruct (to_row_major_prefix (H0 := ideal_heap) buf cols rows Hc Hr)
    as (rm & Hrm & Hlrm & Hget'); [lia | reflexivity |].
  split; [| eauto]. rewrite Hcm, Hrm. f_equal.
  apply (row_major_ext cm rm cols rows); [lia | lia | lia | lia |].
  intros j i [Hj Hi].
  rewrite (Hget i j) by (split; assumption).
  rewrite (Hget' j i) by (split; assumption).
  reflexivity.
Qed.

Lemma to_col_major_is_to_row_major_swapped_witness :
  to_col_major (H := Exact.ZDouble) [1; 2; 3; 4; 5; 6] 2 3
  = to_row_major (H := Exact.ZDouble) [1; 2; 3; 4; 5; 6] 3 2
  /\ exists out,
       to_col_major (H := Exact.ZDouble) [1; 2; 3; 4; 5; 6] 2 3 = Ok out.
Proof.
  apply (to_col_major_is_to_row_major_swapped (H := Exact.ZDouble)
           [1; 2; 3; 4; 5; 6] 2 3).
  - unfold INT_MAX. lia.
  - unfold INT_MAX. lia.
  - simpl. lia.
Defined.

(** X6.  The adapters do not check the size of their input: for positive
    int dimensions and a buffer with fewer than rows * cols values, each of
    them first creates its result of rows * cols values, which throws the
    exception of the heap when the heap refuses it, and otherwise reads
    past the end of the buffer, which is undefined behaviour. *)
Theorem layout_short_buffer_undefined `{DoubleOps} `{Heap}
  (buf : list double) rows cols :
  0 < rows <= INT_MAX -> 0 < cols <= INT_MAX ->
  Z.of_nat (length buf) < rows * cols ->
  to_col_major buf rows cols
  = match vector_refused (extent rows cols) with
    | Some what => Throw what
    | None => Undefined
    end
  /\ to_row_major buf rows cols
     = match vector_refused (extent rows cols) with
       | Some what => Throw what
       | None => Undefined
       end.
Proof.
  intros Hr Hc Hlen.
  assert (Cr : is_count rows) by (unfold is_count; lia).
  assert (Cc : is_count cols) by (unfold is_count; lia).
  assert (Hlast : in_grid rows cols (rows - 1) (cols - 1))
    by (unfold in_grid; lia).
  unfold to_col_major, to_row_major, vec_create.
  destruct (vector_refused (extent rows cols)) as [what |];
    [split; reflexivity |].
  cbn [mbind outcome_bind]. split.
  - match goal with
    | |- out_ub ?loop = _ => destruct loop as [cm |] eqn:Hrun; [| reflexivity]
    end.
    exfalso.
    destruct (for_int_ran _ _ _ _ (rows - 1) Hrun) as (t & t' & Hrow); [lia |].
    destruct (for_int_ran _ _ _ _ (cols - 1) Hrow) as (u & u' & Hcell); [lia |].
    destruct (grid_row_major rows cols _ _ Cr Cc Hlast) as [E _].
    rewrite E in Hcell.
    destruct (vec_get buf ((rows - 1) * cols + (cols - 1))) as [x |] eqn:Hx;
      [| discriminate].
    unfold vec_get in Hx.
    destruct (0 <=? (rows - 1) * cols + (cols - 1)); [| discriminate].
    apply lookup_lt_Some in Hx. nia.
  - match goal with
    | |- out_ub ?loop = _ => destruct loop as [rm |] eqn:Hrun; [| reflexivity]
    end.
    exfalso.
    destruct (for_int_ran _ _ _ _ (rows - 1) Hrun) as (t & t' & Hrow); [lia |].
    destruct (for_int_ran _ _ _ _ (cols - 1) Hrow) as (u & u' & Hcell); [lia |].
    destruct (grid_col_major rows cols _ _ Cr Cc Hlast) as [E _].
    rewrite E in Hcell.
    destruct (vec_get buf ((cols - 1) * rows + (rows - 1))) as [x |] eqn:Hx;
      [| discriminate].
    unfold vec_get in Hx.
    destruct (0 <=? (cols - 1) * rows + (rows - 1)); [| discriminate].
    apply lookup_lt_Some in Hx. nia.
Qed.

Lemma layout_short_buffer_undefined_witness :
  (to_col_major (H := Exact.ZDouble) (H0 := ideal_heap) [1; 2; 3; 4; 5] 2 3
   = Undefined
   /\ to_row_major (H := Exact.ZDouble) (H0 := ideal_heap) [1; 2; 3; 4; 5] 2 3
      = Undefined)
  /\ (to_col_major (H := Exact.ZDouble) (H0 := libstdcxx_heap (2 ^ 32))
        [1; 2; 3; 4; 5] 1073741824 1073741824
      = Throw "cannot create std::vector larger than max_size()"
      /\ to_row_major (H := Exact.ZDouble) (H0 := libstdcxx_heap (2 ^ 32))
           [1; 2; 3; 4; 5] 1073741824 1073741824
         = Throw "cannot create std::vector larger than max_size()").
Proof.
  split.
  - apply (layout_short_buffer_undefined (H := Exact.ZDouble)
             (H0 := ideal_heap) [1; 2; 3; 4; 5] 2 3).
    + unfold INT_MAX. lia.
    + unfold INT_MAX. lia.
    + simpl. lia.
  - apply (layout_short_buffer_undefined (H := Exact.ZDouble)
             (H0 := libstdcxx_heap (2 ^ 32)) [1; 2; 3; 4; 5]
             1073741824 1073741824).
    + unfold INT_MAX. lia.
    + unfold INT_MAX. lia.
    + simpl. lia.
Defined.

(** X7.  [write_matrix_row_major] does not check the size of the matrix
    either: for positive int dimensions and a buffer with fewer than
    rows * cols values it reads past the end of the buffer. *)
Theorem write_short_buffer_undefined `{DoubleOps} (out : ostream)
  (rm : list double) rows cols :
  0 < rows <= INT_MAX -> 0 < cols <= INT_MAX ->
  Z.of_nat (length rm) < rows * cols ->
  write_matrix_row_major out rm rows cols = None.
Proof.
  intros Hr Hc Hlen.
  assert (Cr : is_count rows) by (unfold is_count; lia).
  assert (Cc : is_count cols) by (unfold is_count; lia).
  assert (Hlast : in_grid rows cols (rows - 1) (cols - 1))
    by (unfold in_grid; lia).
  destruct (write_matrix_row_major out rm rows cols) as [out' |] eqn:Hrun;
    [| reflexivity].
  exfalso. unfold write_matrix_row_major in Hrun.
  destruct (for_int_ran _ _ _ _ (rows - 1) Hrun) as (t & t' & Hrow); [lia |].
  destruct (for_int cols _ t) as [t1 |] eqn:Hcells; [| discriminate].
  destruct (for_int_ran _ _ _ _ (cols - 1) Hcells) as (u & u' & Hcell); [lia |].
  destruct (grid_row_major rows cols _ _ Cr Cc Hlast) as [E _].
  rewrite E in Hcell.
  destruct (vec_get rm ((rows - 1) * cols + (cols - 1))) as [x |] eqn:Hx;
    [| discriminate].
  unfold vec_get in Hx.
  destruct (0 <=? (rows - 1) * cols + (cols - 1)); [| discriminate].
  apply lookup_lt_Some in Hx. nia.
Qed.

Lemma write_short_buffer_undefined_witness :
  write_matrix_row_major (H := Exact.ZDouble) os_open [1; 2; 3] 2 2 = None.
Proof.
  apply (write_short_buffer_undefined (H := Exact.ZDouble) os_open [1; 2; 3] 2 2).
  - unfold INT_MAX. lia.
  - unfold INT_MAX. lia.
  - simpl. lia.
Defined.

(** ** Reading a matrix *)

(** X8.  For int dimensions rows, cols >= 0, when the next rows * cols
    extractions of a double succeed, [read_matrix_row_major] returns
    exactly their values, in the order of extraction, as the row-major
    matrix; it makes rows * cols extractions and leaves the stream right
    after the last value, so that what follows is not looked at. *)
Theorem read_matrix_in_order `{DoubleOps} rows cols name (w : world)
  (M : list double) rest :
  0 <= rows <= INT_MAX -> 0 <= cols <= INT_MAX ->
  get_doubles (Z.to_nat (rows * cols)) (w_fin w) = (M, rest, true) ->
  read_matrix_row_major rows cols name w =
    (Ok M,
     {| w_fin := rest;
        w_trace :=
          w_trace w ++ replicate (Z.to_nat (rows * cols)) EvGetDouble |})
  /\ Z.of_nat (length M) = rows * cols.
Proof.
  intros Hr Hc Hget. split.
  - apply (read_matrix_row_major_ok (H1 := ideal_heap));
      first [assumption | reflexivity].
  - rewrite (get_doubles_length _ _ _ _ Hget). nia.
Qed.

Lemma read_matrix_in_order_witness :
  read_matrix_row_major (H := Exact.ZDouble) 2 2 "A"
    {| w_fin := "1 2 3 4 5"; w_trace := [] |}
  = (Ok [1; 2; 3; 4],
     {| w_fin := " 5";
        w_trace := [] ++ replicate (Z.to_nat (2 * 2)) EvGetDouble |})
  /\ Z.of_nat (length [1; 2; 3; 4]) = 2 * 2.
Proof.
  apply (read_matrix_in_order (H := Exact.ZDouble) 2 2 "A"
           {| w_fin := "1 2 3 4 5"; w_trace := [] |} [1; 2; 3; 4] " 5").
  - unfold INT_MAX. lia.
  - unfold INT_MAX. lia.
  - reflexivity.
Defined.

(** X9.  [read_matrix_row_major] first creates the vector of
    rows * cols values; when the heap refuses it, the exception of the heap
    leaves the function before anything is read.  Otherwise, when the
    extraction number pos (from 0) is the first that fails,
    [read_matrix_row_major] throws at once the exception whose message
    names the matrix and the cell (pos / cols, pos mod cols); it has made
    pos + 1 extractions and makes no other, and the stream is left where
    the failed extraction stopped, past the white space and the characters
    it had accepted. *)
Theorem read_matrix_stops_at_first_failure `{DoubleOps} `{Heap} rows cols
  name (w : world) (vals : list double) rest :
  0 <= rows <= INT_MAX -> 0 <= cols <= INT_MAX ->
  get_doubles (Z.to_nat (rows * cols)) (w_fin w) = (vals, rest, false) ->
  read_matrix_row_major rows cols name w =
    match vector_refused (extent rows cols) with
    | Some what => (Throw what, w)
    | None =>
        (Throw (read_error name (Z.of_nat (length vals) / cols)
                  (Z.of_nat (length vals) mod cols)),
         {| w_fin := istream_fail_double rest;
            w_trace :=
              w_trace w ++ replicate (S (length vals)) EvGetDouble |})
    end.
Proof.
  intros Hr Hc Hget.
  destruct (vector_refused (extent rows cols)) as [what |] eqn:Hheap.
  - apply read_matrix_row_major_refused. exact Hheap.
  - destruct (read_matrix_row_major_failed rows cols name w vals rest Hr Hc
                Hheap Hget) as (i & j & Hij & Hlen & Hrun).
    destruct (grid_position i j cols (Z.of_nat (length vals))) as [-> ->];
      [apply Hij | exact Hlen | exact Hrun].
Qed.

Lemma read_matrix_stops_at_first_failure_witness :
  read_matrix_row_major (H := Exact.ZDouble) (H0 := ideal_heap) 2 2 "A"
    {| w_fin := "1 2 3 x 5"; w_trace := [] |}
  = (Throw (read_error "A" (Z.of_nat (length [1; 2; 3]) / 2)
              (Z.of_nat (length [1; 2; 3]) mod 2)),
     {| w_fin := "x 5";
        w_trace := [] ++ replicate (S (length [1; 2; 3])) EvGetDouble |}).
Proof.
  apply (read_matrix_stops_at_first_failure (H := Exact.ZDouble)
           (H0 := ideal_heap) 2 2 "A"
           {| w_fin := "1 2 3 x 5"; w_trace := [] |} [1; 2; 3] " x 5").
  - unfold INT_MAX. lia.
  - unfold INT_MAX. lia.
  - reflexivity.
Defined.

(** ** The runs of the matrix product program *)

Section RunsMore.
Context `{Lapack}.

Lemma files_kept_app fs (u v : list event) :
  files_kept fs (u ++ v) = files_kept fs u ++ files_kept fs v.
Proof. unfold files_kept. rewrite outputs_written_app. apply map_app. Qed.

Lemma files_kept_reading fs p a b : files_kept fs (reading_trace p a b) = [].
Proof. unfold files_kept. rewrite outputs_written_reading. reflexivity. Qed.

Lemma cout_texts_app (u v : list event) :
  cout_texts (u ++ v) = cout_texts u ++ cout_texts v.
Proof. apply omap_app. Qed.

Lemma cout_texts_reading p a b : cout_texts (reading_trace p a b) = [].
Proof.
  unfold reading_trace, cout_texts.
  rewrite !omap_app, !omap_replicate_None by reflexivity. reflexivity.
Qed.

End RunsMore.

#[local] Hint Rewrite @cout_texts_app @cout_texts_reading
  @files_kept_app @files_kept_reading : trace.

(** X10.  Every run of the matrix product program ends with the exit
    status 0, 1 or 2, whatever the arguments, the files and the content of
    the input: no run indexes a vector out of its bounds and no exception
    leaves [main]. *)
Theorem main_status_defined `{Lapack} `{Heap} argv fs :
  (main argv fs).1 = Ok 0 \/ (main argv fs).1 = Ok 1
  \/ (main argv fs).1 = Ok 2.
Proof.
  destruct (main_cases argv fs); cbn [fst]; auto.
  destruct (fs_create fs out_path); auto.
Qed.

(** X11.  The exit status is 1 exactly when the program is not given two
    arguments; such a run prints the usage line on the error stream and
    does nothing else: no file is opened. *)
Theorem usage_error `{Lapack} `{Heap} argv fs :
  ((main argv fs).1 = Ok 1 <-> length argv <> 3%nat)
  /\ (length argv <> 3%nat ->
      w_trace (main argv fs).2 = [EvCerr (usage_line (nth 0 argv ""))]).
Proof.
  split; [split |].
  - intros Hstatus.
    destruct (main_cases argv fs)
      as [Hlen | | | | | prog in_path out_path]; cbn [fst] in Hstatus;
      try discriminate Hstatus; [exact Hlen |].
    destruct (fs_create fs out_path); discriminate Hstatus.
  - intros Hlen. rewrite main_usage by exact Hlen. reflexivity.
  - intros Hlen. rewrite main_usage by exact Hlen. reflexivity.
Qed.

Lemma usage_error_witness :
  w_trace (main (H0 := Exact.ZLapack 0) ["matmul"; "in.txt"]
             (Exact.one_file "in.txt" Exact.sample_input)).2
  = [EvCerr (usage_line (nth 0 ["matmul"; "in.txt"] ""))].
Proof.
  apply (proj2 (usage_error (H0 := Exact.ZLapack 0) ["matmul"; "in.txt"]
                  (Exact.one_file "in.txt" Exact.sample_input))).
  simpl. lia.
Defined.

(** X12.  When the input file cannot be opened, the run ends with status 2
    after the message that names the file; nothing is read, DGEMM is not
    called and the output file is not opened. *)
Theorem missing_input_reported `{Lapack} `{Heap} prog in_path out_path fs :
  fs_read fs in_path = None ->
  main [prog; in_path; out_path] fs =
    (Ok 2,
     {| w_fin := "";
        w_trace :=
          [EvOpenInput in_path;
           EvCerr ("Error: No se pudo abrir el archivo de entrada: "
                   +:+ in_path +:+ nl)] |}).
Proof.
  intros Hread. rewrite main_no_input by exact Hread.
  unfold error_line. rewrite string_app_assoc. reflexivity.
Qed.

Lemma missing_input_reported_witness :
  main (H0 := Exact.ZLapack 0) ["matmul"; "none.txt"; "out.txt"]
    (Exact.one_file "in.txt" Exact.sample_input)
  = (Ok 2,
     {| w_fin := "";
        w_trace :=
          [EvOpenInput "none.txt";
           EvCerr ("Error: No se pudo abrir el archivo de entrada: "
                   +:+ "none.txt" +:+ nl)] |}).
Proof.
  apply (missing_input_reported (H0 := Exact.ZLapack 0)
           "matmul" "none.txt" "out.txt").
  reflexivity.
Defined.

(** X13.  When the input is accepted and the output file cannot be opened,
    the run ends with status 2 and the message that names the output file;
    by then DGEMM has been called once; nothing is written and the line
    [OK] is not printed. *)
Theorem output_failure_reported `{Lapack} prog in_path out_path fs text
  m n l A_rm B_rm rest :
  fs_read fs in_path = Some text ->
  parses_as text m n l A_rm B_rm rest ->
  fs_create fs out_path = false ->
  exists w A B,
    main [prog; in_path; out_path] fs = (Ok 2, w)
    /\ cerr_texts (w_trace w)
       = [error_line ("No se pudo abrir el archivo de salida: " +:+ out_path)]
    /\ to_col_major A_rm m n = Ok A
    /\ to_col_major B_rm n l = Ok B
    /\ dgemm_calls (w_trace w) = [product_call m n l A B]
    /\ outputs_opened (w_trace w) = [out_path]
    /\ outputs_written (w_trace w) = []
    /\ cout_texts (w_trace w) = [].
Proof.
  intros Hread Hparse Hcreate.
  assert (Hheap : vectors_created m n l) by (repeat split; reflexivity).
  destruct (main_product prog in_path out_path fs text m n l A_rm B_rm rest
              Hread Hparse Hheap) as (A & B & C_rm & EA & EB & EC & Hrun).
  rewrite Hcreate in Hrun.
  eexists _, A, B. split; [exact Hrun |]. cbn [w_trace].
  autorewrite with trace. repeat split; assumption || reflexivity.
Qed.

Lemma output_failure_reported_witness :
  exists w A B,
    main (H0 := Exact.ZLapack 0) ["matmul"; "in.txt"; "out.txt"]
      {| fs_read := fs_read (Exact.one_file "in.txt" Exact.sample_input);
         fs_create := fun _ => false;
         fs_keeps := fun _ written => written |}
    = (Ok 2, w)
    /\ cerr_texts (w_trace w)
       = [error_line ("No se pudo abrir el archivo de salida: " +:+ "out.txt")]
    /\ to_col_major (H := Exact.ZDouble) [1; 2; 3; 1; 1; 1] 2 3 = Ok A
    /\ to_col_major (H := Exact.ZDouble) [2; 3; 3; 4; 5; 6] 3 2 = Ok B
    /\ dgemm_calls (w_trace w) = [product_call 2 3 2 A B]
    /\ outputs_opened (w_trace w) = ["out.txt"]
    /\ outputs_written (w_trace w) = []
    /\ cout_texts (w_trace w) = [].
Proof.
  apply (output_failure_reported (H0 := Exact.ZLapack 0)
           "matmul" "in.txt" "out.txt" _ Exact.sample_input 2 3 2
           [1; 2; 3; 1; 1; 1] [2; 3; 3; 4; 5; 6] nl).
  - reflexivity.
  - exists (String.substring 5 31 Exact.sample_input),
      (String.substring 17 19 Exact.sample_input).
    split; [vm_compute; reflexivity |].
    split; [lia |]. split; [lia |]. split; [lia |].
    split; vm_compute; reflexivity.
  - reflexivity.
Defined.

(** X14.  A run has status 0 exactly when it has sent the text of the
    result to the stream of the output file: a run with status 0 has sent
    one text, to the file named by the second argument, has printed the
    line [OK] with the dimensions of the result and nothing on the error
    stream; any other run has sent nothing to a file, printed nothing on
    [std::cout] and exactly one message on the error stream.  The stream
    is not tested after the writing: the file holds what the device keeps
    of the text, and the status does not depend on it. *)
Theorem success_iff_output_sent `{Lapack} `{Heap} argv fs :
  ((main argv fs).1 = Ok 0 ->
   exists text m l,
     outputs_written (w_trace (main argv fs).2) = [(nth 2 argv "", text)]
     /\ files_kept fs (w_trace (main argv fs).2)
        = [(nth 2 argv "", fs_keeps fs (nth 2 argv "") text)]
     /\ cout_texts (w_trace (main argv fs).2) = [ok_line m l]
     /\ cerr_texts (w_trace (main argv fs).2) = [])
  /\ ((main argv fs).1 <> Ok 0 ->
      outputs_written (w_trace (main argv fs).2) = []
      /\ files_kept fs (w_trace (main argv fs).2) = []
      /\ cout_texts (w_trace (main argv fs).2) = []
      /\ length (cerr_texts (w_trace (main argv fs).2)) = 1%nat).
Proof.
  destruct (main_cases argv fs)
    as [Hlen
       | prog in_path out_path -> Hread
       | prog in_path out_path text -> Hread Hrej
       | prog in_path out_path text what count rest -> Hread Hrefused
       | prog in_path out_path text name cols pos rest count -> Hread Hbad
           Hcreated
       | prog in_path out_path text m n l A_rm B_rm rest A B C_rm
           -> Hread Hparse Hheap EA EB EC];
    cbn [fst snd w_trace]; autorewrite with trace;
    try (split; [intros Hok; discriminate Hok
                | intros _; repeat split; reflexivity]).
  destruct (fs_create fs out_path); cbn.
  - split; [intros _ | intros Hne; contradiction Hne; reflexivity].
    exists (output_text C_rm m l), m, l. repeat split; reflexivity.
  - split; [intros Hok; discriminate Hok
           | intros _; repeat split; reflexivity].
Qed.

Lemma success_iff_output_sent_witness :
  exists text m l,
    outputs_written
      (w_trace (main (H0 := Exact.ZLapack 0) ["matmul"; "in.txt"; "out.txt"]
                  (Exact.full_device "in.txt" Exact.sample_input)).2)
    = [(nth 2 ["matmul"; "in.txt"; "out.txt"] "", text)]
    /\ files_kept (Exact.full_device "in.txt" Exact.sample_input)
         (w_trace (main (H0 := Exact.ZLapack 0) ["matmul"; "in.txt"; "out.txt"]
                     (Exact.full_device "in.txt" Exact.sample_input)).2)
       = [(nth 2 ["matmul"; "in.txt"; "out.txt"] "",
           fs_keeps (Exact.full_device "in.txt" Exact.sample_input)
             (nth 2 ["matmul"; "in.txt"; "out.txt"] "") text)]
    /\ cout_texts
         (w_trace (main (H0 := Exact.ZLapack 0) ["matmul"; "in.txt"; "out.txt"]
                     (Exact.full_device "in.txt" Exact.sample_input)).2)
       = [ok_line m l]
    /\ cerr_texts
         (w_trace (main (H0 := Exact.ZLapack 0) ["matmul"; "in.txt"; "out.txt"]
                     (Exact.full_device "in.txt" Exact.sample_input)).2)
       = [].
Proof.
  apply (proj1 (success_iff_output_sent (H0 := Exact.ZLapack 0)
                  (H1 := ideal_heap)
                  ["matmul"; "in.txt"; "out.txt"]
                  (Exact.full_device "in.txt" Exact.sample_input))).
  vm_compute. reflexivity.
Defined.

(** On a device that keeps nothing of what is written to it, as
    [/dev/full], the run ends with status 0 and the line [OK], and the
    output file is empty. *)
Example full_device_run :
  (main (H0 := Exact.ZLapack 0) ["matmul"; "in.txt"; "out.txt"]
     (Exact.full_device "in.txt" Exact.sample_input)).1 = Ok 0
  /\ cout_texts
       (w_trace (main (H0 := Exact.ZLapack 0) ["matmul"; "in.txt"; "out.txt"]
                   (Exact.full_device "in.txt" Exact.sample_input)).2)
     = [ok_line 2 2]
  /\ files_kept (Exact.full_device "in.txt" Exact.sample_input)
       (w_trace (main (H0 := Exact.ZLapack 0) ["matmul"; "in.txt"; "out.txt"]
                   (Exact.full_device "in.txt" Exact.sample_input)).2)
     = [("out.txt", "")].
Proof. vm_compute. repeat split; reflexivity. Qed.

(** X15.  A run calls DGEMM at most once and opens at most one output
    file, and it opens the output file only as its next action after the
    call of DGEMM: a run that fails before the product is computed leaves
    an existing output file as it was. *)
Theorem output_opened_after_product `{Lapack} `{Heap} argv fs :
  (length (dgemm_calls (w_trace (main argv fs).2)) <= 1)%nat
  /\ (length (outputs_opened (w_trace (main argv fs).2)) <= 1)%nat
  /\ (forall p,
        p ∈ outputs_opened (w_trace (main argv fs).2) ->
        p = nth 2 argv ""
        /\ exists before call after,
             w_trace (main argv fs).2
             = before ++ EvDgemm call :: EvOpenOutput p :: after
             /\ dgemm_calls before = [] /\ outputs_opened before = []
             /\ dgemm_calls after = [] /\ outputs_opened after = []).
Proof.
  destruct (main_cases argv fs)
    as [Hlen
       | prog in_path out_path -> Hread
       | prog in_path out_path text -> Hread Hrej
       | prog in_path out_path text what count rest -> Hread Hrefused
       | prog in_path out_path text name cols pos rest count -> Hread Hbad
           Hcreated
       | prog in_path out_path text m n l A_rm B_rm rest A B C_rm
           -> Hread Hparse Hheap EA EB EC];
    cbn [snd w_trace]; autorewrite with trace;
    try (cbn; split; [lia | split; [lia | intros p Hp; inversion Hp]]).
  assert (Hcalls :
    dgemm_calls
      ([EvDgemm (product_call m n l A B); EvOpenOutput out_path]
       ++ (if fs_create fs out_path
           then [EvWriteOutput out_path (output_text C_rm m l);
                 EvCout (ok_line m l)]
           else [EvCerr (error_line
                           ("No se pudo abrir el archivo de salida: "
                            +:+ out_path))]))
    = [product_call m n l A B]).
  { destruct (fs_create fs out_path); reflexivity. }
  assert (Hopened :
    outputs_opened
      ([EvDgemm (product_call m n l A B); EvOpenOutput out_path]
       ++ (if fs_create fs out_path
           then [EvWriteOutput out_path (output_text C_rm m l);
                 EvCout (ok_line m l)]
           else [EvCerr (error_line
                           ("No se pudo abrir el archivo de salida: "
                            +:+ out_path))]))
    = [out_path]).
  { destruct (fs_create fs out_path); reflexivity. }
  rewrite <- !dgemm_calls_app, <- !outputs_opened_app, Hcalls, Hopened.
  cbn. split; [lia |]. split; [lia |].
  intros p Hp. apply list_elem_of_singleton in Hp. subst p.
  split; [reflexivity |].
  eexists (reading_trace in_path 3 _), (product_call m n l A B), _.
  split; [reflexivity |].
  autorewrite with trace.
  destruct (fs_create fs out_path); repeat split; reflexivity.
Qed.

Lemma output_opened_after_product_witness :
  "out.txt" = nth 2 ["matmul"; "in.txt"; "out.txt"] ""
  /\ exists before call after,
       w_trace (main (H0 := Exact.ZLapack 0) ["matmul"; "in.txt"; "out.txt"]
                  (Exact.one_file "in.txt" Exact.sample_input)).2
       = before ++ EvDgemm call :: EvOpenOutput "out.txt" :: after
       /\ dgemm_calls before = [] /\ outputs_opened before = []
       /\ dgemm_calls after = [] /\ outputs_opened after = [].
Proof.
  apply (proj2 (proj2 (output_opened_after_product (H0 := Exact.ZLapack 0)
                         ["matmul"; "in.txt"; "out.txt"]
                         (Exact.one_file "in.txt" Exact.sample_input)))).
  vm_compute. apply list_elem_of_here.
Defined.

(** X16.  A run on an accepted input makes exactly m * n + n * l
    extractions of a matrix entry and leaves unread whatever follows the
    last entry of B: content after the two matrices is neither checked nor
    reported. *)
Theorem trailing_input_ignored `{Lapack} prog in_path out_path fs text
  m n l A_rm B_rm rest :
  fs_read fs in_path = Some text ->
  parses_as text m n l A_rm B_rm rest ->
  entries_read (w_trace (main [prog; in_path; out_path] fs).2)
  = (Z.to_nat (m * n) + Z.to_nat (n * l))%nat
  /\ w_fin (main [prog; in_path; out_path] fs).2 = rest
  /\ ((main [prog; in_path; out_path] fs).1
      = if fs_create fs out_path then Ok 0 else Ok 2).
Proof.
  intros Hread Hparse.
  assert (Hheap : vectors_created m n l) by (repeat split; reflexivity).
  destruct (main_product prog in_path out_path fs text m n l A_rm B_rm rest
              Hread Hparse Hheap) as (A & B & C_rm & EA & EB & EC & ->).
  cbn [fst snd w_trace w_fin]. autorewrite with trace.
  split; [| split; reflexivity].
  destruct (fs_create fs out_path); cbn; lia.
Qed.

Lemma trailing_input_ignored_witness :
  entries_read
    (w_trace (main (H0 := Exact.ZLapack 0) ["matmul"; "in.txt"; "out.txt"]
                (Exact.one_file "in.txt"
                   (Exact.sample_input +:+ "7 eight 9"))).2)
  = (Z.to_nat (2 * 3) + Z.to_nat (3 * 2))%nat
  /\ w_fin (main (H0 := Exact.ZLapack 0) ["matmul"; "in.txt"; "out.txt"]
              (Exact.one_file "in.txt"
                 (Exact.sample_input +:+ "7 eight 9"))).2
     = nl +:+ "7 eight 9"
  /\ ((main (H0 := Exact.ZLapack 0) ["matmul"; "in.txt"; "out.txt"]
         (Exact.one_file "in.txt" (Exact.sample_input +:+ "7 eight 9"))).1
      = if fs_create (Exact.one_file "in.txt"
                        (Exact.sample_input +:+ "7 eight 9")) "out.txt"
        then Ok 0 else Ok 2).
Proof.
  apply (trailing_input_ignored (H0 := Exact.ZLapack 0)
           "matmul" "in.txt" "out.txt" _
           (Exact.sample_input +:+ "7 eight 9") 2 3 2
           [1; 2; 3; 1; 1; 1] [2; 3; 3; 4; 5; 6] (nl +:+ "7 eight 9")).
  - reflexivity.
  - exists (String.substring 5 40 (Exact.sample_input +:+ "7 eight 9")),
      (String.substring 17 40 (Exact.sample_input +:+ "7 eight 9")).
    split; [vm_compute; reflexivity |].
    split; [lia |]. split; [lia |]. split; [lia |].
    split; vm_compute; reflexivity.
Defined.

(** ** The loops of the SVD program *)

(** X17.  On arrays of at least four entries, the triple loop of the SVD
    program computes the product of the two 2 x 2 row-major matrices: the
    entry (i, j) is the sum over k of X(i,k) * Y(k,j), accumulated from
    0.0 in increasing k. *)
Theorem product_2x2_is_matmul `{DoubleOps} (X Y : list double) :
  (4 <= length X)%nat -> (4 <= length Y)%nat ->
  product_2x2 X Y = Some (matmul_rm 2 2 2 X Y).
Proof.
  intros HX HY.
  destruct X as [| x0 [| x1 [| x2 [| x3 X]]]]; simpl in HX; try lia.
  destruct Y as [| y0 [| y1 [| y2 [| y3 Y]]]]; simpl in HY; try lia.
  cbv. reflexivity.
Qed.

Lemma product_2x2_is_matmul_witness :
  product_2x2 (H := Exact.ZDouble) [1; 2; 3; 4] [5; 6; 7; 8]
  = Some (matmul_rm (H := Exact.ZDouble) 2 2 2 [1; 2; 3; 4] [5; 6; 7; 8]).
Proof.
  apply (product_2x2_is_matmul (H := Exact.ZDouble) [1; 2; 3; 4] [5; 6; 7; 8]);
    simpl; lia.
Defined.

(** X18.  Whatever the comparison of doubles does, the greatest error that
    the SVD program reports is 0.0 or one of the four absolute differences;
    and it is 0.0 when no difference compares greater than 0.0, which is
    the case of an exact reconstruction and also the case of differences
    that are all NaN. *)
Theorem max_abs_error_attained `{DoubleOps} (X Y : list double) :
  (4 <= length X)%nat -> (4 <= length Y)%nat ->
  exists m,
    max_abs_error X Y = Some m
    /\ (m = d_zero \/ exists k, 0 <= k < 4 /\ m = abs_diff X Y k)
    /\ ((forall k, 0 <= k < 4 -> dgt (abs_diff X Y k) d_zero = false) ->
        m = d_zero).
Proof.
  intros HX HY. unfold max_abs_error.
  apply (for_int_inv
           (fun k m =>
              (m = d_zero \/ exists t, 0 <= t < k /\ m = abs_diff X Y t)
              /\ ((forall t, 0 <= t < 4 ->
                             dgt (abs_diff X Y t) d_zero = false) ->
                  m = d_zero))); [lia | |].
  - split; [left; reflexivity | intros _; reflexivity].
  - intros k m Hk [Hattained Hzero].
    destruct (vec_get_in X k) as [r Hr]; [lia |].
    destruct (vec_get_in Y k) as [o Ho]; [lia |].
    rewrite Hr, Ho. cbn [mbind option_bind].
    eexists. split; [reflexivity |].
    assert (Hdiff : dabs (dsub r o) = abs_diff X Y k).
    { unfold abs_diff. rewrite (entry_get X k r Hr), (entry_get Y k o Ho).
      reflexivity. }
    rewrite Hdiff. split.
    + destruct (dgt (abs_diff X Y k) m).
      * right. exists k. split; [lia | reflexivity].
      * destruct Hattained as [-> | (t & Ht & ->)]; [left; reflexivity |].
        right. exists t. split; [lia | reflexivity].
    + intros Hnone. rewrite (Hzero Hnone), (Hnone k) by lia. reflexivity.
Qed.

Lemma max_abs_error_attained_witness :
  exists m,
    max_abs_error (H := Exact.ZDouble) [1; 2; 3; 4] [1; 2; 3; 4] = Some m
    /\ (m = d_zero
        \/ exists k, 0 <= k < 4
                     /\ m = abs_diff (H := Exact.ZDouble)
                              [1; 2; 3; 4] [1; 2; 3; 4] k)
    /\ ((forall k, 0 <= k < 4 ->
                   dgt (abs_diff (H := Exact.ZDouble)
                          [1; 2; 3; 4] [1; 2; 3; 4] k) d_zero = false) ->
        m = d_zero).
Proof.
  apply (max_abs_error_attained (H := Exact.ZDouble)
           [1; 2; 3; 4] [1; 2; 3; 4]); simpl; lia.
Defined.

(** X19.  The loops that print a 2 x 2 array write each entry
    right-justified in a field of 14 characters and followed by one space,
    the one at the end of a row included, then a newline; the precision
    and the floatfield of the stream are left as they were. *)
Theorem print_square_rows `{DoubleOps} (cout : ostream) (X : list double) :
  (4 <= length X)%nat ->
  print_square cout X 2 2
  = Some
      {| os_items :=
           os_items cout
           ++ concat
                (map (fun i =>
                        concat
                          (map (fun j =>
                                  [right_justified 14
                                     (ostream_fmt_double (os_floatfield cout)
                                        (os_precision cout)
                                        (entry X (i * 2 + j)));
                                   " "])
                             (seqZ 0 2))
                        ++ [nl])
                   (seqZ 0 2));
         os_precision := os_precision cout;
         os_floatfield := os_floatfield cout;
         os_width := 0 |}.
Proof.
  intros HX.
  destruct X as [| x0 [| x1 [| x2 [| x3 X]]]]; simpl in HX; try lia.
  destruct cout as [items prec ff w].
  cbv [print_square for_int for_from Z.to_nat Pos.to_nat Pos.iter_op Nat.add
       mbind option_bind vec_get insertion insert_string insert_double
       insert_manip os_manip os_put os_items os_precision os_floatfield
       os_width].
  cbn [Z.leb Z.mul Z.add Pos.mul Pos.add Z.compare Pos.compare Pos.compare_cont
       Pos.succ].
  f_equal. f_equal. rewrite <- !app_assoc. reflexivity.
Qed.

Lemma print_square_rows_witness :
  print_square (H := Exact.ZDouble) os_open [1; 2; 3; 4] 2 2
  = Some
      {| os_items :=
           os_items os_open
           ++ concat
                (map (fun i =>
                        concat
                          (map (fun j =>
                                  [right_justified 14
                                     (ostream_fmt_double
                                        (DoubleOps := Exact.ZDouble)
                                        (os_floatfield os_open)
                                        (os_precision os_open)
                                        (entry (H := Exact.ZDouble)
                                           [1; 2; 3; 4] (i * 2 + j)));
                                   " "])
                             (seqZ 0 2))
                        ++ [nl])
                   (seqZ 0 2));
         os_precision := os_precision os_open;
         os_floatfield := os_floatfield os_open;
         os_width := 0 |}.
Proof.
  apply (print_square_rows (H := Exact.ZDouble) os_open [1; 2; 3; 4]).
  simpl. lia.
Defined.

(** ** The loops of the fitting programs *)

Section FittingLoops.
Context `{DoubleOps}.

Lemma lookup_insert_same {T : Type} (l : list T) (i : nat) (v : T) :
  (i < length l)%nat -> <[i := v]> l !! i = Some v.
Proof.
  intros Hi. rewrite list_lookup_insert.
  destruct (decide (i = i /\ (i < length l)%nat)) as [_ | Hno];
    [reflexivity | contradiction Hno; split; [reflexivity | exact Hi]].
Qed.

Lemma vec_get_nat {T : Type} (v : list T) (k : Z) :
  0 <= k -> vec_get v k = v !! Z.to_nat k.
Proof.
  intros Hk. unfold vec_get. destruct (Z.leb_spec 0 k); [reflexivity | lia].
Qed.

(** A loop whose body is undefined at one of its indices is undefined. *)
Lemma for_int_undefined {St : Type} (body : Z -> St -> option St) n s k :
  0 <= k < n -> (forall t, body k t = None) -> for_int n body s = None.
Proof.
  intros Hk Hnone. destruct (for_int n body s) as [s' |] eqn:Hrun;
    [| reflexivity].
  destruct (for_int_ran body n s s' k Hrun Hk) as (t & t' & Hbody).
  rewrite Hnone in Hbody. discriminate Hbody.
Qed.

(** Writing one sample line on a stream with no pending field width. *)
Lemma sample_line_put (model : double -> double) items prec ff
  (xi yi : double) :
  {| os_items := items; os_precision := prec; os_floatfield := ff;
     os_width := 0 |}
    << "x=" << xi << "  y=" << yi << "  y_hat=" << model xi
    << "  err=" << dsub (model xi) yi << nl
  = {| os_items :=
         items ++ sample_line (ostream_fmt_double ff prec) model (xi, yi);
       os_precision := prec; os_floatfield := ff; os_width := 0 |}.
Proof.
  cbv [insertion insert_string insert_double os_put os_items os_precision
       os_floatfield os_width].
  f_equal. rewrite <- !app_assoc. reflexivity.
Qed.

(** The loop over the samples of both fitting programs, for a body that
    accumulates the squared error of [model] and prints the sample line. *)
Lemma errors_loop (model : double -> double) (x y : list double)
  (body : Z -> double * ostream -> option (double * ostream)) (m : Z)
  (cout : ostream) :
  0 <= m <= Z.of_nat (length x) -> m <= Z.of_nat (length y) ->
  os_width cout = 0 ->
  (forall i st xi yi,
     vec_get x i = Some xi -> vec_get y i = Some yi ->
     body i st
     = Some (dadd st.1 (dmul (dsub (model xi) yi) (dsub (model xi) yi)),
             st.2 << "x=" << xi << "  y=" << yi << "  y_hat=" << model xi
                  << "  err=" << dsub (model xi) yi << nl)) ->
  for_int m body (d_zero, cout)
  = Some
      (sum_squared_errors (map model (take (Z.to_nat m) x))
         (take (Z.to_nat m) y),
       {| os_items :=
            os_items cout
            ++ concat
                 (map (sample_line
                         (ostream_fmt_double (os_floatfield cout)
                            (os_precision cout)) model)
                    (zip (take (Z.to_nat m) x) (take (Z.to_nat m) y)));
          os_precision := os_precision cout;
          os_floatfield := os_floatfield cout;
          os_width := 0 |}).
Proof.
  intros Hx Hy Hw Hbody.
  destruct cout as [items prec ff w]. cbn [os_width] in Hw. subst w.
  cbn [os_items os_precision os_floatfield].
  destruct (for_int_inv
              (fun k st =>
                 st
                 = (sum_squared_errors (map model (take (Z.to_nat k) x))
                      (take (Z.to_nat k) y),
                    {| os_items :=
                         items
                         ++ concat
                              (map (sample_line (ostream_fmt_double ff prec)
                                      model)
                                 (zip (take (Z.to_nat k) x)
                                    (take (Z.to_nat k) y)));
                       os_precision := prec; os_floatfield := ff;
                       os_width := 0 |}))
              body m
              (d_zero,
               {| os_items := items; os_precision := prec;
                  os_floatfield := ff; os_width := 0 |}))
    as (st & -> & ->); [lia | | | reflexivity].
  - cbn. rewrite app_nil_r. reflexivity.
  - intros k st Hk ->.
    destruct (vec_get_in x k) as [xi Hxi]; [lia |].
    destruct (vec_get_in y k) as [yi Hyi]; [lia |].
    rewrite (Hbody k _ xi yi Hxi Hyi). eexists. split; [reflexivity |].
    cbn [fst snd]. rewrite sample_line_put.
    rewrite vec_get_nat in Hxi, Hyi by lia.
    replace (Z.to_nat (k + 1)) with (S (Z.to_nat k)) by lia.
    rewrite (take_S_r x _ xi Hxi), (take_S_r y _ yi Hyi).
    unfold sum_squared_errors.
    rewrite map_app.
    rewrite !zip_with_app
      by (rewrite ?length_map, !length_take; lia).
    rewrite fold_left_app, map_app, concat_app, <- app_assoc.
    cbn. rewrite ?app_nil_r. reflexivity.
Qed.

(** The design matrix of the line: the samples, then as many ones. *)
Lemma linear_design_loop (x : list double) :
  2 * Z.of_nat (length x) <= INT_MAX ->
  for_int (Z.of_nat (length x))
    (fun i A =>
       xi ← vec_get x (size_of_int i);
       k0 ← (p ← int_mul 0 (Z.of_nat (length x)); int_add p i);
       A ← vec_set A (size_of_int k0) xi;
       k1 ← (p ← int_mul 1 (Z.of_nat (length x)); int_add p i);
       vec_set A (size_of_int k1) d_one)
    (vec_new (extent (Z.of_nat (length x)) 2) d_zero)
  = Some (x ++ replicate (length x) d_one).
Proof.
  intros Hlen. set (n := length x) in *.
  assert (Hext : extent (Z.of_nat n) 2 = Z.of_nat n * 2).
  { apply extent_int; unfold is_count, INT_MAX in *; lia. }
  rewrite Hext.
  destruct (for_int_inv
              (fun k A =>
                 length A = (n + n)%nat
                 /\ forall i, (i < Z.to_nat k)%nat ->
                              A !! i = x !! i
                              /\ A !! (n + i)%nat = Some d_one)
              (fun i A =>
                 xi ← vec_get x (size_of_int i);
                 k0 ← (p ← int_mul 0 (Z.of_nat n); int_add p i);
                 A ← vec_set A (size_of_int k0) xi;
                 k1 ← (p ← int_mul 1 (Z.of_nat n); int_add p i);
                 vec_set A (size_of_int k1) d_one)
              (Z.of_nat n) (vec_new (Z.of_nat n * 2) d_zero))
    as (A & -> & HlenA & HA); [lia | | |].
  - split; [| intros i Hi; lia].
    unfold vec_new. rewrite length_replicate. lia.
  - intros k A Hk [HlenA HA]. cbv beta.
    rewrite (int_offset_fits 0), (int_offset_fits 1) by lia.
    rewrite (size_of_int_small k) by lia.
    destruct (vec_get_in x k) as [xi Hxi]; [fold n; lia |].
    rewrite Hxi. cbn [mbind option_bind].
    rewrite (size_of_int_small (0 * Z.of_nat n + k)) by lia.
    rewrite vec_set_in by lia. cbn [mbind option_bind].
    rewrite (size_of_int_small (1 * Z.of_nat n + k)) by lia.
    rewrite vec_set_in by (rewrite length_insert; lia).
    eexists. split; [reflexivity |].
    rewrite !length_insert. split; [exact HlenA |].
    replace (Z.to_nat (0 * Z.of_nat n + k)) with (Z.to_nat k) by lia.
    replace (Z.to_nat (1 * Z.of_nat n + k)) with (n + Z.to_nat k)%nat by lia.
    rewrite vec_get_nat in Hxi by lia.
    intros i Hi. destruct (decide (i = Z.to_nat k)) as [-> | Hne].
    + split.
      * rewrite list_lookup_insert_ne by lia.
        rewrite lookup_insert_same by lia. symmetry. exact Hxi.
      * apply lookup_insert_same. rewrite length_insert. lia.
    + destruct (HA i) as [HAx HAone]; [lia |].
      rewrite !list_lookup_insert_ne by lia. split; assumption.
  - f_equal. apply list_eq. intros i.
    destruct (decide (i < n)%nat) as [Hi | Hi].
    + rewrite lookup_app_l by exact Hi. apply HA. lia.
    + rewrite lookup_app_r by (fold n; lia). fold n.
      destruct (decide (i < n + n)%nat) as [Hi2 | Hi2].
      * rewrite lookup_replicate_2 by lia.
        replace i with (n + (i - n))%nat at 1 by lia. apply HA. lia.
      * rewrite !lookup_ge_None_2; [reflexivity | |].
        -- rewrite length_replicate. lia.
        -- lia.
Qed.

(** The design matrix of the parabola: the squares of the samples, the
    samples, then as many ones. *)
Lemma quadratic_design_loop (x : list double) :
  3 * Z.of_nat (length x) <= INT_MAX ->
  for_int (Z.of_nat (length x))
    (fun i A =>
       xi ← vec_get x (size_of_int i);
       k0 ← (p ← int_mul 0 (Z.of_nat (length x)); int_add p i);
       A ← vec_set A (size_of_int k0) (dmul xi xi);
       k1 ← (p ← int_mul 1 (Z.of_nat (length x)); int_add p i);
       A ← vec_set A (size_of_int k1) xi;
       k2 ← (p ← int_mul 2 (Z.of_nat (length x)); int_add p i);
       vec_set A (size_of_int k2) d_one)
    (vec_new (extent (Z.of_nat (length x)) 3) d_zero)
  = Some (map (fun xi => dmul xi xi) x ++ x ++ replicate (length x) d_one).
Proof.
  intros Hlen. set (n := length x) in *.
  assert (Hext : extent (Z.of_nat n) 3 = Z.of_nat n * 3).
  { apply extent_int; unfold is_count, INT_MAX in *; lia. }
  rewrite Hext.
  destruct (for_int_inv
              (fun k A =>
                 length A = (n + n + n)%nat
                 /\ forall i, (i < Z.to_nat k)%nat ->
                              A !! i = (fun xi => dmul xi xi) <$> x !! i
                              /\ A !! (n + i)%nat = x !! i
                              /\ A !! (n + n + i)%nat = Some d_one)
              (fun i A =>
                 xi ← vec_get x (size_of_int i);
                 k0 ← (p ← int_mul 0 (Z.of_nat n); int_add p i);
                 A ← vec_set A (size_of_int k0) (dmul xi xi);
                 k1 ← (p ← int_mul 1 (Z.of_nat n); int_add p i);
                 A ← vec_set A (size_of_int k1) xi;
                 k2 ← (p ← int_mul 2 (Z.of_nat n); int_add p i);
                 vec_set A (size_of_int k2) d_one)
              (Z.of_nat n) (vec_new (Z.of_nat n * 3) d_zero))
    as (A & -> & HlenA & HA); [lia | | |].
  - split; [| intros i Hi; lia].
    unfold vec_new. rewrite length_replicate. lia.
  - intros k A Hk [HlenA HA]. cbv beta.
    rewrite (int_offset_fits 0), (int_offset_fits 1), (int_offset_fits 2)
      by lia.
    rewrite (size_of_int_small k) by lia.
    destruct (vec_get_in x k) as [xi Hxi]; [fold n; lia |].
    rewrite Hxi. cbn [mbind option_bind].
    rewrite (size_of_int_small (0 * Z.of_nat n + k)) by lia.
    rewrite vec_set_in by lia. cbn [mbind option_bind].
    rewrite (size_of_int_small (1 * Z.of_nat n + k)) by lia.
    rewrite vec_set_in by (rewrite length_insert; lia).
    cbn [mbind option_bind].
    rewrite (size_of_int_small (2 * Z.of_nat n + k)) by lia.
    rewrite vec_set_in by (rewrite !length_insert; lia).
    eexists. split; [reflexivity |].
    rewrite !length_insert. split; [exact HlenA |].
    replace (Z.to_nat (0 * Z.of_nat n + k)) with (Z.to_nat k) by lia.
    replace (Z.to_nat (1 * Z.of_nat n + k)) with (n + Z.to_nat k)%nat by lia.
    replace (Z.to_nat (2 * Z.of_nat n + k)) with (n + n + Z.to_nat k)%nat
      by lia.
    rewrite vec_get_nat in Hxi by lia.
    intros i Hi. destruct (decide (i = Z.to_nat k)) as [-> | Hne].
    + split; [| split].
      * rewrite !list_lookup_insert_ne by lia.
        rewrite lookup_insert_same by lia. rewrite Hxi. reflexivity.
      * rewrite list_lookup_insert_ne by lia.
        rewrite lookup_insert_same by (rewrite length_insert; lia).
        symmetry. exact Hxi.
      * apply lookup_insert_same. rewrite !length_insert. lia.
    + destruct (HA i) as (HAsq & HAx & HAone); [lia |].
      rewrite !list_lookup_insert_ne by lia. repeat split; assumption.
  - f_equal. apply list_eq. intros i.
    destruct (decide (i < n)%nat) as [Hi | Hi].
    + rewrite lookup_app_l by (rewrite length_map; exact Hi).
      rewrite list_lookup_fmap. apply HA. lia.
    + rewrite lookup_app_r by (rewrite length_map; fold n; lia).
      rewrite length_map. fold n.
      destruct (decide (i < n + n)%nat) as [Hi2 | Hi2].
      * rewrite lookup_app_l by (fold n; lia).
        replace i with (n + (i - n))%nat at 1 by lia. apply HA. lia.
      * rewrite lookup_app_r by (fold n; lia). fold n.
        destruct (decide (i < n + n + n)%nat) as [Hi3 | Hi3].
        -- rewrite lookup_replicate_2 by lia.
           replace i with (n + n + (i - n - n))%nat at 1 by lia.
           apply HA. lia.
        -- rewrite !lookup_ge_None_2; [reflexivity | |].
           ++ rewrite length_replicate. lia.
           ++ lia.
Qed.

(** The right-hand side of the parabola: the first samples of [y], padded
    with zeros to the leading dimension. *)
Lemma quadratic_rhs_loop (y : list double) (m ldb : Z) :
  0 <= m <= ldb -> ldb <= INT_MAX -> m <= Z.of_nat (length y) ->
  for_int m
    (fun i B =>
       yi ← vec_get y (size_of_int i);
       vec_set B (size_of_int i) yi)
    (vec_new (extent ldb 1) d_zero)
  = Some (take (Z.to_nat m) y ++ replicate (Z.to_nat ldb - Z.to_nat m) d_zero).
Proof.
  intros Hm Hldb Hy.
  assert (Hext : extent ldb 1 = ldb).
  { rewrite extent_int; unfold is_count, INT_MAX in *; lia. }
  rewrite Hext.
  destruct (for_int_inv
              (fun k B =>
                 B = take (Z.to_nat k) y
                     ++ replicate (Z.to_nat ldb - Z.to_nat k) d_zero)
              (fun i B =>
                 yi ← vec_get y (size_of_int i);
                 vec_set B (size_of_int i) yi)
              m (vec_new ldb d_zero))
    as (B & -> & ->); [lia | | | reflexivity].
  - cbn. rewrite Nat.sub_0_r. reflexivity.
  - intros k B Hk ->.
    assert (Hcast : size_of_int k = k).
    { unfold size_of_int, SIZE_MOD. apply Z.mod_small.
      unfold INT_MAX in Hldb. lia. }
    rewrite Hcast.
    destruct (vec_get_in y k) as [yi Hyi]; [lia |].
    rewrite Hyi. cbn [mbind option_bind].
    assert (Htake : length (take (Z.to_nat k) y) = Z.to_nat k).
    { rewrite length_take. lia. }
    rewrite vec_set_in
      by (rewrite length_app, length_replicate, Htake; lia).
    eexists. split; [reflexivity |].
    rewrite vec_get_nat in Hyi by lia.
    replace (Z.to_nat (k + 1)) with (S (Z.to_nat k)) by lia.
    rewrite (take_S_r y _ yi Hyi), <- app_assoc.
    replace (Z.to_nat ldb - Z.to_nat k)%nat
      with (S (Z.to_nat ldb - S (Z.to_nat k))) by lia.
    rewrite <- Htake at 1.
    rewrite insert_app_r_alt by lia. rewrite Nat.sub_diag. reflexivity.
Qed.

End FittingLoops.

(** X20.  For m samples with 2 * m at most INT_MAX, so that the offsets
    0 * m + i and 1 * m + i are values of [int], and a [y] of at least m
    values, the line program hands to CBLAS as its design matrix,
    column-major with leading dimension m, the column of the m values of
    [x] followed by a column of m ones; it then solves the 2 x 2 normal
    equations with [LAPACKE_dgesv] on the buffers that [cblas_dgemm] and
    [cblas_dgemv] filled, having called the three routines once each, in
    this order.  With a [y] of fewer than m values, [cblas_dgemv] is
    handed a vector shorter than the m values it reads, and the behaviour
    is undefined. *)
Theorem linear_design_matrix `{Lapack} (x y : list double) :
  2 * Z.of_nat (length x) <= INT_MAX ->
  linear_steps x y
  = (let m := Z.of_nat (length x) in
     let A := x ++ replicate (length x) d_one in
     let ATA :=
       overwrite (vec_new 4 d_zero)
         (cblas_dgemm CblasColMajor CblasTrans CblasNoTrans 2 2 m
            d_one A m A m d_zero (vec_new 4 d_zero) 2) in
     let ATy :=
       overwrite (vec_new 2 d_zero)
         (cblas_dgemv CblasColMajor CblasTrans m 2
            d_one A m y 1 d_zero (vec_new 2 d_zero) 1) in
     let solved := LAPACKE_dgesv LAPACK_COL_MAJOR 2 1 ATA 2 ATy 2 in
     if (length x <=? length y)%nat
     then Some ([R_cblas_dgemm; R_cblas_dgemv; R_dgesv],
                (solved.1, overwrite ATy solved.2))
     else None).
Proof.
  intros Hlen. unfold linear_steps. cbv zeta.
  rewrite int_of_size_fits by lia.
  rewrite (linear_design_loop x Hlen). cbn [mbind option_bind].
  unfold library_reads, call_cblas_dgemm, call_cblas_dgemv, call_dgesv.
  destruct (Nat.leb_spec (length x) (length y));
    destruct (Z.leb_spec (Z.of_nat (length x)) (Z.of_nat (length y)));
    try lia; reflexivity.
Qed.

Lemma linear_design_matrix_witness :
  linear_steps (H0 := Exact.ZLapack 0) [1; 2; 3] [2; 2; 4]
  = (let m := Z.of_nat (length [1; 2; 3]) in
     let one := d_one (H := Exact.ZDouble) in
     let zero := d_zero (H := Exact.ZDouble) in
     let A := [1; 2; 3] ++ replicate (length [1; 2; 3]) one in
     let ATA :=
       overwrite (vec_new 4 zero)
         (cblas_dgemm (Lapack := Exact.ZLapack 0)
            CblasColMajor CblasTrans CblasNoTrans 2 2 m
            one A m A m zero (vec_new 4 zero) 2) in
     let ATy :=
       overwrite (vec_new 2 zero)
         (cblas_dgemv (Lapack := Exact.ZLapack 0) CblasColMajor CblasTrans m 2
            one A m [2; 2; 4] 1 zero (vec_new 2 zero) 1) in
     let solved :=
       LAPACKE_dgesv (Lapack := Exact.ZLapack 0) LAPACK_COL_MAJOR 2 1 ATA 2
         ATy 2 in
     if (length [1; 2; 3] <=? length [2; 2; 4])%nat
     then Some ([R_cblas_dgemm; R_cblas_dgemv; R_dgesv],
                (solved.1, overwrite ATy solved.2))
     else None).
Proof.
  apply (linear_design_matrix (H0 := Exact.ZLapack 0) [1; 2; 3] [2; 2; 4]).
  vm_compute. discriminate.
Defined.

(** The line program on four samples and no value of [y]: undefined. *)
Example linear_short_y_undefined :
  linear_steps (H0 := Exact.ZLapack 0) [1; 2; 3; 4] [] = None.
Proof. reflexivity. Qed.

(** X21.  For m samples held by [x] and [y], the loop of the line program
    returns as SSE the sum of the (a * x_i + b - y_i)^2 over the first m
    samples, accumulated from 0.0 in their order, and prints one line per
    sample, in the format of the stream, with x, y, the prediction and the
    error. *)
Theorem linear_errors_sum `{DoubleOps} (x y : list double) (m : Z)
  (a b : double) (cout : ostream) :
  0 <= m <= Z.of_nat (length x) -> m <= Z.of_nat (length y) ->
  os_width cout = 0 ->
  linear_errors x y m a b cout
  = Some
      (sum_squared_errors (map (line_model a b) (take (Z.to_nat m) x))
         (take (Z.to_nat m) y),
       {| os_items :=
            os_items cout
            ++ concat
                 (map (sample_line
                         (ostream_fmt_double (os_floatfield cout)
                            (os_precision cout)) (line_model a b))
                    (zip (take (Z.to_nat m) x) (take (Z.to_nat m) y)));
          os_precision := os_precision cout;
          os_floatfield := os_floatfield cout;
          os_width := 0 |}).
Proof.
  intros Hx Hy Hw. unfold linear_errors.
  apply errors_loop; [exact Hx | exact Hy | exact Hw |].
  intros i st xi yi Hxi Hyi. rewrite Hxi, Hyi. reflexivity.
Qed.

Lemma linear_errors_sum_witness :
  linear_errors (H := Exact.ZDouble) [1; 2; 3] [2; 2; 4] 3 1 1 os_open
  = Some
      (sum_squared_errors (H := Exact.ZDouble)
         (map (line_model (H := Exact.ZDouble) 1 1)
            (take (Z.to_nat 3) [1; 2; 3]))
         (take (Z.to_nat 3) [2; 2; 4]),
       {| os_items :=
            os_items os_open
            ++ concat
                 (map (sample_line (H := Exact.ZDouble)
                         (ostream_fmt_double (DoubleOps := Exact.ZDouble)
                            (os_floatfield os_open) (os_precision os_open))
                         (line_model (H := Exact.ZDouble) 1 1))
                    (zip (take (Z.to_nat 3) [1; 2; 3])
                       (take (Z.to_nat 3) [2; 2; 4])));
          os_precision := os_precision os_open;
          os_floatfield := os_floatfield os_open;
          os_width := 0 |}).
Proof.
  apply (linear_errors_sum (H := Exact.ZDouble) [1; 2; 3] [2; 2; 4] 3 1 1
           os_open).
  - simpl. lia.
  - simpl. lia.
  - reflexivity.
Defined.

Section FittingReports.
Context `{DoubleOps}.

Lemma os_put_plain items prec ff (s : string) :
  os_put {| os_items := items; os_precision := prec; os_floatfield := ff;
            os_width := 0 |} s
  = {| os_items := items ++ [s]; os_precision := prec; os_floatfield := ff;
       os_width := 0 |}.
Proof. reflexivity. Qed.

Lemma quadratic_errors_loop (x y : list double) (a b c : double)
  (cout : ostream) :
  (length x <= length y)%nat -> os_width cout = 0 ->
  quadratic_errors x y a b c cout
  = Some
      (sum_squared_errors (map (parabola_model a b c) x) (take (length x) y),
       {| os_items :=
            os_items cout
            ++ concat
                 (map (sample_line
                         (ostream_fmt_double (os_floatfield cout)
                            (os_precision cout)) (parabola_model a b c))
                    (zip x (take (length x) y)));
          os_precision := os_precision cout;
          os_floatfield := os_floatfield cout;
          os_width := 0 |}).
Proof.
  intros Hy Hw. unfold quadratic_errors.
  rewrite (errors_loop (parabola_model a b c) x y _ (Z.of_nat (length x)) cout);
    [| lia | lia | exact Hw |].
  - rewrite Nat2Z.id, (take_ge x) by lia. reflexivity.
  - intros i st xi yi Hxi Hyi. rewrite Hxi, Hyi. reflexivity.
Qed.

Lemma linear_errors_loop (x y : list double) (a b : double)
  (cout : ostream) :
  (length x <= length y)%nat -> os_width cout = 0 ->
  linear_errors x y (Z.of_nat (length x)) a b cout
  = Some
      (sum_squared_errors (map (line_model a b) x) (take (length x) y),
       {| os_items :=
            os_items cout
            ++ concat
                 (map (sample_line
                         (ostream_fmt_double (os_floatfield cout)
                            (os_precision cout)) (line_model a b))
                    (zip x (take (length x) y)));
          os_precision := os_precision cout;
          os_floatfield := os_floatfield cout;
          os_width := 0 |}).
Proof.
  intros Hy Hw. unfold linear_errors.
  rewrite (errors_loop (line_model a b) x y _ (Z.of_nat (length x)) cout);
    [| lia | lia | exact Hw |].
  - rewrite Nat2Z.id, (take_ge x) by lia. reflexivity.
  - intros i st xi yi Hxi Hyi. rewrite Hxi, Hyi. reflexivity.
Qed.

Lemma vec_get_past {T : Type} (v : list T) (k : Z) :
  Z.of_nat (length v) <= k -> vec_get v k = None.
Proof.
  intros Hk. unfold vec_get. destruct (0 <=? k); [| reflexivity].
  apply lookup_ge_None_2. lia.
Qed.

Lemma entry_lookup (v : list double) (k : nat) (d : double) :
  v !! k = Some d -> entry v (Z.of_nat k) = d.
Proof.
  intros Hd. apply entry_get. rewrite vec_get_nat by lia.
  rewrite Nat2Z.id. exact Hd.
Qed.

(** Writing one row of [fit.csv]. *)
Lemma csv_row_put (x y : list double) (a b c : double) (i : Z) items :
  0 <= i < 200 ->
  (i < Z.of_nat (length x) -> i < Z.of_nat (length y)) ->
  (out ← (if i <? Z.of_nat (length x) then
            xi ← vec_get x (size_of_int i);
            yi ← vec_get y (size_of_int i);
            Some ({| os_items := items; os_precision := 6;
                     os_floatfield := FloatDefault; os_width := 0 |}
                    << xi << "," << yi << ",")
          else Some ({| os_items := items; os_precision := 6;
                        os_floatfield := FloatDefault; os_width := 0 |}
                       << ",,"));
   Some (out << mesh_point x i << ","
             << parabola_model a b c (mesh_point x i) << nl))
  = Some {| os_items := items ++ csv_row x y a b c i; os_precision := 6;
            os_floatfield := FloatDefault; os_width := 0 |}.
Proof.
  intros Hi Hy.
  assert (Hcast : size_of_int i = i).
  { unfold size_of_int, SIZE_MOD. apply Z.mod_small. lia. }
  rewrite Hcast. unfold csv_row.
  destruct (Z.ltb_spec i (Z.of_nat (length x))) as [Hin | Hout].
  - destruct (vec_get_in x i) as [xi Hxi]; [lia |].
    destruct (vec_get_in y i) as [yi Hyi]; [lia |].
    rewrite Hxi, Hyi, (entry_get x i xi Hxi), (entry_get y i yi Hyi).
    cbv [mbind option_bind insertion insert_string insert_double os_put
         os_items os_precision os_floatfield os_width].
    f_equal. f_equal. rewrite <- !app_assoc. reflexivity.
  - cbv [mbind option_bind insertion insert_string insert_double os_put
         os_items os_precision os_floatfield os_width].
    f_equal. f_equal. rewrite <- !app_assoc. reflexivity.
Qed.

Lemma write_fit_csv_spec (x y : list double) (a b c : double) :
  x <> [] -> Z.of_nat (length x) <= INT_MAX ->
  Z.min 200 (Z.of_nat (length x)) <= Z.of_nat (length y) ->
  write_fit_csv x y a b c
  = Some {| os_items :=
              ("x_pts,y_pts,x_fit,y_fit" +:+ nl)
              :: concat (map (csv_row x y a b c) (seqZ 0 200));
            os_precision := 6; os_floatfield := FloatDefault;
            os_width := 0 |}.
Proof.
  intros Hx Hfit Hy. unfold write_fit_csv. cbv zeta.
  rewrite int_of_size_fits by lia.
  assert (Hhead : head x = Some (entry x 0)).
  { destruct x as [| x0 x']; [contradiction | reflexivity]. }
  assert (Hlast : last x = Some (entry x (Z.of_nat (length x) - 1))).
  { rewrite last_lookup.
    destruct (lookup_lt_is_Some_2 x (pred (length x))) as [d Hd].
    - destruct x; [contradiction | simpl; lia].
    - rewrite Hd. f_equal. symmetry.
      replace (Z.of_nat (length x) - 1) with (Z.of_nat (pred (length x))).
      + apply entry_lookup. exact Hd.
      + destruct x; [contradiction | simpl length; lia]. }
  rewrite Hhead, Hlast. cbn [mbind option_bind].
  destruct (for_int_inv
              (fun k out =>
                 out
                 = {| os_items :=
                        ("x_pts,y_pts,x_fit,y_fit" +:+ nl)
                        :: concat (map (csv_row x y a b c) (seqZ 0 k));
                      os_precision := 6; os_floatfield := FloatDefault;
                      os_width := 0 |})
              (fun i out =>
                 let t := ddiv (d_of_int i) (d_of_int (200 - 1)) in
                 let xf :=
                   dadd (entry x 0)
                     (dmul t (dsub (entry x (Z.of_nat (length x) - 1))
                                (entry x 0))) in
                 let yf := dadd (dadd (dmul (dmul a xf) xf) (dmul b xf)) c in
                 out ← (if i <? Z.of_nat (length x) then
                           xi ← vec_get x (size_of_int i);
                           yi ← vec_get y (size_of_int i);
                           Some (out << xi << "," << yi << ",")
                         else Some (out << ",,"));
                 Some (out << xf << "," << yf << nl))
              200 (os_open << ("x_pts,y_pts,x_fit,y_fit" +:+ nl)))
    as (out & Hrun & ->); [lia | reflexivity | | exact Hrun].
  intros k out Hk ->. cbv zeta.
  eexists. split.
  - apply (csv_row_put x y a b c k); lia.
  - rewrite seqZ_snoc by lia.
    rewrite map_app, concat_app. cbn [map concat].
    rewrite app_nil_r. reflexivity.
Qed.

(** The two lines of the summary, on a stream in fixed format. *)
Lemma summary_put items prec (sse mse : double) :
  {| os_items := items; os_precision := prec; os_floatfield := FloatFixed;
     os_width := 0 |}
    << (nl +:+ "SSE = ") << sse << nl << "MSE = " << mse << nl
  = {| os_items :=
         items
         ++ [nl +:+ "SSE = "; ostream_fmt_double FloatFixed prec sse; nl;
             "MSE = "; ostream_fmt_double FloatFixed prec mse; nl];
       os_precision := prec; os_floatfield := FloatFixed; os_width := 0 |}.
Proof.
  cbv [insertion insert_string insert_double os_put os_items os_precision
       os_floatfield os_width].
  f_equal. rewrite <- !app_assoc. reflexivity.
Qed.

End FittingReports.

(** X22.  For m samples with 3 * m at most INT_MAX, so that the offsets
    0 * m + i, 1 * m + i and 2 * m + i are values of [lapack_int], and [y]
    holding at least as many values as [x], the parabola program hands to
    [LAPACKE_dgels], column-major with leading dimension m, the design
    matrix whose columns are the squares of the samples, the samples and m
    ones, and as right-hand side the first m values of [y] padded with
    zeros to max(m, 3) entries; it calls that routine once and no
    other. *)
Theorem quadratic_design_matrix `{Lapack} (x y : list double) :
  3 * Z.of_nat (length x) <= INT_MAX -> (length x <= length y)%nat ->
  quadratic_steps x y
  = (let m := Z.of_nat (length x) in
     let A :=
       map (fun xi => dmul xi xi) x ++ x ++ replicate (length x) d_one in
     let ldb := Z.max m 3 in
     let B :=
       take (length x) y ++ replicate (Z.to_nat ldb - length x) d_zero in
     let solved :=
       LAPACKE_dgels LAPACK_COL_MAJOR "N"%char m 3 1 A m B ldb in
     Some ([R_dgels], (solved.1, overwrite B solved.2))).
Proof.
  intros Hlen Hy. unfold quadratic_steps. cbv zeta.
  rewrite int_of_size_fits by lia.
  rewrite (quadratic_design_loop x Hlen). cbn [mbind option_bind].
  rewrite (quadratic_rhs_loop y (Z.of_nat (length x))
             (Z.max (Z.of_nat (length x)) 3));
    [| lia | unfold INT_MAX in *; lia | lia].
  cbn [mbind option_bind]. rewrite Nat2Z.id. reflexivity.
Qed.

Lemma quadratic_design_matrix_witness :
  quadratic_steps (H0 := Exact.ZLapack 0) [2; 3] [5; 7; 9]
  = (let m := Z.of_nat (length [2; 3]) in
     let one := d_one (H := Exact.ZDouble) in
     let zero := d_zero (H := Exact.ZDouble) in
     let A :=
       map (fun xi => dmul (DoubleOps := Exact.ZDouble) xi xi) [2; 3]
       ++ [2; 3] ++ replicate (length [2; 3]) one in
     let ldb := Z.max m 3 in
     let B :=
       take (length [2; 3]) [5; 7; 9]
       ++ replicate (Z.to_nat ldb - length [2; 3]) zero in
     let solved :=
       LAPACKE_dgels (Lapack := Exact.ZLapack 0) LAPACK_COL_MAJOR "N"%char
         m 3 1 A m B ldb in
     Some ([R_dgels], (solved.1, overwrite B solved.2))).
Proof.
  apply (quadratic_design_matrix (H0 := Exact.ZLapack 0) [2; 3] [5; 7; 9]).
  - vm_compute. discriminate.
  - simpl. lia.
Defined.

(** X23.  When [y] holds at least as many values as [x], the loop of the
    parabola program returns as SSE the sum of the
    (a * x_i^2 + b * x_i + c - y_i)^2 over the samples, accumulated from
    0.0 in their order, and prints one line per sample. *)
Theorem quadratic_errors_sum `{DoubleOps} (x y : list double)
  (a b c : double) (cout : ostream) :
  (length x <= length y)%nat -> os_width cout = 0 ->
  quadratic_errors x y a b c cout
  = Some
      (sum_squared_errors (map (parabola_model a b c) x) (take (length x) y),
       {| os_items :=
            os_items cout
            ++ concat
                 (map (sample_line
                         (ostream_fmt_double (os_floatfield cout)
                            (os_precision cout)) (parabola_model a b c))
                    (zip x (take (length x) y)));
          os_precision := os_precision cout;
          os_floatfield := os_floatfield cout;
          os_width := 0 |}).
Proof. intros Hy Hw. apply quadratic_errors_loop; assumption. Qed.

Lemma quadratic_errors_sum_witness :
  quadratic_errors (H := Exact.ZDouble) [1; 2] [3; 4; 5] 1 1 1 os_open
  = Some
      (sum_squared_errors (H := Exact.ZDouble)
         (map (parabola_model (H := Exact.ZDouble) 1 1 1) [1; 2])
         (take (length [1; 2]) [3; 4; 5]),
       {| os_items :=
            os_items os_open
            ++ concat
                 (map (sample_line (H := Exact.ZDouble)
                         (ostream_fmt_double (DoubleOps := Exact.ZDouble)
                            (os_floatfield os_open) (os_precision os_open))
                         (parabola_model (H := Exact.ZDouble) 1 1 1))
                    (zip [1; 2] (take (length [1; 2]) [3; 4; 5])));
          os_precision := os_precision os_open;
          os_floatfield := os_floatfield os_open;
          os_width := 0 |}).
Proof.
  apply (quadratic_errors_sum (H := Exact.ZDouble) [1; 2] [3; 4; 5] 1 1 1
           os_open).
  - simpl. lia.
  - reflexivity.
Defined.

(** X24.  The fitting programs do not compare the sizes of [x] and [y]:
    with fewer values in [y] than in [x], the parabola program indexes [y]
    out of its bounds when it fills the right-hand side, and the error
    loops of both programs do so when they reach the first missing
    value. *)
Theorem samples_mismatch_undefined `{Lapack} (x y : list double) :
  Z.of_nat (length x) <= INT_MAX -> (length y < length x)%nat ->
  quadratic_solve x y = None
  /\ (forall a b c cout, quadratic_errors x y a b c cout = None)
  /\ (forall a b cout,
        linear_errors x y (Z.of_nat (length x)) a b cout = None).
Proof.
  intros Hlen Hy.
  assert (Hcast : size_of_int (Z.of_nat (length y)) = Z.of_nat (length y)).
  { unfold size_of_int, SIZE_MOD. apply Z.mod_small.
    unfold INT_MAX in Hlen. lia. }
  assert (Hpast : vec_get y (Z.of_nat (length y)) = None).
  { apply vec_get_past. lia. }
  split; [| split].
  - assert (Hsteps : quadratic_steps x y = None).
    { unfold quadratic_steps. cbv zeta.
      rewrite int_of_size_fits by lia.
      match goal with
      | |- (A ← ?loop; _) = None => destruct loop as [A |]; [| reflexivity]
      end.
      cbn [mbind option_bind].
      rewrite (for_int_undefined _ _ _ (Z.of_nat (length y)));
        [reflexivity | lia |].
      intros B. rewrite Hcast, Hpast. reflexivity. }
    unfold quadratic_solve. rewrite Hsteps. reflexivity.
  - intros a b c cout. unfold quadratic_errors.
    apply (for_int_undefined _ _ _ (Z.of_nat (length y))); [lia |].
    intros st. rewrite Hpast.
    destruct (vec_get x (Z.of_nat (length y))); reflexivity.
  - intros a b cout. unfold linear_errors.
    apply (for_int_undefined _ _ _ (Z.of_nat (length y))); [lia |].
    intros st. rewrite Hpast.
    destruct (vec_get x (Z.of_nat (length y))); reflexivity.
Qed.

Lemma samples_mismatch_undefined_witness :
  quadratic_solve (H0 := Exact.ZLapack 0) [1; 2; 3] [4; 5] = None
  /\ (forall a b c cout,
        quadratic_errors (H := Exact.ZDouble) [1; 2; 3] [4; 5] a b c cout
        = None)
  /\ (forall a b cout,
        linear_errors (H := Exact.ZDouble) [1; 2; 3] [4; 5]
          (Z.of_nat (length [1; 2; 3])) a b cout = None).
Proof.
  apply (samples_mismatch_undefined (H0 := Exact.ZLapack 0) [1; 2; 3] [4; 5]).
  - vm_compute. discriminate.
  - simpl. lia.
Defined.

(** X25.  For at least one sample and at most INT_MAX of them, so that
    their number converted to [int] is that number, and [y] holding a
    value for each of the first 200 samples, [fit.csv] is the header line
    followed by exactly 200 rows, whatever the number of samples: the row i
    carries the sample i while there is one, two empty fields otherwise,
    then the point i of the mesh from the first to the last sample and the
    value of the parabola there.  The numbers are written in the default
    format of a new stream, precision 6, not in the fixed format of the
    console. *)
Theorem fit_csv_rows `{DoubleOps} (x y : list double) (a b c : double) :
  x <> [] -> Z.of_nat (length x) <= INT_MAX ->
  Z.min 200 (Z.of_nat (length x)) <= Z.of_nat (length y) ->
  write_fit_csv x y a b c
  = Some {| os_items :=
              ("x_pts,y_pts,x_fit,y_fit" +:+ nl)
              :: concat (map (csv_row x y a b c) (seqZ 0 200));
            os_precision := 6; os_floatfield := FloatDefault;
            os_width := 0 |}.
Proof. intros Hx Hfit Hy. apply write_fit_csv_spec; assumption. Qed.

Lemma fit_csv_rows_witness :
  write_fit_csv (H := Exact.ZDouble) [1; 2] [3; 4] 1 1 1
  = Some {| os_items :=
              ("x_pts,y_pts,x_fit,y_fit" +:+ nl)
              :: concat (map (csv_row (H := Exact.ZDouble) [1; 2] [3; 4] 1 1 1)
                           (seqZ 0 200));
            os_precision := 6; os_floatfield := FloatDefault;
            os_width := 0 |}.
Proof.
  apply (fit_csv_rows (H := Exact.ZDouble) [1; 2] [3; 4] 1 1 1).
  - discriminate.
  - vm_compute. discriminate.
  - simpl. lia.
Defined.

Section ReportsMore.
Context `{DoubleOps}.

Lemma octave_hint_items (os : ostream) :
  os_width os = 0 ->
  os_items (octave_hint os) = os_items os ++ os_items (octave_hint os_open).
Proof.
  intros Hw. destruct os as [items prec ff w]. cbn [os_width] in Hw. subst w.
  unfold octave_hint, os_open, insertion, insert_string.
  rewrite !os_put_plain. cbn [os_items app].
  rewrite <- !app_assoc. reflexivity.
Qed.

Lemma quadratic_report_spec (x y : list double) (a b c : double)
  (B : list double) (csv_ok : bool) (calls : list routine) :
  x <> [] -> Z.of_nat (length x) <= INT_MAX -> (length x <= length y)%nat ->
  exists rep before after,
    quadratic_report x y 0 (a :: b :: c :: B) csv_ok calls = Some rep
    /\ rep_status rep = (if csv_ok then 0 else 1)
    /\ rep_calls rep = calls
    /\ os_items (rep_cout rep)
       = before
         ++ error_summary
              (sum_squared_errors (map (parabola_model a b c) x)
                 (take (length x) y))
              (ddiv
                 (sum_squared_errors (map (parabola_model a b c) x)
                    (take (length x) y))
                 (d_of_int (Z.of_nat (length x))))
         ++ after
    /\ os_items (rep_cerr rep)
       = (if csv_ok then [] else ["Error: "; "No se pudo crear fit.csv"; nl])
    /\ rep_files rep
       = (if csv_ok
          then [("fit.csv",
                 {| os_items :=
                      ("x_pts,y_pts,x_fit,y_fit" +:+ nl)
                      :: concat (map (csv_row x y a b c) (seqZ 0 200));
                    os_precision := 6; os_floatfield := FloatDefault;
                    os_width := 0 |})]
          else []).
Proof.
  intros Hx Hfit Hy. unfold quadratic_report.
  rewrite int_of_size_fits by lia.
  change (dgels_diagnostic 0) with (Some (@None diagnostic)).
  change (vec_get (a :: b :: c :: B) 0) with (Some a).
  change (vec_get (a :: b :: c :: B) 1) with (Some b).
  change (vec_get (a :: b :: c :: B) 2) with (Some c).
  cbv zeta. cbn [mbind option_bind].
  match goal with
  | |- context [quadratic_errors x y a b c ?co] => set (cout0 := co)
  end.
  assert (Hw : os_width cout0 = 0) by reflexivity.
  assert (Hff : os_floatfield cout0 = FloatFixed) by reflexivity.
  assert (Hprec : os_precision cout0 = 10) by reflexivity.
  clearbody cout0.
  rewrite (quadratic_errors_loop x y a b c cout0 Hy Hw), Hff, Hprec.
  cbn [mbind option_bind fst snd]. rewrite summary_put.
  set (lines :=
         concat
           (map (sample_line (ostream_fmt_double FloatFixed 10)
                   (parabola_model a b c))
              (zip x (take (length x) y)))).
  destruct csv_ok; cbn [negb].
  - rewrite write_fit_csv_spec by (assumption || lia).
    cbn [mbind option_bind].
    eexists.
    exists (os_items cout0 ++ lines),
      ((nl +:+ "Se genero fit.csv para graficar (puntos y curva)." +:+ nl)
       :: os_items (octave_hint os_open)).
    split; [reflexivity |].
    cbn [rep_status rep_cout rep_cerr rep_files rep_calls].
    split; [reflexivity |]. split; [reflexivity |].
    split; [| split; reflexivity].
    rewrite octave_hint_items by reflexivity.
    unfold insertion, insert_string. rewrite os_put_plain. cbn [os_items].
    rewrite <- !app_assoc. reflexivity.
  - eexists. exists (os_items cout0 ++ lines), [].
    split; [reflexivity |]. unfold caught.
    cbn [rep_status rep_cout rep_cerr rep_files rep_calls os_items].
    split; [reflexivity |]. split; [reflexivity |].
    split; [| split; reflexivity].
    rewrite app_nil_r. reflexivity.
Qed.

Lemma linear_report_spec (x y : list double) (a b : double)
  (theta : list double) (calls : list routine) :
  Z.of_nat (length x) <= INT_MAX -> (length x <= length y)%nat ->
  exists rep before,
    linear_report x y 0 (a :: b :: theta) calls = Some rep
    /\ rep_status rep = 0
    /\ rep_calls rep = calls
    /\ os_items (rep_cout rep)
       = before
         ++ error_summary
              (sum_squared_errors (map (line_model a b) x)
                 (take (length x) y))
              (ddiv
                 (sum_squared_errors (map (line_model a b) x)
                    (take (length x) y))
                 (d_of_int (Z.of_nat (length x))))
    /\ rep_cerr rep = os_open
    /\ rep_files rep = [].
Proof.
  intros Hfit Hy. unfold linear_report.
  rewrite int_of_size_fits by lia.
  change (dgesv_diagnostic 0) with (Some (@None diagnostic)).
  change (vec_get (a :: b :: theta) 0) with (Some a).
  change (vec_get (a :: b :: theta) 1) with (Some b).
  cbv zeta. cbn [mbind option_bind].
  match goal with
  | |- context [linear_errors x y _ a b ?co] => set (cout0 := co)
  end.
  assert (Hw : os_width cout0 = 0) by reflexivity.
  assert (Hff : os_floatfield cout0 = FloatFixed) by reflexivity.
  assert (Hprec : os_precision cout0 = 10) by reflexivity.
  clearbody cout0.
  rewrite (linear_errors_loop x y a b cout0 Hy Hw), Hff, Hprec.
  cbn [mbind option_bind fst snd]. rewrite summary_put.
  eexists.
  exists (os_items cout0
          ++ concat
               (map (sample_line (ostream_fmt_double FloatFixed 10)
                       (line_model a b))
                  (zip x (take (length x) y)))).
  split; [reflexivity |].
  cbn [rep_status rep_cout rep_cerr rep_files rep_calls os_items].
  repeat split; reflexivity.
Qed.

End ReportsMore.

(** X26.  For any samples, at most INT_MAX of them so that their number
    converted to [int] is that number, [y] holding at least as many values
    as [x], and a solution with its two coefficients, the line program
    ends with status 0, prints nothing on the error stream, writes no
    file, calls no further routine, and ends its output with SSE, the sum
    of the squared errors of the fitted line over the samples, and MSE,
    that sum divided by the number of samples. *)
Theorem linear_report_summary `{DoubleOps} (x y : list double)
  (theta : list double) (calls : list routine) :
  Z.of_nat (length x) <= INT_MAX ->
  (length x <= length y)%nat -> (2 <= length theta)%nat ->
  exists rep before,
    linear_report x y 0 theta calls = Some rep
    /\ rep_status rep = 0
    /\ rep_calls rep = calls
    /\ os_items (rep_cout rep)
       = before
         ++ error_summary
              (sum_squared_errors
                 (map (line_model (entry theta 0) (entry theta 1)) x)
                 (take (length x) y))
              (ddiv
                 (sum_squared_errors
                    (map (line_model (entry theta 0) (entry theta 1)) x)
                    (take (length x) y))
                 (d_of_int (Z.of_nat (length x))))
    /\ rep_cerr rep = os_open
    /\ rep_files rep = [].
Proof.
  intros Hfit Hy Htheta.
  destruct theta as [| a [| b theta]]; simpl in Htheta; try lia.
  apply linear_report_spec; assumption.
Qed.

Lemma linear_report_summary_witness :
  exists rep before,
    linear_report (H := Exact.ZDouble) [1; 2; 3] [2; 2; 4] 0 [1; 1]
      [R_cblas_dgemm; R_cblas_dgemv; R_dgesv]
    = Some rep
    /\ rep_status rep = 0
    /\ rep_calls rep = [R_cblas_dgemm; R_cblas_dgemv; R_dgesv]
    /\ os_items (rep_cout rep)
       = before
         ++ error_summary (H := Exact.ZDouble)
              (sum_squared_errors (H := Exact.ZDouble)
                 (map (line_model (H := Exact.ZDouble)
                         (entry (H := Exact.ZDouble) [1; 1] 0)
                         (entry (H := Exact.ZDouble) [1; 1] 1)) [1; 2; 3])
                 (take (length [1; 2; 3]) [2; 2; 4]))
              (ddiv (DoubleOps := Exact.ZDouble)
                 (sum_squared_errors (H := Exact.ZDouble)
                    (map (line_model (H := Exact.ZDouble)
                            (entry (H := Exact.ZDouble) [1; 1] 0)
                            (entry (H := Exact.ZDouble) [1; 1] 1)) [1; 2; 3])
                    (take (length [1; 2; 3]) [2; 2; 4]))
                 (d_of_int (H := Exact.ZDouble)
                    (Z.of_nat (length [1; 2; 3]))))
    /\ rep_cerr rep = os_open
    /\ rep_files rep = [].
Proof.
  apply (linear_report_summary (H := Exact.ZDouble) [1; 2; 3] [2; 2; 4]
           [1; 1] [R_cblas_dgemm; R_cblas_dgemv; R_dgesv]).
  - vm_compute. discriminate.
  - simpl. lia.
  - simpl. lia.
Defined.

(** X27.  For at least one sample and at most INT_MAX of them, [y] holding
    at least as many values as [x], and a solution with its three
    coefficients, the parabola program prints SSE, the sum of the squared
    errors of the fitted parabola over the samples, and MSE, that sum
    divided by the number of samples, and calls no further routine.  When
    [fit.csv] can be created, it ends with status 0, having written that
    file and nothing on the error stream.  When [fit.csv] cannot be
    created, it ends with status 1 and the message that says so, after the
    whole report, SSE and MSE included, has been printed. *)
Theorem quadratic_report_summary `{DoubleOps} (x y : list double)
  (B : list double) (csv_ok : bool) (calls : list routine) :
  x <> [] -> Z.of_nat (length x) <= INT_MAX ->
  (length x <= length y)%nat -> (3 <= length B)%nat ->
  exists rep before after,
    quadratic_report x y 0 B csv_ok calls = Some rep
    /\ rep_status rep = (if csv_ok then 0 else 1)
    /\ rep_calls rep = calls
    /\ os_items (rep_cout rep)
       = before
         ++ error_summary
              (sum_squared_errors
                 (map (parabola_model (entry B 0) (entry B 1) (entry B 2)) x)
                 (take (length x) y))
              (ddiv
                 (sum_squared_errors
                    (map (parabola_model (entry B 0) (entry B 1) (entry B 2))
                       x)
                    (take (length x) y))
                 (d_of_int (Z.of_nat (length x))))
         ++ after
    /\ os_items (rep_cerr rep)
       = (if csv_ok then [] else ["Error: "; "No se pudo crear fit.csv"; nl])
    /\ rep_files rep
       = (if csv_ok
          then [("fit.csv",
                 {| os_items :=
                      ("x_pts,y_pts,x_fit,y_fit" +:+ nl)
                      :: concat
                           (map (csv_row x y (entry B 0) (entry B 1)
                                   (entry B 2))
                              (seqZ 0 200));
                    os_precision := 6; os_floatfield := FloatDefault;
                    os_width := 0 |})]
          else []).
Proof.
  intros Hx Hfit Hy HB.
  destruct B as [| a [| b [| c B]]]; simpl in HB; try lia.
  apply quadratic_report_spec; assumption.
Qed.

Lemma quadratic_report_summary_witness :
  exists rep before after,
    quadratic_report (H := Exact.ZDouble) [1; 2] [3; 4] 0 [1; 1; 1] false
      [R_dgels]
    = Some rep
    /\ rep_status rep = (if false then 0 else 1)
    /\ rep_calls rep = [R_dgels]
    /\ os_items (rep_cout rep)
       = before
         ++ error_summary (H := Exact.ZDouble)
              (sum_squared_errors (H := Exact.ZDouble)
                 (map (parabola_model (H := Exact.ZDouble)
                         (entry (H := Exact.ZDouble) [1; 1; 1] 0)
                         (entry (H := Exact.ZDouble) [1; 1; 1] 1)
                         (entry (H := Exact.ZDouble) [1; 1; 1] 2)) [1; 2])
                 (take (length [1; 2]) [3; 4]))
              (ddiv (DoubleOps := Exact.ZDouble)
                 (sum_squared_errors (H := Exact.ZDouble)
                    (map (parabola_model (H := Exact.ZDouble)
                            (entry (H := Exact.ZDouble) [1; 1; 1] 0)
                            (entry (H := Exact.ZDouble) [1; 1; 1] 1)
                            (entry (H := Exact.ZDouble) [1; 1; 1] 2)) [1; 2])
                    (take (length [1; 2]) [3; 4]))
                 (d_of_int (H := Exact.ZDouble) (Z.of_nat (length [1; 2]))))
         ++ after
    /\ os_items (rep_cerr rep)
       = (if false then [] else ["Error: "; "No se pudo crear fit.csv"; nl])
    /\ rep_files rep
       = (if false
          then [("fit.csv",
                 {| os_items :=
                      ("x_pts,y_pts,x_fit,y_fit" +:+ nl)
                      :: concat
                           (map (csv_row (H := Exact.ZDouble) [1; 2] [3; 4]
                                   (entry (H := Exact.ZDouble) [1; 1; 1] 0)
                                   (entry (H := Exact.ZDouble) [1; 1; 1] 1)
                                   (entry (H := Exact.ZDouble) [1; 1; 1] 2))
                              (seqZ 0 200));
                    os_precision := 6; os_floatfield := FloatDefault;
                    os_width := 0 |})]
          else []).
Proof.
  apply (quadratic_report_summary (H := Exact.ZDouble) [1; 2] [3; 4]
           [1; 1; 1] false [R_dgels]).
  - discriminate.
  - vm_compute. discriminate.
  - simpl. lia.
  - simpl. lia.
Defined.
